(** * Meal Prep Assistant (script.js): a shallow embedding and its properties

    The script is a browser chat front end: a transcript
    ([state.conversationHistory]), a busy flag ([state.isLoading]), a speech
    adapter ([state.isListening], [state.recognition]), a request to a
    chat-completion endpoint and a canned responder used when no credential
    is configured or the request fails.

    The embedding follows the script function by function.  Mutable globals
    ([CONFIG], [state], the DOM elements the script touches) are gathered in a
    record [World] that every function threads through a small state and
    exception monad.  The two [async] functions are cut at their [await]s: the
    part up to the suspension is one function, the part after it another, and
    a pending task records where a suspended call stands. *)

From Stdlib Require Import List NArith ZArith Bool Ascii String Lia.
From Stdlib Require Import DecimalString.
Import ListNotations.

Set Implicit Arguments.
Set Warnings "-register-all".

(* ================================================================= *)
(** ** JavaScript strings *)

(** A JavaScript string is a sequence of UTF-16 code units. *)
Module JsString.

Definition jsstring := list N.

Definition eq_dec : forall a b : jsstring, {a = b} + {a <> b} :=
  list_eq_dec N.eq_dec.

Definition eqb (a b : jsstring) : bool := if eq_dec a b then true else false.

(** Literals of the script that are pure ASCII are written as Rocq strings. *)
Definition str (s : string) : jsstring :=
  map N_of_ascii (list_ascii_of_string s).

Arguments str : simpl never.

Definition between (lo hi c : N) : bool := (lo <=? c)%N && (c <=? hi)%N.

(** *** Lower case

    [String.prototype.toLowerCase] works on code points, not code units, and
    follows the Unicode default case conversion: the simple mappings of
    UnicodeData.txt and the entries of SpecialCasing.txt that depend on no
    language.  The tables below are those of Unicode 14.0. *)

Definition is_high (c : N) : bool := between 0xD800 0xDBFF c.

Definition is_low (c : N) : bool := between 0xDC00 0xDFFF c.

(** The code points of a string: a high surrogate followed by a low one is
    one code point beyond U+FFFF, any other code unit is its own. *)
Fixpoint codePoints (s : jsstring) : list N :=
  match s with
  | [] => []
  | h :: t =>
      match t with
      | l :: t' =>
          if is_high h && is_low l
          then (0x10000 + (h - 0xD800) * 0x400 + (l - 0xDC00))%N
               :: codePoints t'
          else h :: codePoints t
      | [] => [h]
      end
  end.

(** The code units of a code point. *)
Definition codeUnits (c : N) : list N :=
  (if c <? 0x10000 then [c]
   else [0xD800 + (c - 0x10000) / 0x400; 0xDC00 + (c - 0x10000) mod 0x400])%N.

(** The simple lower-case mappings of the Unicode Character Database
    (UnicodeData.txt, version 14.0), as runs [(first, last, step, image of
    first)]: every [step]-th code point from [first] to [last] has a lower
    case, at the same distance from [image of first]. *)
Definition LOWER : list (N * N * N * N) :=
  [(0x41, 0x5A, 1, 0x61); (0xC0, 0xD6, 1, 0xE0); (0xD8, 0xDE, 1, 0xF8);
   (0x100, 0x12E, 2, 0x101); (0x132, 0x136, 2, 0x133);
   (0x139, 0x147, 2, 0x13A); (0x14A, 0x176, 2, 0x14B);
   (0x178, 0x178, 1, 0xFF); (0x179, 0x17D, 2, 0x17A);
   (0x181, 0x181, 1, 0x253); (0x182, 0x184, 2, 0x183);
   (0x186, 0x186, 1, 0x254); (0x187, 0x187, 1, 0x188);
   (0x189, 0x18A, 1, 0x256); (0x18B, 0x18B, 1, 0x18C);
   (0x18E, 0x18E, 1, 0x1DD); (0x18F, 0x18F, 1, 0x259);
   (0x190, 0x190, 1, 0x25B); (0x191, 0x191, 1, 0x192);
   (0x193, 0x193, 1, 0x260); (0x194, 0x194, 1, 0x263);
   (0x196, 0x196, 1, 0x269); (0x197, 0x197, 1, 0x268);
   (0x198, 0x198, 1, 0x199); (0x19C, 0x19C, 1, 0x26F);
   (0x19D, 0x19D, 1, 0x272); (0x19F, 0x19F, 1, 0x275);
   (0x1A0, 0x1A4, 2, 0x1A1); (0x1A6, 0x1A6, 1, 0x280);
   (0x1A7, 0x1A7, 1, 0x1A8); (0x1A9, 0x1A9, 1, 0x283);
   (0x1AC, 0x1AC, 1, 0x1AD); (0x1AE, 0x1AE, 1, 0x288);
   (0x1AF, 0x1AF, 1, 0x1B0); (0x1B1, 0x1B2, 1, 0x28A);
   (0x1B3, 0x1B5, 2, 0x1B4); (0x1B7, 0x1B7, 1, 0x292);
   (0x1B8, 0x1B8, 1, 0x1B9); (0x1BC, 0x1BC, 1, 0x1BD);
   (0x1C4, 0x1C4, 1, 0x1C6); (0x1C5, 0x1C5, 1, 0x1C6);
   (0x1C7, 0x1C7, 1, 0x1C9); (0x1C8, 0x1C8, 1, 0x1C9);
   (0x1CA, 0x1CA, 1, 0x1CC); (0x1CB, 0x1DB, 2, 0x1CC);
   (0x1DE, 0x1EE, 2, 0x1DF); (0x1F1, 0x1F1, 1, 0x1F3);
   (0x1F2, 0x1F4, 2, 0x1F3); (0x1F6, 0x1F6, 1, 0x195);
   (0x1F7, 0x1F7, 1, 0x1BF); (0x1F8, 0x21E, 2, 0x1F9);
   (0x220, 0x220, 1, 0x19E); (0x222, 0x232, 2, 0x223);
   (0x23A, 0x23A, 1, 0x2C65); (0x23B, 0x23B, 1, 0x23C);
   (0x23D, 0x23D, 1, 0x19A); (0x23E, 0x23E, 1, 0x2C66);
   (0x241, 0x241, 1, 0x242); (0x243, 0x243, 1, 0x180);
   (0x244, 0x244, 1, 0x289); (0x245, 0x245, 1, 0x28C);
   (0x246, 0x24E, 2, 0x247); (0x370, 0x372, 2, 0x371);
   (0x376, 0x376, 1, 0x377); (0x37F, 0x37F, 1, 0x3F3);
   (0x386, 0x386, 1, 0x3AC); (0x388, 0x38A, 1, 0x3AD);
   (0x38C, 0x38C, 1, 0x3CC); (0x38E, 0x38F, 1, 0x3CD);
   (0x391, 0x3A1, 1, 0x3B1); (0x3A3, 0x3AB, 1, 0x3C3);
   (0x3CF, 0x3CF, 1, 0x3D7); (0x3D8, 0x3EE, 2, 0x3D9);
   (0x3F4, 0x3F4, 1, 0x3B8); (0x3F7, 0x3F7, 1, 0x3F8);
   (0x3F9, 0x3F9, 1, 0x3F2); (0x3FA, 0x3FA, 1, 0x3FB);
   (0x3FD, 0x3FF, 1, 0x37B); (0x400, 0x40F, 1, 0x450);
   (0x410, 0x42F, 1, 0x430); (0x460, 0x480, 2, 0x461);
   (0x48A, 0x4BE, 2, 0x48B); (0x4C0, 0x4C0, 1, 0x4CF);
   (0x4C1, 0x4CD, 2, 0x4C2); (0x4D0, 0x52E, 2, 0x4D1);
   (0x531, 0x556, 1, 0x561); (0x10A0, 0x10C5, 1, 0x2D00);
   (0x10C7, 0x10C7, 1, 0x2D27); (0x10CD, 0x10CD, 1, 0x2D2D);
   (0x13A0, 0x13EF, 1, 0xAB70); (0x13F0, 0x13F5, 1, 0x13F8);
   (0x1C90, 0x1CBA, 1, 0x10D0); (0x1CBD, 0x1CBF, 1, 0x10FD);
   (0x1E00, 0x1E94, 2, 0x1E01); (0x1E9E, 0x1E9E, 1, 0xDF);
   (0x1EA0, 0x1EFE, 2, 0x1EA1); (0x1F08, 0x1F0F, 1, 0x1F00);
   (0x1F18, 0x1F1D, 1, 0x1F10); (0x1F28, 0x1F2F, 1, 0x1F20);
   (0x1F38, 0x1F3F, 1, 0x1F30); (0x1F48, 0x1F4D, 1, 0x1F40);
   (0x1F59, 0x1F5F, 2, 0x1F51); (0x1F68, 0x1F6F, 1, 0x1F60);
   (0x1F88, 0x1F8F, 1, 0x1F80); (0x1F98, 0x1F9F, 1, 0x1F90);
   (0x1FA8, 0x1FAF, 1, 0x1FA0); (0x1FB8, 0x1FB9, 1, 0x1FB0);
   (0x1FBA, 0x1FBB, 1, 0x1F70); (0x1FBC, 0x1FBC, 1, 0x1FB3);
   (0x1FC8, 0x1FCB, 1, 0x1F72); (0x1FCC, 0x1FCC, 1, 0x1FC3);
   (0x1FD8, 0x1FD9, 1, 0x1FD0); (0x1FDA, 0x1FDB, 1, 0x1F76);
   (0x1FE8, 0x1FE9, 1, 0x1FE0); (0x1FEA, 0x1FEB, 1, 0x1F7A);
   (0x1FEC, 0x1FEC, 1, 0x1FE5); (0x1FF8, 0x1FF9, 1, 0x1F78);
   (0x1FFA, 0x1FFB, 1, 0x1F7C); (0x1FFC, 0x1FFC, 1, 0x1FF3);
   (0x2126, 0x2126, 1, 0x3C9); (0x212A, 0x212A, 1, 0x6B);
   (0x212B, 0x212B, 1, 0xE5); (0x2132, 0x2132, 1, 0x214E);
   (0x2160, 0x216F, 1, 0x2170); (0x2183, 0x2183, 1, 0x2184);
   (0x24B6, 0x24CF, 1, 0x24D0); (0x2C00, 0x2C2F, 1, 0x2C30);
   (0x2C60, 0x2C60, 1, 0x2C61); (0x2C62, 0x2C62, 1, 0x26B);
   (0x2C63, 0x2C63, 1, 0x1D7D); (0x2C64, 0x2C64, 1, 0x27D);
   (0x2C67, 0x2C6B, 2, 0x2C68); (0x2C6D, 0x2C6D, 1, 0x251);
   (0x2C6E, 0x2C6E, 1, 0x271); (0x2C6F, 0x2C6F, 1, 0x250);
   (0x2C70, 0x2C70, 1, 0x252); (0x2C72, 0x2C72, 1, 0x2C73);
   (0x2C75, 0x2C75, 1, 0x2C76); (0x2C7E, 0x2C7F, 1, 0x23F);
   (0x2C80, 0x2CE2, 2, 0x2C81); (0x2CEB, 0x2CED, 2, 0x2CEC);
   (0x2CF2, 0x2CF2, 1, 0x2CF3); (0xA640, 0xA66C, 2, 0xA641);
   (0xA680, 0xA69A, 2, 0xA681); (0xA722, 0xA72E, 2, 0xA723);
   (0xA732, 0xA76E, 2, 0xA733); (0xA779, 0xA77B, 2, 0xA77A);
   (0xA77D, 0xA77D, 1, 0x1D79); (0xA77E, 0xA786, 2, 0xA77F);
   (0xA78B, 0xA78B, 1, 0xA78C); (0xA78D, 0xA78D, 1, 0x265);
   (0xA790, 0xA792, 2, 0xA791); (0xA796, 0xA7A8, 2, 0xA797);
   (0xA7AA, 0xA7AA, 1, 0x266); (0xA7AB, 0xA7AB, 1, 0x25C);
   (0xA7AC, 0xA7AC, 1, 0x261); (0xA7AD, 0xA7AD, 1, 0x26C);
   (0xA7AE, 0xA7AE, 1, 0x26A); (0xA7B0, 0xA7B0, 1, 0x29E);
   (0xA7B1, 0xA7B1, 1, 0x287); (0xA7B2, 0xA7B2, 1, 0x29D);
   (0xA7B3, 0xA7B3, 1, 0xAB53); (0xA7B4, 0xA7C2, 2, 0xA7B5);
   (0xA7C4, 0xA7C4, 1, 0xA794); (0xA7C5, 0xA7C5, 1, 0x282);
   (0xA7C6, 0xA7C6, 1, 0x1D8E); (0xA7C7, 0xA7C9, 2, 0xA7C8);
   (0xA7D0, 0xA7D0, 1, 0xA7D1); (0xA7D6, 0xA7D8, 2, 0xA7D7);
   (0xA7F5, 0xA7F5, 1, 0xA7F6); (0xFF21, 0xFF3A, 1, 0xFF41);
   (0x10400, 0x10427, 1, 0x10428); (0x104B0, 0x104D3, 1, 0x104D8);
   (0x10570, 0x1057A, 1, 0x10597); (0x1057C, 0x1058A, 1, 0x105A3);
   (0x1058C, 0x10592, 1, 0x105B3); (0x10594, 0x10595, 1, 0x105BB);
   (0x10C80, 0x10CB2, 1, 0x10CC0); (0x118A0, 0x118BF, 1, 0x118C0);
   (0x16E40, 0x16E5F, 1, 0x16E60); (0x1E900, 0x1E921, 1, 0x1E922)]%N.

(** The code points with the property [Cased] (DerivedCoreProperties.txt),
    as intervals. *)
Definition CASED : list (N * N) :=
  [(0x41, 0x5A); (0x61, 0x7A); (0xAA, 0xAA); (0xB5, 0xB5); (0xBA, 0xBA);
   (0xC0, 0xD6); (0xD8, 0xF6); (0xF8, 0x1BA); (0x1BC, 0x1BF); (0x1C4, 0x293);
   (0x295, 0x2B8); (0x2C0, 0x2C1); (0x2E0, 0x2E4); (0x345, 0x345);
   (0x370, 0x373); (0x376, 0x377); (0x37A, 0x37D); (0x37F, 0x37F);
   (0x386, 0x386); (0x388, 0x38A); (0x38C, 0x38C); (0x38E, 0x3A1);
   (0x3A3, 0x3F5); (0x3F7, 0x481); (0x48A, 0x52F); (0x531, 0x556);
   (0x560, 0x588); (0x10A0, 0x10C5); (0x10C7, 0x10C7); (0x10CD, 0x10CD);
   (0x10D0, 0x10FA); (0x10FD, 0x10FF); (0x13A0, 0x13F5); (0x13F8, 0x13FD);
   (0x1C80, 0x1C88); (0x1C90, 0x1CBA); (0x1CBD, 0x1CBF); (0x1D00, 0x1DBF);
   (0x1E00, 0x1F15); (0x1F18, 0x1F1D); (0x1F20, 0x1F45); (0x1F48, 0x1F4D);
   (0x1F50, 0x1F57); (0x1F59, 0x1F59); (0x1F5B, 0x1F5B); (0x1F5D, 0x1F5D);
   (0x1F5F, 0x1F7D); (0x1F80, 0x1FB4); (0x1FB6, 0x1FBC); (0x1FBE, 0x1FBE);
   (0x1FC2, 0x1FC4); (0x1FC6, 0x1FCC); (0x1FD0, 0x1FD3); (0x1FD6, 0x1FDB);
   (0x1FE0, 0x1FEC); (0x1FF2, 0x1FF4); (0x1FF6, 0x1FFC); (0x2071, 0x2071);
   (0x207F, 0x207F); (0x2090, 0x209C); (0x2102, 0x2102); (0x2107, 0x2107);
   (0x210A, 0x2113); (0x2115, 0x2115); (0x2119, 0x211D); (0x2124, 0x2124);
   (0x2126, 0x2126); (0x2128, 0x2128); (0x212A, 0x212D); (0x212F, 0x2134);
   (0x2139, 0x2139); (0x213C, 0x213F); (0x2145, 0x2149); (0x214E, 0x214E);
   (0x2160, 0x217F); (0x2183, 0x2184); (0x24B6, 0x24E9); (0x2C00, 0x2CE4);
   (0x2CEB, 0x2CEE); (0x2CF2, 0x2CF3); (0x2D00, 0x2D25); (0x2D27, 0x2D27);
   (0x2D2D, 0x2D2D); (0xA640, 0xA66D); (0xA680, 0xA69D); (0xA722, 0xA787);
   (0xA78B, 0xA78E); (0xA790, 0xA7CA); (0xA7D0, 0xA7D1); (0xA7D3, 0xA7D3);
   (0xA7D5, 0xA7D9); (0xA7F5, 0xA7F6); (0xA7F8, 0xA7FA); (0xAB30, 0xAB5A);
   (0xAB5C, 0xAB68); (0xAB70, 0xABBF); (0xFB00, 0xFB06); (0xFB13, 0xFB17);
   (0xFF21, 0xFF3A); (0xFF41, 0xFF5A); (0x10400, 0x1044F); (0x104B0, 0x104D3);
   (0x104D8, 0x104FB); (0x10570, 0x1057A); (0x1057C, 0x1058A);
   (0x1058C, 0x10592); (0x10594, 0x10595); (0x10597, 0x105A1);
   (0x105A3, 0x105B1); (0x105B3, 0x105B9); (0x105BB, 0x105BC);
   (0x10780, 0x10780); (0x10783, 0x10785); (0x10787, 0x107B0);
   (0x107B2, 0x107BA); (0x10C80, 0x10CB2); (0x10CC0, 0x10CF2);
   (0x118A0, 0x118DF); (0x16E40, 0x16E7F); (0x1D400, 0x1D454);
   (0x1D456, 0x1D49C); (0x1D49E, 0x1D49F); (0x1D4A2, 0x1D4A2);
   (0x1D4A5, 0x1D4A6); (0x1D4A9, 0x1D4AC); (0x1D4AE, 0x1D4B9);
   (0x1D4BB, 0x1D4BB); (0x1D4BD, 0x1D4C3); (0x1D4C5, 0x1D505);
   (0x1D507, 0x1D50A); (0x1D50D, 0x1D514); (0x1D516, 0x1D51C);
   (0x1D51E, 0x1D539); (0x1D53B, 0x1D53E); (0x1D540, 0x1D544);
   (0x1D546, 0x1D546); (0x1D54A, 0x1D550); (0x1D552, 0x1D6A5);
   (0x1D6A8, 0x1D6C0); (0x1D6C2, 0x1D6DA); (0x1D6DC, 0x1D6FA);
   (0x1D6FC, 0x1D714); (0x1D716, 0x1D734); (0x1D736, 0x1D74E);
   (0x1D750, 0x1D76E); (0x1D770, 0x1D788); (0x1D78A, 0x1D7A8);
   (0x1D7AA, 0x1D7C2); (0x1D7C4, 0x1D7CB); (0x1DF00, 0x1DF09);
   (0x1DF0B, 0x1DF1E); (0x1E900, 0x1E943); (0x1F130, 0x1F149);
   (0x1F150, 0x1F169); (0x1F170, 0x1F189)]%N.

(** The code points with the property [Case_Ignorable], as intervals. *)
Definition CASE_IGNORABLE : list (N * N) :=
  [(0x27, 0x27); (0x2E, 0x2E); (0x3A, 0x3A); (0x5E, 0x5E); (0x60, 0x60);
   (0xA8, 0xA8); (0xAD, 0xAD); (0xAF, 0xAF); (0xB4, 0xB4); (0xB7, 0xB8);
   (0x2B0, 0x36F); (0x374, 0x375); (0x37A, 0x37A); (0x384, 0x385);
   (0x387, 0x387); (0x483, 0x489); (0x559, 0x559); (0x55F, 0x55F);
   (0x591, 0x5BD); (0x5BF, 0x5BF); (0x5C1, 0x5C2); (0x5C4, 0x5C5);
   (0x5C7, 0x5C7); (0x5F4, 0x5F4); (0x600, 0x605); (0x610, 0x61A);
   (0x61C, 0x61C); (0x640, 0x640); (0x64B, 0x65F); (0x670, 0x670);
   (0x6D6, 0x6DD); (0x6DF, 0x6E8); (0x6EA, 0x6ED); (0x70F, 0x70F);
   (0x711, 0x711); (0x730, 0x74A); (0x7A6, 0x7B0); (0x7EB, 0x7F5);
   (0x7FA, 0x7FA); (0x7FD, 0x7FD); (0x816, 0x82D); (0x859, 0x85B);
   (0x888, 0x888); (0x890, 0x891); (0x898, 0x89F); (0x8C9, 0x902);
   (0x93A, 0x93A); (0x93C, 0x93C); (0x941, 0x948); (0x94D, 0x94D);
   (0x951, 0x957); (0x962, 0x963); (0x971, 0x971); (0x981, 0x981);
   (0x9BC, 0x9BC); (0x9C1, 0x9C4); (0x9CD, 0x9CD); (0x9E2, 0x9E3);
   (0x9FE, 0x9FE); (0xA01, 0xA02); (0xA3C, 0xA3C); (0xA41, 0xA42);
   (0xA47, 0xA48); (0xA4B, 0xA4D); (0xA51, 0xA51); (0xA70, 0xA71);
   (0xA75, 0xA75); (0xA81, 0xA82); (0xABC, 0xABC); (0xAC1, 0xAC5);
   (0xAC7, 0xAC8); (0xACD, 0xACD); (0xAE2, 0xAE3); (0xAFA, 0xAFF);
   (0xB01, 0xB01); (0xB3C, 0xB3C); (0xB3F, 0xB3F); (0xB41, 0xB44);
   (0xB4D, 0xB4D); (0xB55, 0xB56); (0xB62, 0xB63); (0xB82, 0xB82);
   (0xBC0, 0xBC0); (0xBCD, 0xBCD); (0xC00, 0xC00); (0xC04, 0xC04);
   (0xC3C, 0xC3C); (0xC3E, 0xC40); (0xC46, 0xC48); (0xC4A, 0xC4D);
   (0xC55, 0xC56); (0xC62, 0xC63); (0xC81, 0xC81); (0xCBC, 0xCBC);
   (0xCBF, 0xCBF); (0xCC6, 0xCC6); (0xCCC, 0xCCD); (0xCE2, 0xCE3);
   (0xD00, 0xD01); (0xD3B, 0xD3C); (0xD41, 0xD44); (0xD4D, 0xD4D);
   (0xD62, 0xD63); (0xD81, 0xD81); (0xDCA, 0xDCA); (0xDD2, 0xDD4);
   (0xDD6, 0xDD6); (0xE31, 0xE31); (0xE34, 0xE3A); (0xE46, 0xE4E);
   (0xEB1, 0xEB1); (0xEB4, 0xEBC); (0xEC6, 0xEC6); (0xEC8, 0xECD);
   (0xF18, 0xF19); (0xF35, 0xF35); (0xF37, 0xF37); (0xF39, 0xF39);
   (0xF71, 0xF7E); (0xF80, 0xF84); (0xF86, 0xF87); (0xF8D, 0xF97);
   (0xF99, 0xFBC); (0xFC6, 0xFC6); (0x102D, 0x1030); (0x1032, 0x1037);
   (0x1039, 0x103A); (0x103D, 0x103E); (0x1058, 0x1059); (0x105E, 0x1060);
   (0x1071, 0x1074); (0x1082, 0x1082); (0x1085, 0x1086); (0x108D, 0x108D);
   (0x109D, 0x109D); (0x10FC, 0x10FC); (0x135D, 0x135F); (0x1712, 0x1714);
   (0x1732, 0x1733); (0x1752, 0x1753); (0x1772, 0x1773); (0x17B4, 0x17B5);
   (0x17B7, 0x17BD); (0x17C6, 0x17C6); (0x17C9, 0x17D3); (0x17D7, 0x17D7);
   (0x17DD, 0x17DD); (0x180B, 0x180F); (0x1843, 0x1843); (0x1885, 0x1886);
   (0x18A9, 0x18A9); (0x1920, 0x1922); (0x1927, 0x1928); (0x1932, 0x1932);
   (0x1939, 0x193B); (0x1A17, 0x1A18); (0x1A1B, 0x1A1B); (0x1A56, 0x1A56);
   (0x1A58, 0x1A5E); (0x1A60, 0x1A60); (0x1A62, 0x1A62); (0x1A65, 0x1A6C);
   (0x1A73, 0x1A7C); (0x1A7F, 0x1A7F); (0x1AA7, 0x1AA7); (0x1AB0, 0x1ACE);
   (0x1B00, 0x1B03); (0x1B34, 0x1B34); (0x1B36, 0x1B3A); (0x1B3C, 0x1B3C);
   (0x1B42, 0x1B42); (0x1B6B, 0x1B73); (0x1B80, 0x1B81); (0x1BA2, 0x1BA5);
   (0x1BA8, 0x1BA9); (0x1BAB, 0x1BAD); (0x1BE6, 0x1BE6); (0x1BE8, 0x1BE9);
   (0x1BED, 0x1BED); (0x1BEF, 0x1BF1); (0x1C2C, 0x1C33); (0x1C36, 0x1C37);
   (0x1C78, 0x1C7D); (0x1CD0, 0x1CD2); (0x1CD4, 0x1CE0); (0x1CE2, 0x1CE8);
   (0x1CED, 0x1CED); (0x1CF4, 0x1CF4); (0x1CF8, 0x1CF9); (0x1D2C, 0x1D6A);
   (0x1D78, 0x1D78); (0x1D9B, 0x1DFF); (0x1FBD, 0x1FBD); (0x1FBF, 0x1FC1);
   (0x1FCD, 0x1FCF); (0x1FDD, 0x1FDF); (0x1FED, 0x1FEF); (0x1FFD, 0x1FFE);
   (0x200B, 0x200F); (0x2018, 0x2019); (0x2024, 0x2024); (0x2027, 0x2027);
   (0x202A, 0x202E); (0x2060, 0x2064); (0x2066, 0x206F); (0x2071, 0x2071);
   (0x207F, 0x207F); (0x2090, 0x209C); (0x20D0, 0x20F0); (0x2C7C, 0x2C7D);
   (0x2CEF, 0x2CF1); (0x2D6F, 0x2D6F); (0x2D7F, 0x2D7F); (0x2DE0, 0x2DFF);
   (0x2E2F, 0x2E2F); (0x3005, 0x3005); (0x302A, 0x302D); (0x3031, 0x3035);
   (0x303B, 0x303B); (0x3099, 0x309E); (0x30FC, 0x30FE); (0xA015, 0xA015);
   (0xA4F8, 0xA4FD); (0xA60C, 0xA60C); (0xA66F, 0xA672); (0xA674, 0xA67D);
   (0xA67F, 0xA67F); (0xA69C, 0xA69F); (0xA6F0, 0xA6F1); (0xA700, 0xA721);
   (0xA770, 0xA770); (0xA788, 0xA78A); (0xA7F2, 0xA7F4); (0xA7F8, 0xA7F9);
   (0xA802, 0xA802); (0xA806, 0xA806); (0xA80B, 0xA80B); (0xA825, 0xA826);
   (0xA82C, 0xA82C); (0xA8C4, 0xA8C5); (0xA8E0, 0xA8F1); (0xA8FF, 0xA8FF);
   (0xA926, 0xA92D); (0xA947, 0xA951); (0xA980, 0xA982); (0xA9B3, 0xA9B3);
   (0xA9B6, 0xA9B9); (0xA9BC, 0xA9BD); (0xA9CF, 0xA9CF); (0xA9E5, 0xA9E6);
   (0xAA29, 0xAA2E); (0xAA31, 0xAA32); (0xAA35, 0xAA36); (0xAA43, 0xAA43);
   (0xAA4C, 0xAA4C); (0xAA70, 0xAA70); (0xAA7C, 0xAA7C); (0xAAB0, 0xAAB0);
   (0xAAB2, 0xAAB4); (0xAAB7, 0xAAB8); (0xAABE, 0xAABF); (0xAAC1, 0xAAC1);
   (0xAADD, 0xAADD); (0xAAEC, 0xAAED); (0xAAF3, 0xAAF4); (0xAAF6, 0xAAF6);
   (0xAB5B, 0xAB5F); (0xAB69, 0xAB6B); (0xABE5, 0xABE5); (0xABE8, 0xABE8);
   (0xABED, 0xABED); (0xFB1E, 0xFB1E); (0xFBB2, 0xFBC2); (0xFE00, 0xFE0F);
   (0xFE13, 0xFE13); (0xFE20, 0xFE2F); (0xFE52, 0xFE52); (0xFE55, 0xFE55);
   (0xFEFF, 0xFEFF); (0xFF07, 0xFF07); (0xFF0E, 0xFF0E); (0xFF1A, 0xFF1A);
   (0xFF3E, 0xFF3E); (0xFF40, 0xFF40); (0xFF70, 0xFF70); (0xFF9E, 0xFF9F);
   (0xFFE3, 0xFFE3); (0xFFF9, 0xFFFB); (0x101FD, 0x101FD); (0x102E0, 0x102E0);
   (0x10376, 0x1037A); (0x10780, 0x10785); (0x10787, 0x107B0);
   (0x107B2, 0x107BA); (0x10A01, 0x10A03); (0x10A05, 0x10A06);
   (0x10A0C, 0x10A0F); (0x10A38, 0x10A3A); (0x10A3F, 0x10A3F);
   (0x10AE5, 0x10AE6); (0x10D24, 0x10D27); (0x10EAB, 0x10EAC);
   (0x10F46, 0x10F50); (0x10F82, 0x10F85); (0x11001, 0x11001);
   (0x11038, 0x11046); (0x11070, 0x11070); (0x11073, 0x11074);
   (0x1107F, 0x11081); (0x110B3, 0x110B6); (0x110B9, 0x110BA);
   (0x110BD, 0x110BD); (0x110C2, 0x110C2); (0x110CD, 0x110CD);
   (0x11100, 0x11102); (0x11127, 0x1112B); (0x1112D, 0x11134);
   (0x11173, 0x11173); (0x11180, 0x11181); (0x111B6, 0x111BE);
   (0x111C9, 0x111CC); (0x111CF, 0x111CF); (0x1122F, 0x11231);
   (0x11234, 0x11234); (0x11236, 0x11237); (0x1123E, 0x1123E);
   (0x112DF, 0x112DF); (0x112E3, 0x112EA); (0x11300, 0x11301);
   (0x1133B, 0x1133C); (0x11340, 0x11340); (0x11366, 0x1136C);
   (0x11370, 0x11374); (0x11438, 0x1143F); (0x11442, 0x11444);
   (0x11446, 0x11446); (0x1145E, 0x1145E); (0x114B3, 0x114B8);
   (0x114BA, 0x114BA); (0x114BF, 0x114C0); (0x114C2, 0x114C3);
   (0x115B2, 0x115B5); (0x115BC, 0x115BD); (0x115BF, 0x115C0);
   (0x115DC, 0x115DD); (0x11633, 0x1163A); (0x1163D, 0x1163D);
   (0x1163F, 0x11640); (0x116AB, 0x116AB); (0x116AD, 0x116AD);
   (0x116B0, 0x116B5); (0x116B7, 0x116B7); (0x1171D, 0x1171F);
   (0x11722, 0x11725); (0x11727, 0x1172B); (0x1182F, 0x11837);
   (0x11839, 0x1183A); (0x1193B, 0x1193C); (0x1193E, 0x1193E);
   (0x11943, 0x11943); (0x119D4, 0x119D7); (0x119DA, 0x119DB);
   (0x119E0, 0x119E0); (0x11A01, 0x11A0A); (0x11A33, 0x11A38);
   (0x11A3B, 0x11A3E); (0x11A47, 0x11A47); (0x11A51, 0x11A56);
   (0x11A59, 0x11A5B); (0x11A8A, 0x11A96); (0x11A98, 0x11A99);
   (0x11C30, 0x11C36); (0x11C38, 0x11C3D); (0x11C3F, 0x11C3F);
   (0x11C92, 0x11CA7); (0x11CAA, 0x11CB0); (0x11CB2, 0x11CB3);
   (0x11CB5, 0x11CB6); (0x11D31, 0x11D36); (0x11D3A, 0x11D3A);
   (0x11D3C, 0x11D3D); (0x11D3F, 0x11D45); (0x11D47, 0x11D47);
   (0x11D90, 0x11D91); (0x11D95, 0x11D95); (0x11D97, 0x11D97);
   (0x11EF3, 0x11EF4); (0x13430, 0x13438); (0x16AF0, 0x16AF4);
   (0x16B30, 0x16B36); (0x16B40, 0x16B43); (0x16F4F, 0x16F4F);
   (0x16F8F, 0x16F9F); (0x16FE0, 0x16FE1); (0x16FE3, 0x16FE4);
   (0x1AFF0, 0x1AFF3); (0x1AFF5, 0x1AFFB); (0x1AFFD, 0x1AFFE);
   (0x1BC9D, 0x1BC9E); (0x1BCA0, 0x1BCA3); (0x1CF00, 0x1CF2D);
   (0x1CF30, 0x1CF46); (0x1D167, 0x1D169); (0x1D173, 0x1D182);
   (0x1D185, 0x1D18B); (0x1D1AA, 0x1D1AD); (0x1D242, 0x1D244);
   (0x1DA00, 0x1DA36); (0x1DA3B, 0x1DA6C); (0x1DA75, 0x1DA75);
   (0x1DA84, 0x1DA84); (0x1DA9B, 0x1DA9F); (0x1DAA1, 0x1DAAF);
   (0x1E000, 0x1E006); (0x1E008, 0x1E018); (0x1E01B, 0x1E021);
   (0x1E023, 0x1E024); (0x1E026, 0x1E02A); (0x1E130, 0x1E13D);
   (0x1E2AE, 0x1E2AE); (0x1E2EC, 0x1E2EF); (0x1E8D0, 0x1E8D6);
   (0x1E944, 0x1E94B); (0x1F3FB, 0x1F3FF); (0xE0001, 0xE0001);
   (0xE0020, 0xE007F); (0xE0100, 0xE01EF)]%N.

Definition in_intervals (t : list (N * N)) (c : N) : bool :=
  existsb (fun r => between (fst r) (snd r) c) t.

Definition cased (c : N) : bool := in_intervals CASED c.

Definition case_ignorable (c : N) : bool := in_intervals CASE_IGNORABLE c.

Fixpoint lower_in (t : list (N * N * N * N)) (c : N) : N :=
  match t with
  | [] => c
  | (first, last, step, image) :: t' =>
      if between first last c && ((c - first) mod step =? 0)%N
      then (image + (c - first))%N
      else lower_in t' c
  end.

(** The first code point of a list that is not case-ignorable. *)
Fixpoint skip_ignorable (l : list N) : option N :=
  match l with
  | [] => None
  | c :: t => if case_ignorable c then skip_ignorable t else Some c
  end.

Definition cased_next (l : list N) : bool :=
  match skip_ignorable l with
  | Some c => cased c
  | None => false
  end.

(** The context [Final_Sigma] of SpecialCasing.txt: a cased letter comes
    before, with only case-ignorable code points in between, and none comes
    after in the same way.  [before] is the text before the code point,
    nearest first. *)
Definition final_sigma (before after : list N) : bool :=
  cased_next before && negb (cased_next after).

(** The lower case of one code point in its context: the two entries of
    SpecialCasing.txt that do not depend on a language (U+0130 and the
    capital sigma), and the simple mapping otherwise. *)
Definition lower_point (before : list N) (c : N) (after : list N) : list N :=
  (if c =? 0x130 then [0x69; 0x307]
   else if c =? 0x3A3
        then [if final_sigma before after then 0x3C2 else 0x3C3]
        else [lower_in LOWER c])%N.

Fixpoint lower_points (before pts : list N) : list N :=
  match pts with
  | [] => []
  | c :: after =>
      lower_point before c after ++ lower_points (c :: before) after
  end.

(** [String.prototype.toLowerCase]: the string is read as code points, each
    is lowered by the Unicode default case conversion, and the result is
    written back as code units. *)
Definition toLowerCase (s : jsstring) : jsstring :=
  flat_map codeUnits (lower_points [] (codePoints s)).

(** White space and line terminators, the code units [trim] strips. *)
Definition is_white (c : N) : bool :=
  between 9 13 c || (c =? 32)%N || (c =? 160)%N || (c =? 5760)%N
  || between 8192 8202 c || (c =? 8232)%N || (c =? 8233)%N
  || (c =? 8239)%N || (c =? 8287)%N || (c =? 12288)%N || (c =? 65279)%N.

Fixpoint trimStart (s : jsstring) : jsstring :=
  match s with
  | c :: t => if is_white c then trimStart t else s
  | [] => []
  end.

Definition trimEnd (s : jsstring) : jsstring := rev (trimStart (rev s)).

Definition trim (s : jsstring) : jsstring := trimEnd (trimStart s).

Fixpoint startsWith (needle hay : jsstring) : bool :=
  match needle, hay with
  | [], _ => true
  | _ :: _, [] => false
  | a :: n', b :: h' => (a =? b)%N && startsWith n' h'
  end.

(** [String.prototype.includes]: the needle occurs at some position. *)
Fixpoint includes (hay needle : jsstring) : bool :=
  startsWith needle hay ||
  match hay with
  | [] => false
  | _ :: t => includes t needle
  end.

(** Truthiness of a string: only the empty string is falsy. *)
Definition truthy (s : jsstring) : bool :=
  match s with [] => false | _ :: _ => true end.

End JsString.
Import JsString.

(* ================================================================= *)
(** ** JavaScript values *)

(** The values that reach the script from outside: what [response.json()]
    can resolve to, and [undefined], which property access adds.  Numbers keep
    an integer payload; the script only ever tests them for truthiness. *)
Inductive JsValue : Type :=
| JUndefined
| JNull
| JBool (b : bool)
| JNumber (z : Z)
| JString (s : jsstring)
| JArray (items : list JsValue)
| JObject (fields : list (jsstring * JsValue)).

(** Exceptions carry the message an [Error] object would hold. *)
Record Exn : Type := Error { message : jsstring }.

Module Js.

Definition truthy (v : JsValue) : bool :=
  match v with
  | JUndefined | JNull => false
  | JBool b => b
  | JNumber z => negb (z =? 0)%Z
  | JString s => JsString.truthy s
  | JArray _ | JObject _ => true
  end.

Definition is_string (v : JsValue) : bool :=
  match v with JString _ => true | _ => false end.

Fixpoint lookup (k : jsstring) (fields : list (jsstring * JsValue)) : JsValue :=
  match fields with
  | [] => JUndefined
  | (k', v) :: rest => if JsString.eqb k k' then v else lookup k rest
  end.

Definition decimal (z : Z) : jsstring :=
  str (NilZero.string_of_int (Z.to_int z)).

Fixpoint join (sep : jsstring) (parts : list jsstring) : jsstring :=
  match parts with
  | [] => []
  | [p] => p
  | p :: rest => p ++ sep ++ join sep rest
  end.

(** [String(v)], as the [Error] constructor and template literals apply it. *)
Fixpoint toString (v : JsValue) : jsstring :=
  match v with
  | JUndefined => str "undefined"
  | JNull => str "null"
  | JBool true => str "true"
  | JBool false => str "false"
  | JNumber z => decimal z
  | JString s => s
  | JArray items =>
      join (str ",")
        (map (fun x => match x with
                       | JUndefined | JNull => []
                       | _ => toString x
                       end) items)
  | JObject _ => str "[object Object]"
  end.

(** Property keys the script uses: names and the array index of [x[0]]. *)
Inductive Key : Type := Name (k : jsstring) | Index (i : nat).

Definition key_string (k : Key) : jsstring :=
  match k with
  | Name s => s
  | Index i => decimal (Z.of_nat i)
  end.

(** [v[k]] / [v.k].  Reading a property of [undefined] or [null] raises a
    [TypeError]; a missing property reads as [undefined].  Of the built-in
    properties of arrays and strings only the indices are modelled: the
    script reads no other ([length] and the like never occur as keys). *)
Definition get (v : JsValue) (k : Key) : Exn + JsValue :=
  match v with
  | JUndefined =>
      inl (Error (str "Cannot read properties of undefined"))
  | JNull =>
      inl (Error (str "Cannot read properties of null"))
  | JObject fields => inr (lookup (key_string k) fields)
  | JArray items =>
      match k with
      | Index i => inr (nth i items JUndefined)
      | Name _ => inr JUndefined
      end
  | JString s =>
      match k with
      | Index i =>
          inr (match nth_error s i with
               | Some c => JString [c]
               | None => JUndefined
               end)
      | Name _ => inr JUndefined
      end
  | JBool _ | JNumber _ => inr JUndefined
  end.

End Js.

(* ================================================================= *)
(** ** The canned responder *)

Definition nl : jsstring := [10%N].
Definition em_dash : jsstring := [8212%N].
Definition bullet : jsstring := [8226%N].

Definition questions_tail : jsstring :=
  nl ++ bullet ++ str " Which meals should I plan? (breakfast, lunch, dinner, snacks)"
  ++ nl ++ bullet ++ str " How many days should the meal prep cover?".

(** The template for a meal request that mentions a child. *)
Definition TEMPLATE_CHILD : jsstring :=
  str "Got it " ++ em_dash
  ++ str " you're planning meals for your family including a child."
  ++ nl ++ nl ++ str "I just need a bit more information:"
  ++ nl ++ bullet ++ str " How many adults are in your household?"
  ++ questions_tail.

(** The template for any other meal request. *)
Definition TEMPLATE_MEAL : jsstring :=
  str "Got it " ++ em_dash
  ++ str " I'm here to help with your meal prep planning."
  ++ nl ++ nl ++ str "I just need a bit more information:"
  ++ nl ++ bullet
  ++ str " How many people are you cooking for? How many adults and how many children?"
  ++ questions_tail.

(** The template for everything else. *)
Definition TEMPLATE_DEFAULT : jsstring :=
  str "I understand. Let me help you create a meal prep plan. Could you tell me more about your household and meal preferences?".

(** [getMockAIResponse(userMessage)] *)
Definition getMockAIResponse (userMessage : jsstring) : jsstring :=
  let lowerMessage := toLowerCase userMessage in
  if includes lowerMessage (str "meal") || includes lowerMessage (str "prep")
     || includes lowerMessage (str "plan")
  then
    if includes lowerMessage (str "kid") || includes lowerMessage (str "child")
    then TEMPLATE_CHILD
    else TEMPLATE_MEAL
  else TEMPLATE_DEFAULT.

(* ================================================================= *)
(** ** The globals of the script *)

(** [CONFIG] *)
Record Config : Type := {
  apiKey : jsstring;
  apiEndpoint : jsstring;
  model : jsstring;
  useMockAI : bool
}.

Inductive Role : Type := system | user | assistant.

(** An entry of [state.conversationHistory] or of a request's [messages].
    The content is a value, not a string: the script stores whatever
    [data.choices[0].message.content] evaluates to. *)
Record Turn : Type := { role : Role; content : JsValue }.

(** The recognition object [initSpeechRecognition] creates and configures. *)
Record Recognition : Type := {
  continuous : bool;
  interimResults : bool;
  lang : jsstring
}.

(** [state] *)
Record State : Type := {
  isListening : bool;
  recognition : option Recognition;
  conversationHistory : list Turn;
  isLoading : bool
}.

(** What a message [div] shows: the value assigned to [textContent], or the
    markup assigned to [innerHTML]. *)
Inductive Rendered : Type :=
| TextContent (v : JsValue)
| InnerHTML (html : jsstring).

(** A child of [#conversation]: class [message user] or [message assistant]. *)
Record MessageDiv : Type := { isUser : bool; body : Rendered }.

(** The parts of the page the script reads or writes. *)
Record Dom : Type := {
  textInput_value : jsstring;
  status_textContent : jsstring;
  status_active : bool;
  conversation_children : list MessageDiv;
  welcome_hidden : bool;
  mic_listening : bool;
  mic_hidden : bool
}.

(** [window.marked], a third-party renderer the page may or may not load:
    absent, an object with a [parse] function, or (older versions) a function.
    The renderer is not part of the script; it is a function of the
    environment that returns markup or raises. *)
Inductive Marked : Type :=
| NoMarked
| MarkedObject (parse : JsValue -> Exn + jsstring)
| MarkedFunction (render : JsValue -> Exn + jsstring).

(** The arguments of one [fetch] call.  The body's [temperature] (0.7) and
    [max_tokens] are constants of the script. *)
Record Request : Type := {
  url : jsstring;
  authorization : jsstring;
  body_model : jsstring;
  messages : list Turn;
  max_tokens : Z
}.

Record World : Type := {
  CONFIG : Config;
  state : State;
  dom : Dom;
  marked : Marked;
  (** requests issued so far, oldest first *)
  fetched : list Request;
  (** status timeouts scheduled by [setTimeout] and not yet fired *)
  timers : nat;
  (** [localStorage]'s entry [openai_api_key] *)
  stored_key : option jsstring
}.

Definition with_state (f : State -> State) (w : World) : World :=
  {| CONFIG := CONFIG w; state := f (state w); dom := dom w; marked := marked w;
     fetched := fetched w; timers := timers w; stored_key := stored_key w |}.

Definition with_dom (f : Dom -> Dom) (w : World) : World :=
  {| CONFIG := CONFIG w; state := state w; dom := f (dom w); marked := marked w;
     fetched := fetched w; timers := timers w; stored_key := stored_key w |}.

Definition with_config (f : Config -> Config) (w : World) : World :=
  {| CONFIG := f (CONFIG w); state := state w; dom := dom w; marked := marked w;
     fetched := fetched w; timers := timers w; stored_key := stored_key w |}.

Definition with_timers (f : nat -> nat) (w : World) : World :=
  {| CONFIG := CONFIG w; state := state w; dom := dom w; marked := marked w;
     fetched := fetched w; timers := f (timers w); stored_key := stored_key w |}.

Definition with_fetched (f : list Request -> list Request) (w : World) : World :=
  {| CONFIG := CONFIG w; state := state w; dom := dom w; marked := marked w;
     fetched := f (fetched w); timers := timers w; stored_key := stored_key w |}.

Definition with_stored_key (k : option jsstring) (w : World) : World :=
  {| CONFIG := CONFIG w; state := state w; dom := dom w; marked := marked w;
     fetched := fetched w; timers := timers w; stored_key := k |}.

Definition set_isListening (b : bool) (s : State) : State :=
  {| isListening := b; recognition := recognition s;
     conversationHistory := conversationHistory s; isLoading := isLoading s |}.

Definition set_recognition (r : option Recognition) (s : State) : State :=
  {| isListening := isListening s; recognition := r;
     conversationHistory := conversationHistory s; isLoading := isLoading s |}.

Definition set_isLoading (b : bool) (s : State) : State :=
  {| isListening := isListening s; recognition := recognition s;
     conversationHistory := conversationHistory s; isLoading := b |}.

(** [state.conversationHistory.push(t)] *)
Definition push_history (t : Turn) (s : State) : State :=
  {| isListening := isListening s; recognition := recognition s;
     conversationHistory := conversationHistory s ++ [t];
     isLoading := isLoading s |}.

Definition set_textInput (v : jsstring) (d : Dom) : Dom :=
  {| textInput_value := v; status_textContent := status_textContent d;
     status_active := status_active d;
     conversation_children := conversation_children d;
     welcome_hidden := welcome_hidden d; mic_listening := mic_listening d;
     mic_hidden := mic_hidden d |}.

Definition set_status (text : jsstring) (active : bool) (d : Dom) : Dom :=
  {| textInput_value := textInput_value d; status_textContent := text;
     status_active := active;
     conversation_children := conversation_children d;
     welcome_hidden := welcome_hidden d; mic_listening := mic_listening d;
     mic_hidden := mic_hidden d |}.

Definition set_welcome_hidden (d : Dom) : Dom :=
  {| textInput_value := textInput_value d;
     status_textContent := status_textContent d;
     status_active := status_active d;
     conversation_children := conversation_children d;
     welcome_hidden := true; mic_listening := mic_listening d;
     mic_hidden := mic_hidden d |}.

(** [conversation.appendChild(div)] *)
Definition append_child (m : MessageDiv) (d : Dom) : Dom :=
  {| textInput_value := textInput_value d;
     status_textContent := status_textContent d;
     status_active := status_active d;
     conversation_children := conversation_children d ++ [m];
     welcome_hidden := welcome_hidden d; mic_listening := mic_listening d;
     mic_hidden := mic_hidden d |}.

Definition set_mic_listening (b : bool) (d : Dom) : Dom :=
  {| textInput_value := textInput_value d;
     status_textContent := status_textContent d;
     status_active := status_active d;
     conversation_children := conversation_children d;
     welcome_hidden := welcome_hidden d; mic_listening := b;
     mic_hidden := mic_hidden d |}.

Definition set_mic_hidden (d : Dom) : Dom :=
  {| textInput_value := textInput_value d;
     status_textContent := status_textContent d;
     status_active := status_active d;
     conversation_children := conversation_children d;
     welcome_hidden := welcome_hidden d; mic_listening := mic_listening d;
     mic_hidden := true |}.

(* ================================================================= *)
(** ** Effects: state and exceptions *)

(** The outcome of running a piece of the script: it completes normally with
    a value, or an exception leaves it; either way the world may have
    changed. *)
Inductive Res (A : Type) : Type :=
| Normal (a : A) (w : World)
| Throws (e : Exn) (w : World).

Arguments Throws {A} e w.

Definition M (A : Type) : Type := World -> Res A.

Definition ret {A} (a : A) : M A := fun w => Normal a w.

Definition throw {A} (e : Exn) : M A := fun w => Throws e w.

Definition bind {A B} (m : M A) (k : A -> M B) : M B :=
  fun w => match m w with
           | Normal a w' => k a w'
           | Throws e w' => Throws e w'
           end.

(** A statement that cannot raise. *)
Definition exec (f : World -> World) : M unit := fun w => Normal tt (f w).

(** [try { body } catch (e) { handler(e) }] *)
Definition try_catch {A} (body : M A) (handler : Exn -> M A) : M A :=
  fun w => match body w with
           | Normal a w' => Normal a w'
           | Throws e w' => handler e w'
           end.

(** [try { body } finally { cleanup }], for a [cleanup] that cannot raise:
    the cleanup runs on every exit and the body's completion stands. *)
Definition finally {A} (body : M A) (cleanup : World -> World) : M A :=
  fun w => match body w with
           | Normal a w' => Normal a (cleanup w')
           | Throws e w' => Throws e (cleanup w')
           end.

Declare Scope js_scope.
Delimit Scope js_scope with js.
Notation "x <- m ;; k" := (bind m (fun x => k))
  (at level 61, m at next level, right associativity) : js_scope.
Notation "m ;; k" := (bind m (fun _ => k))
  (at level 61, right associativity) : js_scope.
Open Scope js_scope.

Definition world_of {A} (r : Res A) : World :=
  match r with Normal _ w => w | Throws _ w => w end.

Definition raised {A} (r : Res A) : bool :=
  match r with Normal _ _ => false | Throws _ _ => true end.

(* ================================================================= *)
(** ** Status line and message list *)

(** The callback [updateStatus] hands to [setTimeout]. *)
Definition status_timeout (w : World) : World :=
  if negb (isListening (state w)) && negb (isLoading (state w))
  then with_dom (set_status [] false) w
  else w.

(** [updateStatus(message)] *)
Definition updateStatus (msg : jsstring) (w : World) : World :=
  if JsString.truthy msg then
    let w1 := with_dom (set_status msg true) w in
    if negb (isListening (state w1)) && negb (isLoading (state w1))
    then with_timers S w1
    else w1
  else with_dom (set_status msg false) w.

(** The markup of an assistant message: [marked.parse(text)], [marked(text)],
    or the plain text when no renderer is loaded. *)
Definition render_assistant (mk : Marked) (text : JsValue) : Exn + Rendered :=
  match mk with
  | MarkedObject parse =>
      match parse text with inl e => inl e | inr html => inr (InnerHTML html) end
  | MarkedFunction render =>
      match render text with inl e => inl e | inr html => inr (InnerHTML html) end
  | NoMarked => inr (TextContent text)
  end.

(** [addMessage(text, isUser)].  Scrolling is layout and is not modelled. *)
Definition addMessage (text : JsValue) (is_user : bool) : M unit :=
  exec (with_dom set_welcome_hidden) ;;
  rendered <- (fun w =>
      if is_user then Normal (TextContent text) w
      else match render_assistant (marked w) text with
           | inl e => Throws e w
           | inr r => Normal r w
           end) ;;
  exec (with_dom (append_child {| isUser := is_user; body := rendered |})).

(* ================================================================= *)
(** ** Speech capture *)

(** A method of the recognition object, [start()] or [stop()]: the
    environment decides whether the call raises. *)
Definition recognition_call (raises : option Exn) : M unit :=
  match raises with
  | Some e => throw e
  | None => ret tt
  end.

(** [stopListening()]; [stop_raises] is the environment's answer to
    [state.recognition.stop()]. *)
Definition stopListening (stop_raises : option Exn) : M unit :=
  fun w =>
    match recognition (state w) with
    | Some _ =>
        if isListening (state w) then
          (try_catch (recognition_call stop_raises) (fun _ => ret tt) ;;
           exec (with_state (set_isListening false)) ;;
           exec (with_dom (set_mic_listening false))) w
        else ret tt w
    | None => ret tt w
    end.

(** [startListening()]; [start_raises] is the environment's answer to
    [state.recognition.start()].  [console.error] is not modelled. *)
Definition startListening (start_raises : option Exn) : M unit :=
  fun w =>
    match recognition (state w) with
    | None =>
        exec (updateStatus
                (str "Speech recognition not available in this browser.")) w
    | Some _ =>
        try_catch
          (recognition_call start_raises ;;
           exec (with_state (set_isListening true)) ;;
           exec (with_dom (set_mic_listening true)) ;;
           exec (updateStatus (str "Listening... Speak now!")))
          (fun _ =>
             exec (updateStatus
                     (str "Could not start listening. Please try again."))) w
    end.

(* ================================================================= *)
(** ** The AI client *)

(** [SYSTEM_PROMPT], line by line; code units outside printable ASCII (the
    quotation mark included) are given by number. *)
Definition SYSTEM_PROMPT : jsstring :=
  (str "You are a conversational meal prep assistant." ++ nl
  ++ nl
  ++ str "You are responsible for:" ++ nl
  ++ str "- Understanding natural language (including plurals, synonyms, and implicit meaning)" ++ nl
  ++ str "- Extracting and remembering user-provided information across turns" ++ nl
  ++ str "- Inferring reasonable defaults when information is missing" ++ nl
  ++ str "- Deciding when enough information is available" ++ nl
  ++ str "- Generating a complete weekly meal plan when ready" ++ nl
  ++ nl
  ++ str "------------------------------------" ++ nl
  ++ str "MEMORY & STATE RULES" ++ nl
  ++ str "------------------------------------" ++ nl
  ++ nl
  ++ str "All user messages are cumulative." ++ nl
  ++ str "If the user provides information, you MUST remember it and NEVER ask for it again." ++ nl
  ++ nl
  ++ str "You must internally track:" ++ nl
  ++ str "- Household composition (adults, children, ages)" ++ nl
  ++ str "- Meals to plan (lunch, dinner, etc.)" ++ nl
  ++ str "- Duration (default to 7 days if " ++ [34] ++ str "this week" ++ [34] ++ str " is mentioned)" ++ nl
  ++ str "- Nutrition goals (default to balanced if unspecified)" ++ nl
  ++ str "- Allergies or intolerances (default to none if unspecified)" ++ nl
  ++ str "- Preferences and dislikes" ++ nl
  ++ nl
  ++ str "------------------------------------" ++ nl
  ++ str "INFERENCE RULES" ++ nl
  ++ str "------------------------------------" ++ nl
  ++ nl
  ++ str "You MUST correctly interpret:" ++ nl
  ++ str "- Singular and plural forms (e.g. lunch/lunches, dinner/dinners)" ++ nl
  ++ str "- " ++ [34] ++ str "a kid" ++ [34] ++ str " or " ++ [34] ++ str "my kid" ++ [34] ++ str " as one child" ++ nl
  ++ str "- " ++ [34] ++ str "this week" ++ [34] ++ str " as 7 days" ++ nl
  ++ str "- Silence about allergies as " ++ [34] ++ str "no allergies" ++ [34] ++ nl
  ++ nl
  ++ str "Do NOT ask questions if a reasonable assumption can be made." ++ nl
  ++ nl
  ++ str "------------------------------------" ++ nl
  ++ str "DECISION RULE: ASK vs GENERATE" ++ nl
  ++ str "------------------------------------" ++ nl
  ++ nl
  ++ str "If you have enough information to create a reasonable meal plan:" ++ nl
  ++ [10060] ++ str " STOP asking questions" ++ nl
  ++ [9989] ++ str " GENERATE a Version 1 weekly meal plan immediately" ++ nl
  ++ nl
  ++ str "A first usable plan is ALWAYS better than waiting for perfect data." ++ nl
  ++ nl
  ++ str "------------------------------------" ++ nl
  ++ str "RESPONSE STRUCTURE" ++ nl
  ++ str "------------------------------------" ++ nl
  ++ nl
  ++ str "When responding:" ++ nl
  ++ nl
  ++ str "1" ++ [65039; 8419] ++ str " Briefly acknowledge what you understood  " ++ nl
  ++ str "2" ++ [65039; 8419] ++ str " If needed, ask ONLY truly missing questions  " ++ nl
  ++ str "3" ++ [65039; 8419] ++ str " If ready, generate a full weekly meal plan (lunch + dinner, Monday" ++ [8211] ++ str "Sunday)  " ++ nl
  ++ str "4" ++ [65039; 8419] ++ str " After the plan, optionally suggest refinements" ++ nl
  ++ nl
  ++ str "------------------------------------" ++ nl
  ++ str "ANTI-FRUSTRATION RULE" ++ nl
  ++ str "------------------------------------" ++ nl
  ++ nl
  ++ str "Assume the user does NOT want to repeat themselves." ++ nl
  ++ str "Never re-ask answered questions." ++ nl
  ++ str "Never ignore earlier information." ++ nl
  ++ nl
  ++ str "------------------------------------" ++ nl
  ++ str "GOAL" ++ nl
  ++ str "------------------------------------" ++ nl
  ++ nl
  ++ str "Help the user get a concrete, family-friendly weekly meal prep plan as efficiently as possible.")%N.

Definition user_turn (text : jsstring) : Turn :=
  {| role := user; content := JString text |}.

Definition assistant_turn (v : JsValue) : Turn :=
  {| role := assistant; content := v |}.

Definition system_turn : Turn :=
  {| role := system; content := JString SYSTEM_PROMPT |}.

(** Where a suspended [callAI] stands: at [await fetch(...)], at the
    [await response.json()] of a non-success response, or at the
    [await response.json()] of a success response. *)
Inductive Phase : Type := AwaitFetch | AwaitErrorBody | AwaitData.

(** A suspended [handleSubmit], waiting inside its [callAI(userMessage)]. *)
Record Task : Type := { phase : Phase; userMessage : jsstring }.

(** How an awaited promise settles: it rejects, [fetch] resolves to a
    response with the given [ok] flag, or [response.json()] resolves to a
    parsed body. *)
Inductive Settlement : Type :=
| Rejected (e : Exn)
| Response (ok : bool)
| Body (v : JsValue).

(** An [async] function run up to its next suspension. *)
Inductive Async (A : Type) : Type :=
| Settled (r : Res A)
| Suspended (t : Task) (w : World).

Arguments Suspended {A} t w.

(** What a stretch of [callAI]'s [try] block ends in. *)
Inductive TryStep : Type :=
| Return (v : JsValue)
| Await (p : Phase).

Definition lift_get (r : Exn + JsValue) : M JsValue :=
  match r with inl e => throw e | inr v => ret v end.

(** First stretch of the [try] block, up to [await fetch(...)]. *)
Definition try_begin (msgs : list Turn) : M TryStep :=
  exec (updateStatus (str "Thinking...")) ;;
  exec (with_state (set_isLoading true)) ;;
  exec (fun w => with_fetched (fun l => l ++ [
      {| url := apiEndpoint (CONFIG w);
         authorization := str "Bearer " ++ apiKey (CONFIG w);
         body_model := model (CONFIG w);
         messages := msgs;
         max_tokens := 2000 |}]) w) ;;
  ret (Await AwaitFetch).

(** [if (!response.ok) { const error = await response.json(); ... }
     const data = await response.json();] *)
Definition try_response (ok : bool) : M TryStep :=
  if negb ok then ret (Await AwaitErrorBody) else ret (Await AwaitData).

(** [error.error?.message || 'API request failed'] *)
Definition error_message (error : JsValue) : Exn + JsValue :=
  match Js.get error (Js.Name (str "error")) with
  | inl e => inl e
  | inr inner =>
      let msg := match inner with
                 | JUndefined | JNull => inr JUndefined
                 | _ => Js.get inner (Js.Name (str "message"))
                 end in
      match msg with
      | inl e => inl e
      | inr m => inr (if Js.truthy m then m
                      else JString (str "API request failed"))
      end
  end.

(** [throw new Error(error.error?.message || 'API request failed')] *)
Definition try_error_body (error : JsValue) : M TryStep :=
  msg <- lift_get (error_message error) ;;
  throw (Error (Js.toString msg)).

(** [data.choices[0].message.content] *)
Definition read_content (data : JsValue) : Exn + JsValue :=
  match Js.get data (Js.Name (str "choices")) with
  | inl e => inl e
  | inr choices =>
      match Js.get choices (Js.Index 0) with
      | inl e => inl e
      | inr first =>
          match Js.get first (Js.Name (str "message")) with
          | inl e => inl e
          | inr msg => Js.get msg (Js.Name (str "content"))
          end
      end
  end.

(** [const aiResponse = data.choices[0].message.content;] and the rest of the
    [try] block. *)
Definition try_data (data : JsValue) : M TryStep :=
  aiResponse <- lift_get (read_content data) ;;
  exec (with_state (push_history (assistant_turn aiResponse))) ;;
  ret (Return aiResponse).

(** The [catch (error)] block of [callAI]; [console.error] is not modelled. *)
Definition callAI_catch (text : jsstring) (error : Exn) : M JsValue :=
  fun w =>
    if negb (useMockAI (CONFIG w)) then
      (exec (updateStatus (str "API error. Using fallback mode.")) ;;
       ret (JString (getMockAIResponse text))) w
    else throw error w.

(** The [finally] block of [callAI]. *)
Definition callAI_finally (w : World) : World :=
  updateStatus [] (with_state (set_isLoading false) w).

(** One stretch of the [try] block inside its [catch] and [finally]: a
    stretch that reaches an [await] suspends the call; one that returns or
    raises leaves the statement through [catch] and [finally]. *)
Definition callAI_try (text : jsstring) (stretch : M TryStep)
  : World -> Async JsValue :=
  fun w =>
    match stretch w with
    | Normal (Await p) w' => Suspended {| phase := p; userMessage := text |} w'
    | Normal (Return v) w' => Settled (finally (ret v) callAI_finally w')
    | Throws e w' => Settled (finally (callAI_catch text e) callAI_finally w')
    end.

(** [callAI(userMessage)], up to its first suspension. *)
Definition callAI (text : jsstring) : World -> Async JsValue :=
  fun w =>
    let w1 := with_state (push_history (user_turn text)) w in
    let msgs := system_turn :: conversationHistory (state w1) in
    if useMockAI (CONFIG w1) || negb (JsString.truthy (apiKey (CONFIG w1)))
    then Settled (Normal (JString (getMockAIResponse text)) w1)
    else callAI_try text (try_begin msgs) w1.

(** A suspended [callAI] resumed by the settlement of the promise it awaits;
    [None] when the settlement is not one that promise can have. *)
Definition callAI_resume (t : Task) (o : Settlement)
  : option (World -> Async JsValue) :=
  match phase t, o with
  | _, Rejected e => Some (callAI_try (userMessage t) (throw e))
  | AwaitFetch, Response ok => Some (callAI_try (userMessage t) (try_response ok))
  | AwaitErrorBody, Body v => Some (callAI_try (userMessage t) (try_error_body v))
  | AwaitData, Body v => Some (callAI_try (userMessage t) (try_data v))
  | _, _ => None
  end.

(* ================================================================= *)
(** ** The submission controller *)

Definition VALIDATION_MESSAGE : jsstring :=
  str "Please enter a message or use the microphone.".

Definition APOLOGY : jsstring :=
  str "I apologize, but I encountered an error. Please try again or check your API configuration.".

(** The [catch (error)] block of [handleSubmit]. *)
Definition handleSubmit_catch (error : Exn) : M unit :=
  exec (updateStatus (str "Error: " ++ message error
                      ++ str ". Please check your API configuration.")) ;;
  addMessage (JString APOLOGY) false.

(** The body of [handleSubmit]'s [try] block from the point where
    [await callAI(userMessage)] has settled with [reply]. *)
Definition handleSubmit_try (reply : Res JsValue) : M unit :=
  aiResponse <- (fun _ => reply) ;;
  addMessage aiResponse false.

(** [handleSubmit] from the settlement of [callAI] to its end. *)
Definition handleSubmit_reply (reply : Res JsValue) : Res unit :=
  try_catch (handleSubmit_try reply) handleSubmit_catch (world_of reply).

(** A run of [handleSubmit] up to its end or to the suspension of its
    [callAI]. *)
Inductive Submission : Type :=
| Finished (r : Res unit)
| Waiting (t : Task) (w : World).

(** [handleSubmit()] *)
Definition handleSubmit (w : World) : Submission :=
  let text := trim (textInput_value (dom w)) in
  if negb (JsString.truthy text) then
    Finished (Normal tt (updateStatus VALIDATION_MESSAGE w))
  else if isLoading (state w) then
    Finished (Normal tt w)
  else
    match (addMessage (JString text) true ;;
           exec (with_dom (set_textInput [])) ;;
           exec (updateStatus [])) w with
    | Throws e w' => Finished (Throws e w')
    | Normal _ w' =>
        match callAI text w' with
        | Settled reply => Finished (handleSubmit_reply reply)
        | Suspended t w'' => Waiting t w''
        end
    end.

(* ================================================================= *)
(** ** Start-up *)

(** What the page finds when it loads: whether the browser has speech
    recognition, the stored credential, what the user answers to the
    credential prompt ([None]: the prompt is cancelled), and the renderer. *)
Record BootEnv : Type := {
  speech_supported : bool;
  local_key : option jsstring;
  prompt_reply : option jsstring;
  renderer : Marked
}.

(** The globals as the top of the script initialises them, on a page whose
    text field, status line and message list are empty. *)
Definition initial (env : BootEnv) : World :=
  {| CONFIG := {| apiKey := match local_key env with
                            | Some k => if JsString.truthy k then k else []
                            | None => []
                            end;
                  apiEndpoint := str "https://api.openai.com/v1/chat/completions";
                  model := str "gpt-4o";
                  useMockAI := false |};
     state := {| isListening := false; recognition := None;
                 conversationHistory := []; isLoading := false |};
     dom := {| textInput_value := []; status_textContent := [];
               status_active := false; conversation_children := [];
               welcome_hidden := false; mic_listening := false;
               mic_hidden := false |};
     marked := renderer env;
     fetched := [];
     timers := 0;
     stored_key := local_key env |}.

(** [initSpeechRecognition()] *)
Definition initSpeechRecognition (env : BootEnv) (w : World) : World :=
  if negb (speech_supported env) then with_dom set_mic_hidden w
  else with_state (set_recognition
         (Some {| continuous := false; interimResults := false;
                  lang := str "en-US" |})) w.

Definition set_apiKey (k : jsstring) (c : Config) : Config :=
  {| apiKey := k; apiEndpoint := apiEndpoint c; model := model c;
     useMockAI := useMockAI c |}.

Definition set_useMockAI (b : bool) (c : Config) : Config :=
  {| apiKey := apiKey c; apiEndpoint := apiEndpoint c; model := model c;
     useMockAI := b |}.

Definition MOCK_NOTICE : jsstring :=
  str "Using mock mode. Set an API key for full functionality.".

(** [checkConfiguration()] *)
Definition checkConfiguration (env : BootEnv) (w : World) : World :=
  if negb (JsString.truthy (apiKey (CONFIG w))) && negb (useMockAI (CONFIG w))
  then
    match prompt_reply env with
    | Some k =>
        if JsString.truthy k && JsString.truthy (trim k) then
          updateStatus (str "API key saved. Ready to use!")
            (with_stored_key (Some (trim k))
               (with_config (set_apiKey (trim k)) w))
        else updateStatus MOCK_NOTICE (with_config (set_useMockAI true) w)
    | None => updateStatus MOCK_NOTICE (with_config (set_useMockAI true) w)
    end
  else if JsString.truthy (apiKey (CONFIG w)) then
    updateStatus (str "Ready! Click the microphone or type your message.") w
  else updateStatus MOCK_NOTICE w.

(** [init()]; attaching the listeners is what makes the events below
    possible. *)
Definition init (env : BootEnv) : World :=
  checkConfiguration env (initSpeechRecognition env (initial env)).

(* ================================================================= *)
(** ** The event loop *)

(** The page between two events: the globals and the suspended
    submissions. *)
Record Sys : Type := { world : World; tasks : list Task }.

Inductive Event : Type :=
| Input (text : jsstring)
    (** the user edits the text field *)
| Send
    (** click on the send button, or Enter without Shift in the text field *)
| MicClick (raises : option Exn)
    (** click on the microphone; [raises] is the answer of the recognition
        object's [start()] or [stop()] *)
| Focus (stop_raises : option Exn)
    (** the text field receives focus *)
| SpeechResult (transcript : jsstring)
| SpeechError (error : jsstring) (stop_raises : option Exn)
| SpeechEnd (stop_raises : option Exn)
| Timeout
    (** a scheduled status timeout fires *)
| Settle (i : nat) (o : Settlement)
    (** the promise the [i]-th suspended submission awaits settles *).

Fixpoint replace_nth {A} (i : nat) (x : A) (l : list A) : list A :=
  match l, i with
  | [], _ => []
  | _ :: t, O => x :: t
  | h :: t, S j => h :: replace_nth j x t
  end.

Fixpoint remove_nth {A} (i : nat) (l : list A) : list A :=
  match l, i with
  | [], _ => []
  | _ :: t, O => t
  | h :: t, S j => h :: remove_nth j t
  end.

(** One event handled to completion (or to the next suspension); [None] when
    the event cannot occur in this state. *)
Definition step (ev : Event) (s : Sys) : option Sys :=
  let w := world s in
  match ev with
  | Input text =>
      Some {| world := with_dom (set_textInput text) w; tasks := tasks s |}
  | Send =>
      match handleSubmit w with
      | Finished r => Some {| world := world_of r; tasks := tasks s |}
      | Waiting t w' => Some {| world := w'; tasks := tasks s ++ [t] |}
      end
  | MicClick raises =>
      Some {| world := if isListening (state w)
                       then world_of (stopListening raises w)
                       else world_of (startListening raises w);
              tasks := tasks s |}
  | Focus stop_raises =>
      Some {| world := if isListening (state w)
                       then world_of (stopListening stop_raises w)
                       else w;
              tasks := tasks s |}
  | SpeechResult transcript =>
      match recognition (state w) with
      | Some _ =>
          Some {| world := updateStatus
                             (str "Speech recognized! Click send or speak again.")
                             (with_dom (set_textInput transcript) w);
                  tasks := tasks s |}
      | None => None
      end
  | SpeechError error stop_raises =>
      match recognition (state w) with
      | Some _ =>
          Some {| world := world_of
                             (stopListening stop_raises
                                (updateStatus (str "Error: " ++ error
                                               ++ str ". Please try again.") w));
                  tasks := tasks s |}
      | None => None
      end
  | SpeechEnd stop_raises =>
      match recognition (state w) with
      | Some _ =>
          Some {| world := world_of (stopListening stop_raises w);
                  tasks := tasks s |}
      | None => None
      end
  | Timeout =>
      match timers w with
      | O => None
      | S n => Some {| world := status_timeout (with_timers (fun _ => n) w);
                       tasks := tasks s |}
      end
  | Settle i o =>
      match nth_error (tasks s) i with
      | None => None
      | Some t =>
          match callAI_resume t o with
          | None => None
          | Some k =>
              match k w with
              | Suspended t' w' =>
                  Some {| world := w'; tasks := replace_nth i t' (tasks s) |}
              | Settled reply =>
                  Some {| world := world_of (handleSubmit_reply reply);
                          tasks := remove_nth i (tasks s) |}
              end
          end
      end
  end.

Fixpoint run (evs : list Event) (s : Sys) : option Sys :=
  match evs with
  | [] => Some s
  | ev :: rest =>
      match step ev s with
      | Some s' => run rest s'
      | None => None
      end
  end.

(** The page right after [init()]. *)
Definition boot (env : BootEnv) : Sys := {| world := init env; tasks := [] |}.

(** The states the page can be in: those some sequence of events leads to
    from some start-up. *)
Definition reachable (s : Sys) : Prop :=
  exists env evs, run evs (boot env) = Some s.

(* ================================================================= *)
(** ** The vocabulary of the statements *)

(** *** Words of a message *)

Definition is_ascii (c : N) : bool := (c <? 128)%N.

(** The lower case of an ASCII capital; every other code unit as it is. *)
Definition ascii_lower (c : N) : N :=
  if between 65 90 c then (c + 32)%N else c.

(** The words [getMockAIResponse] looks for. *)
Definition PLAN_WORDS : list jsstring := [str "meal"; str "prep"; str "plan"].

Definition CHILD_WORDS : list jsstring := [str "kid"; str "child"].

(** The message contains one of the words, written in any mix of upper
    and lower case ASCII letters, anywhere. *)
Definition contains_word (words : list jsstring) (s : jsstring) : Prop :=
  exists a k b w,
    s = a ++ k ++ b /\ In w words /\ map ascii_lower k = w.

(** The lower-case form of the message includes one of the words. *)
Definition mentions (words : list jsstring) (s : jsstring) : bool :=
  existsb (includes (toLowerCase s)) words.

(** The Kelvin sign, whose lower case is the letter k. *)
Definition kelvin : jsstring := [0x212A%N].

(** *** Texts, modes and idleness *)

(** A string is blank when it is empty or made of white space only. *)
Definition blank (s : jsstring) : bool := forallb is_white s.

(** Mock mode: forced, or no credential. *)
Definition mock_mode (w : World) : bool :=
  useMockAI (CONFIG w) || negb (JsString.truthy (apiKey (CONFIG w))).

(** The page is idle: nothing pending, busy flag clear. *)
Definition idle (s : Sys) : Prop :=
  tasks s = [] /\ isLoading (state (world s)) = false.

(** *** What a computation leaves alone *)

(** A relation between the world before and after holds across a
    computation, however it ends. *)
Definition keeps (R : World -> World -> Prop) {A} (m : M A) : Prop :=
  forall w, R w (world_of (m w)).

(** The configuration, the renderer and the speech adapter's two fields:
    what submissions and their replies never write. *)
Definition fixed (w w' : World) : Prop :=
  CONFIG w' = CONFIG w /\ marked w' = marked w
  /\ isListening (state w') = isListening (state w)
  /\ recognition (state w') = recognition (state w).

(** The configuration and the renderer: what nothing writes after start-up. *)
Definition fixed_setup (w w' : World) : Prop :=
  CONFIG w' = CONFIG w /\ marked w' = marked w.

(** The transcript, the flags, the configuration, the renderer and the list
    of issued requests are the same: only the page's view may differ. *)
Definition view_only (w w' : World) : Prop :=
  state w' = state w /\ CONFIG w' = CONFIG w /\ fetched w' = fetched w
  /\ marked w' = marked w.

(** The world an [async] call has reached. *)
Definition async_world {A} (a : Async A) : World :=
  match a with
  | Settled r => world_of r
  | Suspended _ w => w
  end.

(** The world a submission has reached. *)
Definition submission_world (s : Submission) : World :=
  match s with
  | Finished r => world_of r
  | Waiting _ w => w
  end.

(** In every state of the page: the adapter listens only if a recognition
    object exists, and a submission is pending only if mock mode is not
    forced. *)
Definition Inv (s : Sys) : Prop :=
  (isListening (state (world s)) = true -> recognition (state (world s)) <> None)
  /\ (tasks s <> [] -> useMockAI (CONFIG (world s)) = false).

(** At most one submission is pending, and the busy flag is set exactly
    while one is. *)
Definition Exclusive (s : Sys) : Prop :=
  (tasks s = [] /\ isLoading (state (world s)) = false)
  \/ (exists t, tasks s = [t] /\ isLoading (state (world s)) = true).

(** *** Calls and exchanges *)

(** [handleSubmit] from the checks to the call: the user's message is shown,
    the text field cleared, the status line emptied. *)
Definition world_at_call (text : jsstring) (w : World) : World :=
  updateStatus []
    (with_dom (set_textInput [])
       (with_dom (append_child {| isUser := true;
                                  body := TextContent (JString text) |})
          (with_dom set_welcome_hidden w))).

(** The world in which a call that goes to the network is suspended. *)
Definition world_at_fetch (text : jsstring) (w : World) : World :=
  let w1 := with_state (push_history (user_turn text)) w in
  world_of (try_begin (system_turn :: conversationHistory (state w1)) w1).

(** How the one exchange of a call with the endpoint goes: [fetch] rejects,
    or it resolves to a response with a non-success or a success status
    whose body then parses ([inr]) or fails to parse ([inl]). *)
Inductive Exchange : Type :=
| FetchRejects (e : Exn)
| ErrorStatus (body : Exn + JsValue)
| SuccessStatus (body : Exn + JsValue).

Definition body_settlement (b : Exn + JsValue) : Settlement :=
  match b with
  | inl e => Rejected e
  | inr v => Body v
  end.

(** The settlements a suspended call sees during the exchange, in order. *)
Definition settlements (x : Exchange) : list Settlement :=
  match x with
  | FetchRejects e => [Rejected e]
  | ErrorStatus b => [Response false; body_settlement b]
  | SuccessStatus b => [Response true; body_settlement b]
  end.

(** The content the exchange delivers: that of a success response whose body
    parses and lets [data.choices[0].message.content] be read. *)
Definition delivered (x : Exchange) : option JsValue :=
  match x with
  | SuccessStatus (inr data) =>
      match read_content data with
      | inr c => Some c
      | inl _ => None
      end
  | _ => None
  end.

(** The request fails: something in the [try] block raises. *)
Definition request_raises (x : Exchange) : bool :=
  match delivered x with
  | Some _ => false
  | None => true
  end.

(** The same for one settlement seen by a call pending in phase [p]: a
    rejection, the body of a non-success response, or a success body from
    which the content cannot be read. *)
Definition settlement_raises (p : Phase) (o : Settlement) : bool :=
  match o, p with
  | Rejected _, _ => true
  | Body _, AwaitErrorBody => true
  | Body data, AwaitData =>
      match read_content data with
      | inl _ => true
      | inr _ => false
      end
  | _, _ => false
  end.

(** A response body is well formed when its [choices[0].message.content] is a
    string. *)
Definition well_formed_body (data : JsValue) : bool :=
  match read_content data with
  | inr (JString _) => true
  | _ => false
  end.

(** The request fails in the wider sense: network error, non-success status,
    or a body that does not parse or is not well formed. *)
Definition request_failed (x : Exchange) : bool :=
  match x with
  | SuccessStatus (inr data) => negb (well_formed_body data)
  | _ => true
  end.

(** A call run to its end against the settlements of its promises, with no
    other event in between; [None] when the settlements do not fit. *)
Fixpoint drive (a : Async JsValue) (os : list Settlement)
  : option (Res JsValue) :=
  match a, os with
  | Settled r, [] => Some r
  | Settled _, _ :: _ => None
  | Suspended _ _, [] => None
  | Suspended t w, o :: rest =>
      match callAI_resume t o with
      | Some k => drive (k w) rest
      | None => None
      end
  end.

(** What the call returns for a given exchange. *)
Definition reply_value (text : jsstring) (x : Exchange) : JsValue :=
  match delivered x with
  | Some c => c
  | None => JString (getMockAIResponse text)
  end.

(** What the call leaves in [state] besides the user turn. *)
Definition reply_state (x : Exchange) (s : State) : State :=
  set_isLoading false
    match delivered x with
    | Some c => push_history (assistant_turn c) s
    | None => s
    end.

(** A settled call returned normally. *)
Definition returned (a : Async JsValue) : Prop :=
  match a with
  | Settled r => raised r = false
  | Suspended _ _ => True
  end.

(** [handleSubmit]'s [catch] block runs for this reply: the [try] block
    raises, in [await callAI] or in [addMessage]. *)
Definition enters_catch (reply : Res JsValue) : bool :=
  raised (handleSubmit_try reply (world_of reply)).

(** *** Conversations *)

(** One accepted submission, from typing the text to the end of
    [handleSubmit]: in mock mode two events, outside it also the settlements
    of the exchange. *)
Definition submission_events (mock : bool) (sub : jsstring * Exchange)
  : list Event :=
  [Input (fst sub); Send]
  ++ (if mock then [] else map (Settle 0) (settlements (snd sub))).

(** The turns one accepted submission leaves in the transcript. *)
Definition submission_turns (mock : bool) (sub : jsstring * Exchange)
  : list Turn :=
  user_turn (trim (fst sub))
  :: (if mock then []
      else match delivered (snd sub) with
           | Some c => [assistant_turn c]
           | None => []
           end).

(** *** Concrete pages *)

(** No stored credential and the prompt cancelled: forced mock mode. *)
Definition env_mock : BootEnv :=
  {| speech_supported := true; local_key := None; prompt_reply := None;
     renderer := NoMarked |}.

(** A stored credential, no renderer loaded. *)
Definition env_key : BootEnv :=
  {| speech_supported := true; local_key := Some (str "sk-test");
     prompt_reply := None; renderer := NoMarked |}.

(** A renderer that takes strings only and raises on anything else, as
    marked does; for a string it stands in with the text itself. *)
Definition strict_parse (v : JsValue) : Exn + jsstring :=
  match v with
  | JString s => inr s
  | _ => inl (Error (str "marked(): input parameter is undefined or null"))
  end.

(** A stored credential and that renderer loaded. *)
Definition env_strict : BootEnv :=
  {| speech_supported := false; local_key := Some (str "sk-test");
     prompt_reply := None; renderer := MarkedObject strict_parse |}.

(** The body [{"choices": [{"message": {"content": c}}]}]. *)
Definition completion (c : JsValue) : JsValue :=
  JObject [(str "choices",
            JArray [JObject [(str "message",
                              JObject [(str "content", c)])]])].

(** The body [{"choices": [{"message": {}}]}]: the content is missing. *)
Definition completion_without_content : JsValue :=
  JObject [(str "choices", JArray [JObject [(str "message", JObject [])]])].

(** The page of [env_key] after a click on the microphone. *)
Definition listening_page : Sys :=
  match run [MicClick None] (boot env_key) with
  | Some s => s
  | None => boot env_key
  end.

(** The page of [env_key] with a submission waiting for [fetch]. *)
Definition waiting_page : Sys :=
  match run [Input (str "plan my week"); Send] (boot env_key) with
  | Some s => s
  | None => boot env_key
  end.

(** The page of [env_mock] with white space typed into the text field. *)
Definition blank_page : Sys :=
  match run [Input [32; 9; 160]%N] (boot env_mock) with
  | Some s => s
  | None => boot env_mock
  end.

(** The page of [env_key] with a submission waiting for [fetch] and a new
    text typed in the meantime. *)
Definition busy_page : Sys :=
  match run [Input (str "plan my week"); Send; Input (str "and dinners")]
          (boot env_key) with
  | Some s => s
  | None => boot env_key
  end.

(** *** The page as a whole *)

(** The states a given start-up leads to. *)
Definition reaches (env : BootEnv) (s : Sys) : Prop :=
  exists evs, run evs (boot env) = Some s.

(** What [init] installs: the configuration, the renderer, the recognition
    object, whether the microphone button is hidden, the stored credential. *)
Definition installed (w w' : World) : Prop :=
  CONFIG w' = CONFIG w /\ marked w' = marked w
  /\ recognition (state w') = recognition (state w)
  /\ mic_hidden (dom w') = mic_hidden (dom w)
  /\ stored_key w' = stored_key w.

(** The status line carries the class [active] exactly when it has text. *)
Definition status_coherent (w : World) : Prop :=
  status_active (dom w) = JsString.truthy (status_textContent (dom w)).

(** A property of the world that holds after if it held before. *)
Definition preserves (P : World -> Prop) (w w' : World) : Prop := P w -> P w'.

(** The transcript, the message list and the list of issued requests have
    only been appended to. *)
Definition grows (w w' : World) : Prop :=
  (exists turns,
     conversationHistory (state w') = conversationHistory (state w) ++ turns)
  /\ (exists divs,
        conversation_children (dom w')
        = conversation_children (dom w) ++ divs)
  /\ (exists reqs, fetched w' = fetched w ++ reqs).

(** The page apart from its status line is the same. *)
Definition same_page (w w' : World) : Prop :=
  conversation_children (dom w') = conversation_children (dom w)
  /\ welcome_hidden (dom w') = welcome_hidden (dom w)
  /\ textInput_value (dom w') = textInput_value (dom w)
  /\ mic_listening (dom w') = mic_listening (dom w)
  /\ mic_hidden (dom w') = mic_hidden (dom w).

(** The adapter's flag and the button's class [listening] are the same. *)
Definition same_speech (w w' : World) : Prop :=
  isListening (state w') = isListening (state w)
  /\ mic_listening (dom w') = mic_listening (dom w).

(** The [div] of a user message: class [message user], plain text. *)
Definition user_bubble (text : jsstring) : MessageDiv :=
  {| isUser := true; body := TextContent (JString text) |}.

(** A [div] of class [message assistant]; with no renderer loaded it holds
    plain text. *)
Definition assistant_bubble (mk : Marked) (m : MessageDiv) : Prop :=
  isUser m = false /\ (mk = NoMarked -> exists v, body m = TextContent v).

(** The request [callAI(text)] issues in world [w]. *)
Definition request_for (w : World) (text : jsstring) : Request :=
  {| url := apiEndpoint (CONFIG w);
     authorization := str "Bearer " ++ apiKey (CONFIG w);
     body_model := model (CONFIG w);
     messages := system_turn :: conversationHistory (state w)
                 ++ [user_turn text];
     max_tokens := 2000 |}.

(** What one event does to the conversation. *)
Inductive Transition (s s' : Sys) : Prop :=
| T_quiet :
    (** nothing: the transcript, the busy flag, the requests, the message
        list and the pending submissions are untouched; at most the
        adapter's flag and the button's class change, together *)
    tasks s' = tasks s ->
    (state (world s') = state (world s)
     /\ mic_listening (dom (world s')) = mic_listening (dom (world s)))
    \/ (exists b, state (world s') = set_isListening b (state (world s))
                  /\ mic_listening (dom (world s')) = b) ->
    fetched (world s') = fetched (world s) ->
    conversation_children (dom (world s'))
    = conversation_children (dom (world s)) ->
    welcome_hidden (dom (world s')) = welcome_hidden (dom (world s)) ->
    Transition s s'
| T_answered (text : jsstring) (shown : list MessageDiv) :
    (** a submission accepted in mock mode and answered at once *)
    blank (textInput_value (dom (world s))) = false ->
    text = trim (textInput_value (dom (world s))) ->
    isLoading (state (world s)) = false ->
    mock_mode (world s) = true ->
    tasks s' = tasks s ->
    state (world s') = push_history (user_turn text) (state (world s)) ->
    fetched (world s') = fetched (world s) ->
    conversation_children (dom (world s'))
    = conversation_children (dom (world s)) ++ user_bubble text :: shown ->
    Forall (assistant_bubble (marked (world s))) shown ->
    welcome_hidden (dom (world s')) = true ->
    textInput_value (dom (world s')) = [] ->
    mic_listening (dom (world s')) = mic_listening (dom (world s)) ->
    Transition s s'
| T_sent (text : jsstring) :
    (** a submission accepted and sent to the endpoint *)
    blank (textInput_value (dom (world s))) = false ->
    text = trim (textInput_value (dom (world s))) ->
    isLoading (state (world s)) = false ->
    mock_mode (world s) = false ->
    tasks s' = tasks s ++ [{| phase := AwaitFetch; userMessage := text |}] ->
    state (world s')
    = set_isLoading true (push_history (user_turn text) (state (world s))) ->
    fetched (world s') = fetched (world s) ++ [request_for (world s) text] ->
    conversation_children (dom (world s'))
    = conversation_children (dom (world s)) ++ [user_bubble text] ->
    welcome_hidden (dom (world s')) = true ->
    textInput_value (dom (world s')) = [] ->
    mic_listening (dom (world s')) = mic_listening (dom (world s)) ->
    Transition s s'
| T_resumed (i : nat) (t t' : Task) :
    (** [fetch] resolved: the call now waits for the body *)
    nth_error (tasks s) i = Some t ->
    phase t = AwaitFetch -> phase t' <> AwaitFetch ->
    userMessage t' = userMessage t ->
    tasks s' = replace_nth i t' (tasks s) ->
    world s' = world s ->
    Transition s s'
| T_settled (i : nat) (t : Task) (reply : option JsValue)
            (shown : list MessageDiv) :
    (** a pending call settled and its submission finished; [reply] is the
        content the endpoint delivered, if it did *)
    nth_error (tasks s) i = Some t ->
    tasks s' = remove_nth i (tasks s) ->
    state (world s')
    = set_isLoading false
        match reply with
        | Some c => push_history (assistant_turn c) (state (world s))
        | None => state (world s)
        end ->
    fetched (world s') = fetched (world s) ->
    conversation_children (dom (world s'))
    = conversation_children (dom (world s)) ++ shown ->
    Forall (assistant_bubble (marked (world s))) shown ->
    welcome_hidden (dom (world s')) = true ->
    textInput_value (dom (world s')) = textInput_value (dom (world s)) ->
    mic_listening (dom (world s')) = mic_listening (dom (world s)) ->
    Transition s s'.

(** No stored credential; the user types one, with spaces around it, into
    the prompt. *)
Definition env_prompted : BootEnv :=
  {| speech_supported := false; local_key := None;
     prompt_reply := Some (str "  sk-typed ");
     renderer := NoMarked |}.

(** The next load of the page [env_prompted] left: the credential is in the
    store, the prompt would be cancelled. *)
Definition env_reloaded : BootEnv :=
  {| speech_supported := true; local_key := Some (str "sk-typed");
     prompt_reply := None; renderer := NoMarked |}.

(** The events that can start or finish a submission. *)
Definition submits (ev : Event) : bool :=
  match ev with
  | Send | Settle _ _ => true
  | _ => false
  end.

Definition is_user_turn (t : Turn) : bool :=
  match role t with
  | user => true
  | _ => false
  end.

(** A transcript the endpoint can take: user and assistant turns only, and
    every assistant turn right after a user turn ([after_user] says whether
    the turn before the list was a user turn). *)
Fixpoint alternates (after_user : bool) (h : list Turn) : bool :=
  match h with
  | [] => true
  | t :: rest =>
      match role t with
      | user => alternates true rest
      | assistant => after_user && alternates false rest
      | system => false
      end
  end.

(* ================================================================= *)
(** * Properties *)

(** ** Strings *)

Lemma lower_in_ascii (c : N) :
  is_ascii c = true -> lower_in LOWER c = ascii_lower c.
Proof.
  intros A.
  assert (H : forallb (fun c => (lower_in LOWER c =? ascii_lower c)%N)
                      (map N.of_nat (seq 0 128)) = true)
    by (vm_compute; reflexivity).
  rewrite forallb_forall in H. apply N.eqb_eq, H.
  apply N.ltb_lt in A. apply in_map_iff.
  exists (N.to_nat c). split; [apply N2Nat.id|]. apply in_seq. lia.
Qed.

Lemma lower_point_ascii (before after : list N) (c : N) :
  is_ascii c = true -> lower_point before c after = [ascii_lower c].
Proof.
  intros A. unfold lower_point. rewrite (lower_in_ascii _ A).
  apply N.ltb_lt in A.
  destruct (N.eqb_spec c 0x130); [lia|].
  destruct (N.eqb_spec c 0x3A3); [lia|]. reflexivity.
Qed.

Lemma ascii_not_surrogate (c : N) :
  is_ascii c = true -> is_high c = false /\ is_low c = false.
Proof.
  unfold is_ascii, is_high, is_low, between. intros H. apply N.ltb_lt in H.
  split; apply andb_false_iff; left; apply N.leb_gt; lia.
Qed.

Lemma ascii_codeUnits (c : N) : is_ascii c = true -> codeUnits c = [c].
Proof.
  unfold is_ascii, codeUnits. intros H. apply N.ltb_lt in H.
  destruct (N.ltb_spec c 0x10000); [reflexivity | lia].
Qed.

Lemma ascii_lower_ascii (c : N) : is_ascii (ascii_lower c) = true -> is_ascii c = true.
Proof.
  unfold ascii_lower, is_ascii, between.
  destruct (N.leb_spec 65 c), (N.leb_spec c 90); cbn [andb]; intros A;
    apply N.ltb_lt in A; apply N.ltb_lt; lia.
Qed.

Lemma ascii_lower_keeps_ascii (c : N) :
  is_ascii c = true -> is_ascii (ascii_lower c) = true.
Proof.
  unfold ascii_lower, is_ascii, between.
  destruct (N.leb_spec 65 c), (N.leb_spec c 90); cbn [andb]; intros A;
    apply N.ltb_lt in A; apply N.ltb_lt; lia.
Qed.

Lemma codePoints_pair (h l : N) (t : jsstring) :
  codePoints (h :: l :: t)
  = if is_high h && is_low l
    then (0x10000 + (h - 0xD800) * 0x400 + (l - 0xDC00))%N :: codePoints t
    else h :: codePoints (l :: t).
Proof. reflexivity. Qed.

Lemma codePoints_cons (c : N) (s : jsstring) :
  is_high c = false -> codePoints (c :: s) = c :: codePoints s.
Proof.
  intros H. destruct s; [reflexivity|]. now rewrite codePoints_pair, H.
Qed.

Lemma codePoints_ascii (k b : jsstring) :
  forallb is_ascii k = true -> codePoints (k ++ b) = k ++ codePoints b.
Proof.
  induction k as [|c k IH]; [reflexivity|]. cbn [forallb app]. intros H.
  apply andb_true_iff in H. destruct H as (A & H).
  rewrite codePoints_cons by apply (ascii_not_surrogate _ A).
  now rewrite IH.
Qed.

(** A string cut before a code unit that is not a low surrogate is cut
    between two code points. *)
Lemma codePoints_app (a : jsstring) (c : N) (r : jsstring) :
  is_low c = false ->
  codePoints (a ++ c :: r) = codePoints a ++ codePoints (c :: r).
Proof.
  intros L.
  assert (H : forall n a, List.length a <= n ->
                codePoints (a ++ c :: r) = codePoints a ++ codePoints (c :: r)).
  { induction n as [|n IH]; intros [|h [|l t]] Hn; simpl in Hn;
      try reflexivity; try lia.
    - cbn [app]. rewrite codePoints_pair, L, andb_false_r. reflexivity.
    - cbn [app]. rewrite !codePoints_pair.
      destruct (is_high h && is_low l).
      + rewrite IH by lia. reflexivity.
      + change (l :: t ++ c :: r) with ((l :: t) ++ c :: r).
        rewrite IH by (simpl; lia). reflexivity. }
  apply (H (List.length a)). lia.
Qed.

Lemma lower_points_ascii (before k pts : list N) :
  forallb is_ascii k = true ->
  lower_points before (k ++ pts)
  = map ascii_lower k ++ lower_points (rev k ++ before) pts.
Proof.
  revert before. induction k as [|c k IH]; intros before H; [reflexivity|].
  simpl in H. apply andb_true_iff in H. destruct H as (A & H).
  cbn [app lower_points map]. rewrite (lower_point_ascii _ _ _ A), IH by exact H.
  cbn [rev app]. now rewrite <- app_assoc.
Qed.

Lemma lower_points_word (before pa k pb : list N) :
  forallb is_ascii k = true ->
  exists x y,
    lower_points before (pa ++ k ++ pb) = x ++ map ascii_lower k ++ y.
Proof.
  intros H. revert before. induction pa as [|c pa IH]; intros before.
  - exists [], (lower_points (rev k ++ before) pb). cbn [app].
    now apply lower_points_ascii.
  - destruct (IH (c :: before)) as (x & y & E).
    exists (lower_point before c (pa ++ k ++ pb) ++ x), y.
    cbn [app lower_points]. now rewrite E, <- app_assoc.
Qed.

Lemma codeUnits_ascii (k : list N) :
  forallb is_ascii k = true -> flat_map codeUnits k = k.
Proof.
  induction k as [|c k IH]; [reflexivity|]. simpl. intros H.
  apply andb_true_iff in H. destruct H as (A & H).
  now rewrite (ascii_codeUnits _ A), IH.
Qed.

(** A word written in ASCII letters, in any mix of cases, comes out of
    [toLowerCase] in lower case, whatever stands around it. *)
Lemma toLowerCase_word (a k b : jsstring) :
  forallb is_ascii k = true ->
  exists x y, toLowerCase (a ++ k ++ b) = x ++ map ascii_lower k ++ y.
Proof.
  intros H. unfold toLowerCase. destruct k as [|c k].
  - now exists [], (flat_map codeUnits (lower_points [] (codePoints (a ++ b)))).
  - assert (A : is_ascii c = true) by (simpl in H; now apply andb_true_iff in H).
    cbn [app]. rewrite codePoints_app by apply (ascii_not_surrogate _ A).
    change (c :: k ++ b) with ((c :: k) ++ b).
    rewrite codePoints_ascii by exact H.
    destruct (lower_points_word [] (codePoints a) (c :: k) (codePoints b) H)
      as (x & y & ->).
    exists (flat_map codeUnits x), (flat_map codeUnits y).
    rewrite !flat_map_app. f_equal. f_equal. apply codeUnits_ascii.
    clear - H. induction (c :: k) as [|d l IH]; [reflexivity|].
    simpl in *. apply andb_true_iff in H. destruct H as (A & H).
    now rewrite (ascii_lower_keeps_ascii _ A), IH.
Qed.

Lemma startsWith_app (n r : jsstring) : startsWith n (n ++ r) = true.
Proof.
  induction n as [|c n IH]; [reflexivity|]. simpl.
  now rewrite N.eqb_refl, IH.
Qed.

Lemma includes_app (x n y : jsstring) : includes (x ++ n ++ y) n = true.
Proof.
  induction x as [|c x IH].
  - cbn [app]. destruct (n ++ y) eqn:E; simpl; rewrite <- E, startsWith_app;
      reflexivity.
  - cbn [app includes]. rewrite IH. apply orb_true_r.
Qed.

Lemma trimStart_nil (s : jsstring) : trimStart s = [] <-> blank s = true.
Proof.
  induction s as [|c s IH]; simpl; [tauto|].
  destruct (is_white c); simpl; [exact IH|].
  split; discriminate.
Qed.

Lemma trimStart_head (s : jsstring) :
  trimStart s = [] \/ exists c t, trimStart s = c :: t /\ is_white c = false.
Proof.
  induction s as [|c s IH]; simpl; [now left|].
  destruct (is_white c) eqn:E; [exact IH|].
  right. now exists c, s.
Qed.

Lemma blank_rev (s : jsstring) : blank (rev s) = blank s.
Proof.
  unfold blank. induction s as [|c s IH]; [reflexivity|].
  simpl. rewrite forallb_app, IH. simpl. rewrite andb_true_r. apply andb_comm.
Qed.

Lemma trim_nil (s : jsstring) : trim s = [] <-> blank s = true.
Proof.
  unfold trim, trimEnd. split.
  - intros H.
    assert (H1 : trimStart (rev (trimStart s)) = []).
    { destruct (trimStart (rev (trimStart s))); [reflexivity|].
      apply (f_equal (@List.length N)) in H. rewrite length_rev in H. discriminate. }
    apply trimStart_nil in H1. rewrite blank_rev in H1.
    destruct (trimStart_head s) as [E | (c & t & E & W)].
    + now apply trimStart_nil.
    + rewrite E in H1. simpl in H1. rewrite W in H1. discriminate.
  - intros H. apply trimStart_nil in H. rewrite H. reflexivity.
Qed.

Lemma truthy_trim (s : jsstring) : JsString.truthy (trim s) = negb (blank s).
Proof.
  destruct (blank s) eqn:B.
  - apply trim_nil in B. rewrite B. reflexivity.
  - destruct (trim s) eqn:T; [|reflexivity].
    apply trim_nil in T. congruence.
Qed.

(** ** The canned responder *)

Lemma templates_nonempty :
  TEMPLATE_CHILD <> [] /\ TEMPLATE_MEAL <> [] /\ TEMPLATE_DEFAULT <> [].
Proof. repeat split; discriminate. Qed.

Lemma getMockAIResponse_template (s : jsstring) :
  getMockAIResponse s = TEMPLATE_CHILD \/ getMockAIResponse s = TEMPLATE_MEAL
  \/ getMockAIResponse s = TEMPLATE_DEFAULT.
Proof.
  unfold getMockAIResponse.
  destruct (_ || _ || _); [destruct (_ || _)|]; auto.
Qed.

Lemma getMockAIResponse_nonempty (s : jsstring) : getMockAIResponse s <> [].
Proof.
  destruct templates_nonempty as (A & B & C).
  destruct (getMockAIResponse_template s) as [E | [E | E]]; now rewrite E.
Qed.

Lemma templates_distinct :
  TEMPLATE_CHILD <> TEMPLATE_MEAL /\ TEMPLATE_CHILD <> TEMPLATE_DEFAULT
  /\ TEMPLATE_MEAL <> TEMPLATE_DEFAULT.
Proof. repeat split; intros E; vm_compute in E; discriminate. Qed.

Lemma mentions_PLAN_WORDS (s : jsstring) :
  mentions PLAN_WORDS s
  = includes (toLowerCase s) (str "meal")
    || includes (toLowerCase s) (str "prep")
    || includes (toLowerCase s) (str "plan").
Proof.
  unfold mentions, PLAN_WORDS. cbn [existsb].
  now rewrite orb_false_r, orb_assoc.
Qed.

Lemma mentions_CHILD_WORDS (s : jsstring) :
  mentions CHILD_WORDS s
  = includes (toLowerCase s) (str "kid")
    || includes (toLowerCase s) (str "child").
Proof. unfold mentions, CHILD_WORDS. cbn [existsb]. now rewrite orb_false_r. Qed.

Lemma getMockAIResponse_mentions (s : jsstring) :
  getMockAIResponse s
  = if mentions PLAN_WORDS s
    then if mentions CHILD_WORDS s then TEMPLATE_CHILD else TEMPLATE_MEAL
    else TEMPLATE_DEFAULT.
Proof.
  rewrite mentions_PLAN_WORDS, mentions_CHILD_WORDS. reflexivity.
Qed.

(** A word of ASCII letters that stands in the message in any letter case
    is found in its lower-case form. *)
Lemma contains_word_mentions (words : list jsstring) (s : jsstring) :
  forallb (forallb is_ascii) words = true ->
  contains_word words s -> mentions words s = true.
Proof.
  intros W (a & k & b & w & -> & I & K).
  assert (A : forallb is_ascii k = true).
  { rewrite forallb_forall in W. specialize (W w I). subst w.
    clear - W. induction k as [|c k IH]; [reflexivity|].
    simpl in *. apply andb_true_iff in W. destruct W as (A & W).
    now rewrite (ascii_lower_ascii _ A), IH. }
  destruct (toLowerCase_word a k b A) as (x & y & E).
  unfold mentions. apply existsb_exists. exists w. split; [exact I|].
  rewrite E, K. apply includes_app.
Qed.

(** C7.  [getMockAIResponse] is a function of its argument alone (it takes
    and returns no world), and its answer depends on the lower-case form of
    the message only.  The match is a case-insensitive keyword match: a
    message that contains meal, prep or plan in any mix of upper and lower
    case mentions a plan, one that contains kid or child in any case
    mentions a child.  The answer is the child template exactly when the
    message mentions both, the meal template exactly when it mentions a plan
    and no child, the default template exactly when it mentions no plan; so
    it is one of three templates, each selected by the keywords, and never
    the empty string. *)
Theorem getMockAIResponse_keyword_match (s : jsstring) :
  (forall s', toLowerCase s' = toLowerCase s ->
              getMockAIResponse s' = getMockAIResponse s)
  /\ (contains_word PLAN_WORDS s -> mentions PLAN_WORDS s = true)
  /\ (contains_word CHILD_WORDS s -> mentions CHILD_WORDS s = true)
  /\ (getMockAIResponse s = TEMPLATE_CHILD
      <-> mentions PLAN_WORDS s = true /\ mentions CHILD_WORDS s = true)
  /\ (getMockAIResponse s = TEMPLATE_MEAL
      <-> mentions PLAN_WORDS s = true /\ mentions CHILD_WORDS s = false)
  /\ (getMockAIResponse s = TEMPLATE_DEFAULT
      <-> mentions PLAN_WORDS s = false)
  /\ getMockAIResponse s <> [].
Proof.
  destruct templates_distinct as (D1 & D2 & D3).
  split; [intros s' H; unfold getMockAIResponse; now rewrite H|].
  split; [apply contains_word_mentions; reflexivity|].
  split; [apply contains_word_mentions; reflexivity|].
  split; [|split; [|split; [|apply getMockAIResponse_nonempty]]];
    rewrite getMockAIResponse_mentions;
    destruct (mentions PLAN_WORDS s), (mentions CHILD_WORDS s);
    split; try tauto; try congruence; intros E;
    try (destruct E; congruence); symmetry in E; congruence.
Qed.

Lemma getMockAIResponse_keyword_match_witness :
  contains_word PLAN_WORDS (str "Weekly PREP for my Kid")
  /\ contains_word CHILD_WORDS (str "Weekly PREP for my Kid")
  /\ getMockAIResponse (str "Weekly PREP for my Kid") = TEMPLATE_CHILD
  /\ getMockAIResponse (str "weekly prep for my " ++ kelvin ++ str "ID")
     = TEMPLATE_CHILD.
Proof.
  assert (P : contains_word PLAN_WORDS (str "Weekly PREP for my Kid"))
    by (exists (str "Weekly "), (str "PREP"), (str " for my Kid"), (str "prep");
        repeat split; [right; now left]).
  assert (C : contains_word CHILD_WORDS (str "Weekly PREP for my Kid"))
    by (exists (str "Weekly PREP for my "), (str "Kid"), [], (str "kid");
        repeat split; now left).
  destruct (getMockAIResponse_keyword_match (str "Weekly PREP for my Kid"))
    as (L & MP & MC & (_ & B) & _).
  split; [exact P|]. split; [exact C|]. split; [auto|].
  rewrite <- (B (conj (MP P) (MC C))). apply L.
  vm_compute. reflexivity.
Defined.

(** ** What a piece of the script leaves alone *)

Section Frame.

Variable R : World -> World -> Prop.
Hypothesis R_refl : forall w, R w w.
Hypothesis R_trans : forall a b c, R a b -> R b c -> R a c.

Lemma keeps_ret {A} (a : A) : keeps R (ret a).
Proof. intros w. apply R_refl. Qed.

Lemma keeps_throw {A} (e : Exn) : keeps R (@throw A e).
Proof. intros w. apply R_refl. Qed.

Lemma keeps_exec (f : World -> World) :
  (forall w, R w (f w)) -> keeps R (exec f).
Proof. intros H w. apply H. Qed.

Lemma keeps_bind {A B} (m : M A) (k : A -> M B) :
  keeps R m -> (forall a, keeps R (k a)) -> keeps R (bind m k).
Proof.
  intros Hm Hk w. unfold bind. specialize (Hm w).
  destruct (m w) as [a w'|e w']; simpl in *; [|exact Hm].
  eapply R_trans; [exact Hm|apply Hk].
Qed.

Lemma keeps_try_catch {A} (body : M A) (handler : Exn -> M A) :
  keeps R body -> (forall e, keeps R (handler e)) ->
  keeps R (try_catch body handler).
Proof.
  intros Hb Hh w. unfold try_catch. specialize (Hb w).
  destruct (body w) as [a w'|e w']; simpl in *; [exact Hb|].
  eapply R_trans; [exact Hb|apply Hh].
Qed.

Lemma keeps_finally {A} (body : M A) (cleanup : World -> World) :
  keeps R body -> (forall w, R w (cleanup w)) ->
  keeps R (finally body cleanup).
Proof.
  intros Hb Hc w. unfold finally. specialize (Hb w).
  destruct (body w) as [a w'|e w']; simpl in *;
    (eapply R_trans; [exact Hb|apply Hc]).
Qed.

End Frame.

Lemma fixed_refl (w : World) : fixed w w.
Proof. unfold fixed. auto. Qed.

Lemma fixed_trans (a b c : World) : fixed a b -> fixed b c -> fixed a c.
Proof. unfold fixed. intuition congruence. Qed.

Lemma fixed_with_dom (f : Dom -> Dom) (w : World) : fixed w (with_dom f w).
Proof. unfold fixed. auto. Qed.

Lemma fixed_with_timers (f : nat -> nat) (w : World) : fixed w (with_timers f w).
Proof. unfold fixed. auto. Qed.

Lemma fixed_with_fetched (f : list Request -> list Request) (w : World) :
  fixed w (with_fetched f w).
Proof. unfold fixed. auto. Qed.

Lemma fixed_push_history (t : Turn) (w : World) :
  fixed w (with_state (push_history t) w).
Proof. unfold fixed. auto. Qed.

Lemma fixed_set_isLoading (b : bool) (w : World) :
  fixed w (with_state (set_isLoading b) w).
Proof. unfold fixed. auto. Qed.

Lemma fixed_updateStatus (msg : jsstring) (w : World) :
  fixed w (updateStatus msg w).
Proof.
  unfold updateStatus. destruct (JsString.truthy msg); [|apply fixed_with_dom].
  match goal with |- context [if ?c then _ else _] => destruct c end;
    unfold fixed; auto.
Qed.

Lemma fixed_status_timeout (w : World) : fixed w (status_timeout w).
Proof.
  unfold status_timeout.
  destruct (_ && _); [apply fixed_with_dom|apply fixed_refl].
Qed.

Lemma fixed_callAI_finally (w : World) : fixed w (callAI_finally w).
Proof.
  unfold callAI_finally.
  eapply fixed_trans; [apply fixed_set_isLoading|apply fixed_updateStatus].
Qed.

Create HintDb frame discriminated.

#[local] Hint Resolve fixed_refl fixed_with_dom fixed_with_timers
  fixed_with_fetched fixed_push_history fixed_set_isLoading
  fixed_updateStatus fixed_status_timeout fixed_callAI_finally : frame.

(** Takes a goal [keeps R m] apart along the structure of [m], for a
    relation [R] with the given proofs of reflexivity and transitivity. *)
Ltac frame_with R_refl R_trans :=
  repeat lazymatch goal with
    | |- keeps ?R (bind _ _) => apply (@keeps_bind R R_trans); [|intros ?]
    | |- keeps ?R (try_catch _ _) =>
        apply (@keeps_try_catch R R_trans); [|intros ?]
    | |- keeps ?R (finally _ _) => apply (@keeps_finally R R_trans)
    | |- keeps ?R (exec _) => apply keeps_exec; intros ?
    | |- keeps ?R (ret _) => apply (@keeps_ret R R_refl)
    | |- keeps ?R (throw _) => apply (@keeps_throw R R_refl)
    | |- _ => progress auto with frame
    end.

Ltac frame := frame_with fixed_refl fixed_trans.

Lemma keeps_addMessage (text : JsValue) (is_user : bool) :
  keeps fixed (addMessage text is_user).
Proof.
  unfold addMessage. frame.
  intros w. destruct is_user; simpl; [apply fixed_refl|].
  destruct (render_assistant (marked w) text); apply fixed_refl.
Qed.

Lemma keeps_lift_get (r : Exn + JsValue) : keeps fixed (lift_get r).
Proof. destruct r; simpl; frame. Qed.

#[local] Hint Resolve keeps_addMessage keeps_lift_get : frame.

Lemma keeps_try_begin (msgs : list Turn) : keeps fixed (try_begin msgs).
Proof. unfold try_begin. frame. Qed.

Lemma keeps_try_response (ok : bool) : keeps fixed (try_response ok).
Proof. unfold try_response. destruct (negb ok); frame. Qed.

Lemma keeps_try_error_body (error : JsValue) : keeps fixed (try_error_body error).
Proof. unfold try_error_body. frame. Qed.

Lemma keeps_try_data (data : JsValue) : keeps fixed (try_data data).
Proof. unfold try_data. frame. Qed.

Lemma keeps_callAI_catch (text : jsstring) (e : Exn) :
  keeps fixed (callAI_catch text e).
Proof.
  intros w. unfold callAI_catch.
  destruct (negb (useMockAI (CONFIG w))); [|apply fixed_refl].
  revert w. change (keeps fixed
    (exec (updateStatus (str "API error. Using fallback mode.")) ;;
     ret (JString (getMockAIResponse text)))). frame.
Qed.

#[local] Hint Resolve keeps_try_begin keeps_try_response keeps_try_error_body
  keeps_try_data keeps_callAI_catch : frame.

Lemma fixed_callAI_try (text : jsstring) (stretch : M TryStep) (w : World) :
  keeps fixed stretch -> fixed w (async_world (callAI_try text stretch w)).
Proof.
  intros H. unfold callAI_try. specialize (H w).
  destruct (stretch w) as [[v|p] w'|e w']; simpl in *.
  - eapply fixed_trans; [exact H|apply fixed_callAI_finally].
  - exact H.
  - eapply fixed_trans; [exact H|].
    assert (K : keeps fixed (finally (callAI_catch text e) callAI_finally))
      by frame.
    apply K.
Qed.

Lemma fixed_callAI (text : jsstring) (w : World) :
  fixed w (async_world (callAI text w)).
Proof.
  unfold callAI.
  match goal with |- context [if ?c then _ else _] => destruct c end.
  - simpl. apply fixed_push_history.
  - eapply fixed_trans; [apply fixed_push_history|].
    apply fixed_callAI_try. frame.
Qed.

Lemma fixed_callAI_resume (t : Task) (o : Settlement)
      (k : World -> Async JsValue) (w : World) :
  callAI_resume t o = Some k -> fixed w (async_world (k w)).
Proof.
  unfold callAI_resume. intros H.
  destruct (phase t), o; inversion H; subst; apply fixed_callAI_try; frame.
Qed.

Lemma fixed_handleSubmit_reply (reply : Res JsValue) :
  fixed (world_of reply) (world_of (handleSubmit_reply reply)).
Proof.
  unfold handleSubmit_reply, try_catch, handleSubmit_try, bind.
  destruct reply as [v w|e w]; simpl.
  - pose proof (keeps_addMessage v false w) as H.
    destruct (addMessage v false w) as [[] w'|e w']; simpl in *; [exact H|].
    eapply fixed_trans; [exact H|].
    assert (K : keeps fixed (handleSubmit_catch e))
      by (unfold handleSubmit_catch; frame).
    apply K.
  - assert (K : keeps fixed (handleSubmit_catch e))
      by (unfold handleSubmit_catch; frame).
    apply K.
Qed.

Lemma fixed_handleSubmit (w : World) :
  fixed w (submission_world (handleSubmit w)).
Proof.
  unfold handleSubmit.
  destruct (negb _); [apply fixed_updateStatus|].
  destruct (isLoading (state w)); [apply fixed_refl|].
  match goal with |- context [match ?m w with _ => _ end] =>
    assert (K : keeps fixed m) by frame; specialize (K w);
    destruct (m w) as [[] w1|e w1] end; simpl in *; [|exact K].
  pose proof (fixed_callAI (trim (textInput_value (dom w))) w1) as H.
  destruct (callAI _ w1) as [reply|t w2]; simpl in *.
  - eapply fixed_trans; [exact K|].
    eapply fixed_trans; [exact H|apply fixed_handleSubmit_reply].
  - eapply fixed_trans; eassumption.
Qed.

(** ** The status line touches nothing else *)

Lemma updateStatus_frame (msg : jsstring) (w : World) :
  let w' := updateStatus msg w in
  state w' = state w /\ CONFIG w' = CONFIG w /\ fetched w' = fetched w
  /\ marked w' = marked w
  /\ conversation_children (dom w') = conversation_children (dom w)
  /\ textInput_value (dom w') = textInput_value (dom w)
  /\ status_textContent (dom w') = msg
  /\ status_active (dom w') = JsString.truthy msg.
Proof.
  unfold updateStatus. destruct (JsString.truthy msg); simpl.
  - match goal with |- context [if ?c then _ else _] => destruct c end;
      simpl; repeat split; reflexivity.
  - repeat split; reflexivity.
Qed.

Lemma updateStatus_state (msg : jsstring) (w : World) :
  state (updateStatus msg w) = state w.
Proof. apply (updateStatus_frame msg w). Qed.

Lemma updateStatus_fetched (msg : jsstring) (w : World) :
  fetched (updateStatus msg w) = fetched w.
Proof. apply (updateStatus_frame msg w). Qed.

Lemma updateStatus_CONFIG (msg : jsstring) (w : World) :
  CONFIG (updateStatus msg w) = CONFIG w.
Proof. apply (updateStatus_frame msg w). Qed.

Lemma updateStatus_marked (msg : jsstring) (w : World) :
  marked (updateStatus msg w) = marked w.
Proof. apply (updateStatus_frame msg w). Qed.

(** ** Rejected submissions *)

Lemma handleSubmit_blank (w : World) :
  blank (textInput_value (dom w)) = true ->
  handleSubmit w = Finished (Normal tt (updateStatus VALIDATION_MESSAGE w)).
Proof.
  intros B. unfold handleSubmit. rewrite truthy_trim, B. reflexivity.
Qed.

(** C4.  When the text field is empty or holds white space only, a
    submission ends at once: [state] (the transcript and the busy flag with
    it) is what it was, no request is issued, no message is added to the
    page, no submission is left pending and the text field keeps its value;
    what changes is the status line, which shows the validation message. *)
Theorem handleSubmit_blank_rejected (s : Sys) :
  blank (textInput_value (dom (world s))) = true ->
  exists w',
    handleSubmit (world s) = Finished (Normal tt w')
    /\ step Send s = Some {| world := w'; tasks := tasks s |}
    /\ conversationHistory (state w') = conversationHistory (state (world s))
    /\ isLoading (state w') = isLoading (state (world s))
    /\ state w' = state (world s)
    /\ CONFIG w' = CONFIG (world s)
    /\ fetched w' = fetched (world s)
    /\ conversation_children (dom w') = conversation_children (dom (world s))
    /\ textInput_value (dom w') = textInput_value (dom (world s))
    /\ status_textContent (dom w') = VALIDATION_MESSAGE
    /\ status_active (dom w') = true.
Proof.
  intros B. exists (updateStatus VALIDATION_MESSAGE (world s)).
  pose proof (handleSubmit_blank (world s) B) as E.
  destruct (updateStatus_frame VALIDATION_MESSAGE (world s))
    as (Hs & Hc & Hf & _ & Hm & Ht & Hx & Ha).
  split; [exact E|]. split; [simpl; rewrite E; reflexivity|].
  rewrite Hs. repeat split; assumption.
Qed.

(** C3.  While the busy flag is set a submission is dropped whatever the
    text field holds: it ends at once, the list of pending submissions is
    what it was (nothing is queued or merged), [state] is unchanged (so the
    transcript keeps its length and the flag stays set), no request is
    issued, no message is added and the text field is not cleared.  For a
    text that is not blank the whole page is left exactly as it was; a blank
    one only gets the validation message of the check that comes first. *)
Theorem handleSubmit_busy_rejected (s : Sys) :
  isLoading (state (world s)) = true ->
  exists w',
    handleSubmit (world s) = Finished (Normal tt w')
    /\ step Send s = Some {| world := w'; tasks := tasks s |}
    /\ List.length (conversationHistory (state w'))
       = List.length (conversationHistory (state (world s)))
    /\ state w' = state (world s)
    /\ CONFIG w' = CONFIG (world s)
    /\ fetched w' = fetched (world s)
    /\ conversation_children (dom w') = conversation_children (dom (world s))
    /\ textInput_value (dom w') = textInput_value (dom (world s))
    /\ (blank (textInput_value (dom (world s))) = false -> w' = world s).
Proof.
  intros L.
  destruct (blank (textInput_value (dom (world s)))) eqn:B.
  - exists (updateStatus VALIDATION_MESSAGE (world s)).
    pose proof (handleSubmit_blank (world s) B) as E.
    destruct (updateStatus_frame VALIDATION_MESSAGE (world s))
      as (Hs & Hc & Hf & _ & Hm & Ht & _).
    split; [exact E|]. split; [simpl; rewrite E; reflexivity|].
    rewrite Hs. repeat split; auto. discriminate.
  - exists (world s).
    assert (E : handleSubmit (world s) = Finished (Normal tt (world s))).
    { unfold handleSubmit. rewrite truthy_trim, B, L. reflexivity. }
    split; [exact E|]. split; [simpl; rewrite E; reflexivity|].
    repeat split; reflexivity.
Qed.

(** ** The mock path *)

Lemma callAI_mock (text : jsstring) (w : World) :
  mock_mode w = true ->
  callAI text w
  = Settled (Normal (JString (getMockAIResponse text))
               (with_state (push_history (user_turn text)) w)).
Proof. unfold callAI, mock_mode. simpl. intros ->. reflexivity. Qed.

(** C6.  With no credential, [callAI("I want meal prep for my kid")] settles
    without suspending, so without awaiting any [fetch], and the list of
    issued requests is what it was; it returns the child template, which is
    not empty and asks how many adults the household has. *)
Theorem callAI_without_credential (w : World) :
  apiKey (CONFIG w) = [] ->
  exists w',
    callAI (str "I want meal prep for my kid") w
    = Settled (Normal (JString TEMPLATE_CHILD) w')
    /\ fetched w' = fetched w
    /\ TEMPLATE_CHILD <> []
    /\ includes TEMPLATE_CHILD (str "How many adults are in your household?")
       = true.
Proof.
  intros K. eexists. split.
  - rewrite callAI_mock.
    + reflexivity.
    + unfold mock_mode. rewrite K. apply orb_true_r.
  - split; [reflexivity|]. split; [discriminate|]. vm_compute. reflexivity.
Qed.

(** ** Speech capture *)

Lemma stopListening_normal (r : option Exn) (w : World) :
  exists w',
    stopListening r w = Normal tt w'
    /\ fixed_setup w w'
    /\ recognition (state w') = recognition (state w)
    /\ (isListening (state w) = false -> w' = w)
    /\ (recognition (state w) <> None -> isListening (state w') = false)
    /\ isLoading (state w') = isLoading (state w).
Proof.
  unfold stopListening, fixed_setup.
  destruct (recognition (state w)) as [rec|] eqn:R.
  - destruct (isListening (state w)) eqn:L.
    + destruct r as [e|]; eexists; (split; [reflexivity|]); simpl;
        rewrite ?R; repeat split; auto; discriminate.
    + exists w. rewrite R, L. repeat split; auto.
  - exists w. rewrite R. repeat split; auto. congruence.
Qed.

Lemma startListening_normal (r : option Exn) (w : World) :
  exists w',
    startListening r w = Normal tt w'
    /\ fixed_setup w w'
    /\ recognition (state w') = recognition (state w)
    /\ (isListening (state w') = true ->
        recognition (state w) <> None \/ isListening (state w) = true)
    /\ isLoading (state w') = isLoading (state w).
Proof.
  unfold startListening, fixed_setup.
  destruct (recognition (state w)) as [rec|] eqn:R.
  - destruct r as [e|]; eexists; (split; [reflexivity|]); simpl;
      rewrite ?updateStatus_state, ?updateStatus_CONFIG; simpl;
      rewrite ?R; repeat split; auto;
      try apply (updateStatus_frame _ _); left; discriminate.
  - eexists. split; [reflexivity|]. simpl.
    rewrite ?updateStatus_state, ?updateStatus_CONFIG, R.
    repeat split; auto. apply (updateStatus_frame _ _).
Qed.

(** ** Invariants of the event loop *)

Lemma handleSubmit_waiting (w w' : World) (t : Task) :
  handleSubmit w = Waiting t w' ->
  mock_mode w = false /\ isLoading (state w) = false.
Proof.
  unfold handleSubmit.
  destruct (negb _); [discriminate|].
  destruct (isLoading (state w)); [discriminate|].
  match goal with |- context [match ?m w with _ => _ end] =>
    assert (K : keeps fixed m) by frame; specialize (K w);
    destruct (m w) as [[] w1|e w1] end; simpl in *; [|discriminate].
  destruct K as (Kc & _).
  destruct (mock_mode w) eqn:Mk; [|intros _; auto].
  rewrite callAI_mock; [discriminate|].
  unfold mock_mode in *. now rewrite Kc.
Qed.

Lemma remove_nth_nonempty {A} (i : nat) (l : list A) :
  remove_nth i l <> [] -> l <> [].
Proof. destruct l; [destruct i; simpl; auto|discriminate]. Qed.

Lemma replace_nth_nonempty {A} (i : nat) (x : A) (l : list A) :
  replace_nth i x l <> [] -> l <> [].
Proof. destruct l; [destruct i; simpl; auto|discriminate]. Qed.

Lemma Inv_boot (env : BootEnv) : Inv (boot env).
Proof.
  split; simpl; [|congruence].
  unfold init, checkConfiguration.
  repeat match goal with
         | |- context [if ?c then _ else _] => destruct c
         | |- context [match prompt_reply env with _ => _ end] =>
             destruct (prompt_reply env)
         end;
    rewrite updateStatus_state; simpl;
    unfold initSpeechRecognition; destruct (negb (speech_supported env));
    simpl; congruence.
Qed.

Lemma Inv_fixed (s : Sys) (w' : World) (ts : list Task) :
  Inv s -> fixed (world s) w' ->
  (ts <> [] -> tasks s <> [] \/ useMockAI (CONFIG (world s)) = false) ->
  Inv {| world := w'; tasks := ts |}.
Proof.
  intros (I1 & I2) (Hc & _ & Hl & Hr) Ht. split; simpl.
  - rewrite Hl, Hr. exact I1.
  - intros N. rewrite Hc. destruct (Ht N); auto.
Qed.

Lemma Inv_speech (s : Sys) (w' : World) :
  Inv s -> fixed_setup (world s) w' ->
  recognition (state w') = recognition (state (world s)) ->
  (isListening (state w') = true ->
   recognition (state (world s)) <> None
   \/ isListening (state (world s)) = true) ->
  Inv {| world := w'; tasks := tasks s |}.
Proof.
  intros (I1 & I2) (Hc & _) Hr Hl. split; simpl.
  - intros L. rewrite Hr. destruct (Hl L); auto.
  - rewrite Hc. exact I2.
Qed.

Lemma Inv_step (ev : Event) (s s' : Sys) :
  Inv s -> step ev s = Some s' -> Inv s'.
Proof.
  intros I. destruct ev; simpl.
  - (* Input *)
    intros [= <-]. apply Inv_fixed with (s := s); auto with frame.
  - (* Send *)
    pose proof (fixed_handleSubmit (world s)) as F.
    destruct (handleSubmit (world s)) as [r|t w'] eqn:E; intros [= <-].
    + apply Inv_fixed with (s := s); auto.
    + apply Inv_fixed with (s := s); auto. intros _. right.
      apply handleSubmit_waiting in E. destruct E as (E & _).
      unfold mock_mode in E. now apply orb_false_iff in E.
  - (* MicClick *)
    intros [= <-].
    destruct (isListening (state (world s))) eqn:L.
    + destruct (stopListening_normal raises (world s))
        as (w' & -> & Hc & Hr & _ & Hl & _). simpl.
      apply Inv_speech with (s := s); auto.
    + destruct (startListening_normal raises (world s))
        as (w' & -> & Hc & Hr & Hl & _). simpl.
      apply Inv_speech with (s := s); auto.
  - (* Focus *)
    intros [= <-].
    destruct (isListening (state (world s))) eqn:L.
    + destruct (stopListening_normal stop_raises (world s))
        as (w' & -> & Hc & Hr & _ & Hl & _). simpl.
      apply Inv_speech with (s := s); auto.
    + apply Inv_fixed with (s := s); auto with frame.
  - (* SpeechResult *)
    destruct (recognition (state (world s))); intros [= <-].
    apply Inv_fixed with (s := s); auto.
    eapply fixed_trans; [apply fixed_with_dom|apply fixed_updateStatus].
  - (* SpeechError *)
    destruct (recognition (state (world s))) eqn:R; intros [= <-].
    match goal with |- context [stopListening ?r ?w] =>
      destruct (stopListening_normal r w)
        as (w' & -> & (Hc & Hm) & Hr & _ & Hl & _)
    end. simpl.
    rewrite updateStatus_state in Hr, Hl. rewrite updateStatus_CONFIG in Hc.
    apply Inv_speech with (s := s); auto.
    + split; [exact Hc|].
      rewrite Hm. apply (updateStatus_frame _ _).
    + intros L. left. congruence.
  - (* SpeechEnd *)
    destruct (recognition (state (world s))) eqn:R; intros [= <-].
    destruct (stopListening_normal stop_raises (world s))
      as (w' & -> & Hc & Hr & _ & Hl & _). simpl.
    apply Inv_speech with (s := s); auto.
    intros _. left. congruence.
  - (* Timeout *)
    destruct (timers (world s)); intros [= <-].
    apply Inv_fixed with (s := s); auto.
    eapply fixed_trans; [apply fixed_with_timers|apply fixed_status_timeout].
  - (* Settle *)
    destruct (nth_error (tasks s) i) as [t|] eqn:N; [|discriminate].
    destruct (callAI_resume t o) as [k|] eqn:K; [|discriminate].
    pose proof (fixed_callAI_resume t o (world s) K) as F.
    destruct (k (world s)) as [reply|t' w'] eqn:E; intros [= <-]; simpl in F.
    + apply Inv_fixed with (s := s); auto.
      * eapply fixed_trans; [exact F|apply fixed_handleSubmit_reply].
      * intros H. left. eapply remove_nth_nonempty, H.
    + apply Inv_fixed with (s := s); auto.
      intros H. left. eapply replace_nth_nonempty, H.
Qed.

Lemma Inv_run (evs : list Event) (s s' : Sys) :
  Inv s -> run evs s = Some s' -> Inv s'.
Proof.
  revert s. induction evs as [|ev evs IH]; simpl; intros s I.
  - now intros [= <-].
  - destruct (step ev s) as [s1|] eqn:E; [|discriminate].
    apply IH. eapply Inv_step; eauto.
Qed.

Lemma reachable_Inv (s : Sys) : reachable s -> Inv s.
Proof. intros (env & evs & H). eapply Inv_run; [apply Inv_boot|exact H]. Qed.

(** No event writes [CONFIG]: it is what [init] left. *)
Lemma step_CONFIG (ev : Event) (s s' : Sys) :
  step ev s = Some s' -> CONFIG (world s') = CONFIG (world s).
Proof.
  destruct ev; simpl.
  - now intros [= <-].
  - pose proof (fixed_handleSubmit (world s)) as (C & _).
    destruct (handleSubmit (world s)); intros [= <-]; exact C.
  - intros [= <-]. simpl. destruct (isListening (state (world s)));
      [destruct (stopListening_normal raises (world s))
         as (w' & -> & (C & _) & _)
      |destruct (startListening_normal raises (world s))
         as (w' & -> & (C & _) & _)]; exact C.
  - intros [= <-]. destruct (isListening (state (world s))); [|reflexivity].
    destruct (stopListening_normal stop_raises (world s))
      as (w' & -> & (C & _) & _). exact C.
  - destruct (recognition (state (world s))); intros [= <-]. simpl.
    now rewrite updateStatus_CONFIG.
  - destruct (recognition (state (world s))); intros [= <-]. simpl.
    match goal with |- context [stopListening ?r ?w] =>
      destruct (stopListening_normal r w) as (w' & -> & (C & _) & _) end.
    simpl. now rewrite C, updateStatus_CONFIG.
  - destruct (recognition (state (world s))); intros [= <-]. simpl.
    destruct (stopListening_normal stop_raises (world s))
      as (w' & -> & (C & _) & _). exact C.
  - destruct (timers (world s)); intros [= <-]. simpl.
    match goal with |- context [status_timeout ?w] =>
      destruct (fixed_status_timeout w) as (C & _) end.
    now rewrite C.
  - destruct (nth_error (tasks s) i) as [t|]; [|discriminate].
    destruct (callAI_resume t o) as [k|] eqn:K; [|discriminate].
    pose proof (fixed_callAI_resume t o (world s) K) as (C & _).
    destruct (k (world s)) as [reply|t' w']; intros [= <-]; simpl in *.
    + destruct (fixed_handleSubmit_reply reply) as (C' & _). now rewrite C'.
    + exact C.
Qed.

(** ** What only changes the view *)

Lemma view_only_refl (w : World) : view_only w w.
Proof. unfold view_only. auto. Qed.

Lemma view_only_trans (a b c : World) :
  view_only a b -> view_only b c -> view_only a c.
Proof. unfold view_only. intuition congruence. Qed.

Lemma view_only_with_dom (f : Dom -> Dom) (w : World) :
  view_only w (with_dom f w).
Proof. unfold view_only. auto. Qed.

Lemma view_only_updateStatus (msg : jsstring) (w : World) :
  view_only w (updateStatus msg w).
Proof.
  destruct (updateStatus_frame msg w) as (A & B & C & D & _).
  unfold view_only. auto.
Qed.

#[local] Hint Resolve view_only_refl view_only_with_dom
  view_only_updateStatus : frame.

Ltac view_frame := frame_with view_only_refl view_only_trans.

Lemma view_only_addMessage (text : JsValue) (is_user : bool) :
  keeps view_only (addMessage text is_user).
Proof.
  unfold addMessage. view_frame.
  intros w. destruct is_user; simpl; [apply view_only_refl|].
  destruct (render_assistant (marked w) text); apply view_only_refl.
Qed.

#[local] Hint Resolve view_only_addMessage : frame.

Lemma view_only_handleSubmit_catch (e : Exn) :
  keeps view_only (handleSubmit_catch e).
Proof. unfold handleSubmit_catch. view_frame. Qed.

Lemma view_only_handleSubmit_reply (reply : Res JsValue) :
  view_only (world_of reply) (world_of (handleSubmit_reply reply)).
Proof.
  unfold handleSubmit_reply, try_catch, handleSubmit_try, bind.
  destruct reply as [v w|e w]; simpl.
  - pose proof (view_only_addMessage v false w) as H.
    destruct (addMessage v false w) as [[] w'|e w']; simpl in *; [exact H|].
    eapply view_only_trans; [exact H|apply view_only_handleSubmit_catch].
  - apply view_only_handleSubmit_catch.
Qed.

(** ** One call, stretch by stretch *)

Lemma callAI_finally_state (w : World) :
  state (callAI_finally w) = set_isLoading false (state w)
  /\ CONFIG (callAI_finally w) = CONFIG w
  /\ fetched (callAI_finally w) = fetched w
  /\ marked (callAI_finally w) = marked w.
Proof.
  unfold callAI_finally.
  destruct (updateStatus_frame [] (with_state (set_isLoading false) w))
    as (A & B & C & D & _).
  rewrite A, B, C, D. auto.
Qed.

Lemma callAI_network (text : jsstring) (w : World) :
  mock_mode w = false ->
  callAI text w
  = Suspended {| phase := AwaitFetch; userMessage := text |}
      (world_at_fetch text w).
Proof. unfold callAI, mock_mode. simpl. intros ->. reflexivity. Qed.

Lemma world_at_fetch_spec (text : jsstring) (w : World) :
  let w' := world_at_fetch text w in
  CONFIG w' = CONFIG w /\ marked w' = marked w
  /\ conversationHistory (state w')
     = conversationHistory (state w) ++ [user_turn text]
  /\ isLoading (state w') = true
  /\ isListening (state w') = isListening (state w)
  /\ fetched w'
     = fetched w ++ [{| url := apiEndpoint (CONFIG w);
                        authorization := str "Bearer " ++ apiKey (CONFIG w);
                        body_model := model (CONFIG w);
                        messages := system_turn :: conversationHistory (state w)
                                    ++ [user_turn text];
                        max_tokens := 2000 |}].
Proof.
  unfold world_at_fetch, try_begin, bind, exec, ret. simpl.
  rewrite ?updateStatus_state, ?updateStatus_CONFIG, ?updateStatus_fetched,
    ?updateStatus_marked.
  simpl. repeat split; reflexivity.
Qed.

(** A stretch of the [try] block that raises, outside forced mock mode: the
    call returns the canned response and only clears the busy flag. *)
Lemma callAI_try_fallback (text : jsstring) (stretch : M TryStep)
      (w w1 : World) (e : Exn) :
  stretch w = Throws e w1 -> useMockAI (CONFIG w1) = false ->
  exists w',
    callAI_try text stretch w
    = Settled (Normal (JString (getMockAIResponse text)) w')
    /\ state w' = set_isLoading false (state w1)
    /\ CONFIG w' = CONFIG w1 /\ fetched w' = fetched w1
    /\ marked w' = marked w1.
Proof.
  intros E U. unfold callAI_try. rewrite E.
  unfold finally, callAI_catch. rewrite U. simpl.
  eexists. split; [reflexivity|].
  destruct (callAI_finally_state
              (updateStatus (str "API error. Using fallback mode.") w1))
    as (A & B & C & D).
  rewrite A, B, C, D.
  destruct (updateStatus_frame (str "API error. Using fallback mode.") w1)
    as (A' & B' & C' & D' & _).
  rewrite A', B', C', D'. auto.
Qed.

(** A success body from which the content can be read: the call records the
    content as an assistant turn, clears the busy flag and returns it. *)
Lemma callAI_try_data (text : jsstring) (data c : JsValue) (w : World) :
  read_content data = inr c ->
  exists w',
    callAI_try text (try_data data) w = Settled (Normal c w')
    /\ state w' = set_isLoading false (push_history (assistant_turn c) (state w))
    /\ CONFIG w' = CONFIG w /\ fetched w' = fetched w /\ marked w' = marked w.
Proof.
  intros R. unfold callAI_try, try_data, bind. rewrite R. simpl.
  eexists. split; [reflexivity|].
  match goal with |- context [callAI_finally ?x] =>
    destruct (callAI_finally_state x) as (A & B & C & D) end.
  rewrite A, B, C, D. auto.
Qed.

(** ** One call against the network *)

Lemma try_error_body_raises (v : JsValue) (w : World) :
  exists e, try_error_body v w = Throws e w.
Proof.
  unfold try_error_body, bind.
  destruct (error_message v) as [e|m]; simpl; eauto.
Qed.

Lemma callAI_try_response (text : jsstring) (ok : bool) (w : World) :
  callAI_try text (try_response ok) w
  = Suspended {| phase := if ok then AwaitData else AwaitErrorBody;
                 userMessage := text |} w.
Proof. destruct ok; reflexivity. Qed.

Ltac drive_step :=
  cbn [settlements body_settlement drive callAI_resume phase userMessage];
  rewrite ?callAI_try_response;
  cbn [settlements body_settlement drive callAI_resume phase userMessage].

Lemma exchange_run (text : jsstring) (x : Exchange) (w : World) :
  useMockAI (CONFIG w) = false ->
  exists w',
    drive (Suspended {| phase := AwaitFetch; userMessage := text |} w)
      (settlements x)
    = Some (Normal (reply_value text x) w')
    /\ state w' = reply_state x (state w)
    /\ CONFIG w' = CONFIG w /\ fetched w' = fetched w /\ marked w' = marked w.
Proof.
  intros U. unfold reply_value, reply_state.
  destruct x as [e|[e|v]|[e|data]]; cbn [delivered]; drive_step.
  - destruct (@callAI_try_fallback text (throw e) w w e eq_refl U)
      as (w' & -> & H). eauto.
  - destruct (@callAI_try_fallback text (throw e) w w e eq_refl U)
      as (w' & -> & H). eauto.
  - destruct (try_error_body_raises v w) as (e & E).
    destruct (@callAI_try_fallback text (try_error_body v) w w e E U)
      as (w' & -> & H). eauto.
  - destruct (@callAI_try_fallback text (throw e) w w e eq_refl U)
      as (w' & -> & H). eauto.
  - destruct (read_content data) as [e|c] eqn:R.
    + assert (E : try_data data w = Throws e w)
        by (unfold try_data, bind; rewrite R; reflexivity).
      destruct (@callAI_try_fallback text (try_data data) w w e E U)
        as (w' & -> & H). eauto.
    + destruct (@callAI_try_data text data c w R) as (w' & -> & H). eauto.
Qed.

(** On the page, the same settlements arrive as [Settle] events for the one
    pending submission, which then finishes with [handleSubmit]'s tail. *)
Lemma run_drive (os : list Settlement) (t : Task) (w : World)
      (r : Res JsValue) :
  drive (Suspended t w) os = Some r ->
  run (map (Settle 0) os) {| world := w; tasks := [t] |}
  = Some {| world := world_of (handleSubmit_reply r); tasks := [] |}.
Proof.
  revert t w. induction os as [|o rest IH]; intros t w; simpl; [discriminate|].
  destruct (callAI_resume t o) as [k|]; [|discriminate].
  destruct (k w) as [r'|t' w'] eqn:E.
  - destruct rest; simpl; [|discriminate]. now intros [= ->].
  - intros D. simpl. apply IH, D.
Qed.

(** ** Accepted submissions *)

Lemma world_at_call_view (text : jsstring) (w : World) :
  view_only w (world_at_call text w).
Proof.
  unfold world_at_call.
  repeat (eapply view_only_trans; [|apply view_only_updateStatus
                                    || apply view_only_with_dom]).
  apply view_only_refl.
Qed.

Lemma handleSubmit_accepted (w : World) :
  blank (textInput_value (dom w)) = false ->
  isLoading (state w) = false ->
  let text := trim (textInput_value (dom w)) in
  handleSubmit w
  = match callAI text (world_at_call text w) with
    | Settled reply => Finished (handleSubmit_reply reply)
    | Suspended t w' => Waiting t w'
    end.
Proof.
  intros B L. unfold handleSubmit. rewrite truthy_trim, B, L. reflexivity.
Qed.

Lemma mock_mode_view (w w' : World) :
  view_only w w' -> mock_mode w' = mock_mode w.
Proof. intros (_ & C & _). unfold mock_mode. now rewrite C. Qed.

(** An accepted submission in mock mode finishes at once and leaves one
    more turn in the transcript, the user's. *)
Lemma handleSubmit_mock (w : World) :
  blank (textInput_value (dom w)) = false ->
  isLoading (state w) = false ->
  mock_mode w = true ->
  exists r,
    handleSubmit w = Finished r
    /\ state (world_of r)
       = push_history (user_turn (trim (textInput_value (dom w)))) (state w)
    /\ CONFIG (world_of r) = CONFIG w
    /\ fetched (world_of r) = fetched w.
Proof.
  intros B L Mk. rewrite (handleSubmit_accepted w B L).
  pose proof (world_at_call_view (trim (textInput_value (dom w))) w) as V.
  rewrite callAI_mock by (now rewrite (mock_mode_view V)).
  eexists. split; [reflexivity|].
  match goal with |- context [handleSubmit_reply ?r] =>
    destruct (view_only_handleSubmit_reply r) as (A & C & F & _) end.
  destruct V as (A' & C' & F' & _).
  rewrite A, C, F. cbn [world_of with_state state CONFIG fetched].
  rewrite A', C', F'. auto.
Qed.

(** An accepted submission outside mock mode issues one request, made of the
    system prompt, the transcript as it stood and the new user turn, and
    waits for [fetch] with the busy flag set. *)
Lemma handleSubmit_network (w : World) :
  blank (textInput_value (dom w)) = false ->
  isLoading (state w) = false ->
  mock_mode w = false ->
  let text := trim (textInput_value (dom w)) in
  exists w',
    handleSubmit w = Waiting {| phase := AwaitFetch; userMessage := text |} w'
    /\ CONFIG w' = CONFIG w
    /\ conversationHistory (state w')
       = conversationHistory (state w) ++ [user_turn text]
    /\ isLoading (state w') = true
    /\ fetched w'
       = fetched w ++ [{| url := apiEndpoint (CONFIG w);
                          authorization := str "Bearer " ++ apiKey (CONFIG w);
                          body_model := model (CONFIG w);
                          messages := system_turn
                                      :: conversationHistory (state w)
                                      ++ [user_turn text];
                          max_tokens := 2000 |}].
Proof.
  intros B L Mk text. rewrite (handleSubmit_accepted w B L). fold text.
  pose proof (world_at_call_view text w) as V.
  rewrite callAI_network by (now rewrite (mock_mode_view V)).
  eexists. split; [reflexivity|].
  destruct (world_at_fetch_spec text (world_at_call text w))
    as (C & _ & H & Ld & _ & F).
  destruct V as (A' & C' & F' & _).
  rewrite C, H, Ld, F, A', C', F'. auto.
Qed.

Lemma run_app (a b : list Event) (s : Sys) :
  run (a ++ b) s = match run a s with Some s' => run b s' | None => None end.
Proof.
  revert s. induction a as [|ev a IH]; intros s; simpl; [reflexivity|].
  destruct (step ev s); [apply IH|reflexivity].
Qed.

Lemma run_submission (s : Sys) (sub : jsstring * Exchange) :
  idle s -> blank (fst sub) = false ->
  exists s',
    run (submission_events (mock_mode (world s)) sub) s = Some s'
    /\ idle s'
    /\ CONFIG (world s') = CONFIG (world s)
    /\ conversationHistory (state (world s'))
       = conversationHistory (state (world s))
         ++ submission_turns (mock_mode (world s)) sub.
Proof.
  intros (T & L) B. destruct sub as [text x]. simpl in B.
  unfold submission_events, submission_turns. cbn [fst snd].
  rewrite run_app. cbn [run]. cbn [step].
  set (w0 := with_dom (set_textInput text) (world s)).
  assert (B0 : blank (textInput_value (dom w0)) = false) by exact B.
  assert (L0 : isLoading (state w0) = false) by exact L.
  assert (M0 : mock_mode w0 = mock_mode (world s)) by reflexivity.
  cbn [world tasks]. fold w0.
  destruct (mock_mode (world s)) eqn:Mk.
  - destruct (handleSubmit_mock w0 B0 L0 M0) as (r & -> & St & C & _).
    eexists. split; [reflexivity|]. unfold idle. cbn [world tasks].
    rewrite St, C. simpl. auto.
  - destruct (handleSubmit_network w0 B0 L0 M0) as (w1 & -> & C & H & _).
    cbn [tasks]. rewrite T. cbn [app].
    assert (U : useMockAI (CONFIG w1) = false).
    { rewrite C. unfold mock_mode in M0. now apply orb_false_iff in M0. }
    destruct (@exchange_run (trim text) x w1 U) as (w2 & D & St & C2 & _).
    change (textInput_value (dom w0)) with text.
    rewrite (run_drive _ _ _ D).
    eexists. split; [reflexivity|].
    match goal with |- context [handleSubmit_reply ?r] =>
      destruct (view_only_handleSubmit_reply r) as (A & C3 & _) end.
    unfold idle. cbn [world tasks]. rewrite A, C3. cbn [world_of].
    rewrite St, C2, C. unfold reply_state.
    destruct (delivered x); simpl; rewrite H; simpl;
      rewrite <- ?app_assoc; auto.
Qed.

Lemma run_submissions (subs : list (jsstring * Exchange)) (s : Sys) :
  idle s -> forallb (fun sub => negb (blank (fst sub))) subs = true ->
  exists s',
    run (flat_map (submission_events (mock_mode (world s))) subs) s = Some s'
    /\ idle s'
    /\ CONFIG (world s') = CONFIG (world s)
    /\ conversationHistory (state (world s'))
       = conversationHistory (state (world s))
         ++ flat_map (submission_turns (mock_mode (world s))) subs.
Proof.
  revert s. induction subs as [|sub subs IH]; intros s I NB.
  - exists s. simpl. rewrite app_nil_r. auto.
  - simpl in NB. apply andb_true_iff in NB. destruct NB as (B & NB).
    apply negb_true_iff in B.
    destruct (run_submission sub I B) as (s1 & R1 & I1 & C1 & H1).
    assert (M1 : mock_mode (world s1) = mock_mode (world s))
      by (unfold mock_mode; now rewrite C1).
    destruct (IH s1 I1 NB) as (s2 & R2 & I2 & C2 & H2).
    exists s2. cbn [flat_map]. rewrite run_app, R1.
    rewrite M1 in R2, H2. rewrite R2, H2, H1, C2, C1, <- app_assoc. auto.
Qed.

(** ** One submission at a time *)

Lemma callAI_try_settled (text : jsstring) (stretch : M TryStep)
      (w : World) (r : Res JsValue) :
  callAI_try text stretch w = Settled r ->
  isLoading (state (world_of r)) = false.
Proof.
  unfold callAI_try.
  destruct (stretch w) as [[v|p] w1|e w1]; [| discriminate |];
    intros [= <-]; unfold finally.
  - cbn [ret world_of]. now destruct (callAI_finally_state w1) as (-> & _).
  - destruct (callAI_catch text e w1) as [v w2|e' w2]; cbn [world_of];
      now destruct (callAI_finally_state w2) as (-> & _).
Qed.

Lemma callAI_resume_settled (t : Task) (o : Settlement)
      (k : World -> Async JsValue) (w : World) (r : Res JsValue) :
  callAI_resume t o = Some k -> k w = Settled r ->
  isLoading (state (world_of r)) = false.
Proof.
  unfold callAI_resume. intros K E.
  destruct (phase t), o; inversion K; subst;
    eapply callAI_try_settled; exact E.
Qed.

(** A resumed call that suspends again has not touched the world: only
    [await fetch] is followed by another [await]. *)
Lemma callAI_resume_suspended (t t' : Task) (o : Settlement)
      (k : World -> Async JsValue) (w w' : World) :
  callAI_resume t o = Some k -> k w = Suspended t' w' -> w' = w.
Proof.
  unfold callAI_resume. intros K E.
  destruct (phase t), o; inversion K; subst; clear K;
    try (rewrite callAI_try_response in E; now inversion E);
    unfold callAI_try in E;
    try (simpl in E; discriminate).
  - destruct (try_error_body_raises v w) as (e & R). rewrite R in E.
    discriminate.
  - unfold try_data, bind in E.
    destruct (lift_get (read_content v) w) as [c w1|e w1]; simpl in E;
      discriminate.
Qed.

Lemma Exclusive_same (s : Sys) (w' : World) :
  isLoading (state w') = isLoading (state (world s)) ->
  Exclusive s -> Exclusive {| world := w'; tasks := tasks s |}.
Proof. unfold Exclusive. simpl. intros ->. auto. Qed.

Lemma Exclusive_step (ev : Event) (s s' : Sys) :
  Exclusive s -> step ev s = Some s' -> Exclusive s'.
Proof.
  intros X. destruct ev; simpl.
  - (* Input *)
    intros [= <-]. now apply Exclusive_same.
  - (* Send *)
    destruct (blank (textInput_value (dom (world s)))) eqn:B.
    { rewrite (handleSubmit_blank _ B). intros [= <-].
      apply Exclusive_same; [|exact X]. simpl. now rewrite updateStatus_state. }
    destruct (isLoading (state (world s))) eqn:L.
    { assert (E : handleSubmit (world s) = Finished (Normal tt (world s)))
        by (unfold handleSubmit; rewrite truthy_trim, B, L; reflexivity).
      rewrite E. intros [= <-]. now apply Exclusive_same. }
    destruct X as [(T & _)|(t & _ & L')]; [|congruence].
    destruct (mock_mode (world s)) eqn:Mk.
    + destruct (handleSubmit_mock _ B L Mk) as (r & -> & St & _).
      intros [= <-]. left. simpl. rewrite St. auto.
    + destruct (handleSubmit_network _ B L Mk) as (w' & -> & _ & _ & L' & _).
      intros [= <-]. right. simpl. rewrite T. simpl. eauto.
  - (* MicClick *)
    intros [= <-]. destruct (isListening (state (world s)));
      [destruct (stopListening_normal raises (world s))
         as (w' & -> & _ & _ & _ & _ & L)
      |destruct (startListening_normal raises (world s))
         as (w' & -> & _ & _ & _ & L)]; now apply Exclusive_same.
  - (* Focus *)
    intros [= <-]. destruct (isListening (state (world s)));
      [|now apply Exclusive_same].
    destruct (stopListening_normal stop_raises (world s))
      as (w' & -> & _ & _ & _ & _ & L). now apply Exclusive_same.
  - (* SpeechResult *)
    destruct (recognition (state (world s))); intros [= <-].
    apply Exclusive_same; [|exact X]. now rewrite updateStatus_state.
  - (* SpeechError *)
    destruct (recognition (state (world s))); intros [= <-].
    match goal with |- context [stopListening ?r ?w] =>
      destruct (stopListening_normal r w) as (w' & -> & _ & _ & _ & _ & L) end.
    apply Exclusive_same; [|exact X]. simpl.
    now rewrite L, updateStatus_state.
  - (* SpeechEnd *)
    destruct (recognition (state (world s))); intros [= <-].
    destruct (stopListening_normal stop_raises (world s))
      as (w' & -> & _ & _ & _ & _ & L). now apply Exclusive_same.
  - (* Timeout *)
    destruct (timers (world s)); intros [= <-].
    apply Exclusive_same; [|exact X]. unfold status_timeout.
    destruct (_ && _); reflexivity.
  - (* Settle *)
    destruct (nth_error (tasks s) i) as [t|] eqn:N; [|discriminate].
    destruct (callAI_resume t o) as [k|] eqn:K; [|discriminate].
    destruct X as [(T & _)|(t0 & T & L)];
      [rewrite T in N; destruct i; discriminate|].
    rewrite T in *. destruct i as [|i]; [|destruct i; discriminate].
    destruct (k (world s)) as [reply|t' w'] eqn:E; intros [= <-].
    + left. simpl. split; [reflexivity|].
      destruct (view_only_handleSubmit_reply reply) as (-> & _).
      exact (callAI_resume_settled _ _ _ K E).
    + right. simpl. exists t'. split; [reflexivity|].
      now rewrite (callAI_resume_suspended _ _ _ K E).
Qed.

(** In every state the page can reach at most one submission is pending,
    and the busy flag is set exactly while one is: two calls never
    interleave their appends to the transcript. *)
Lemma reachable_Exclusive (s : Sys) : reachable s -> Exclusive s.
Proof.
  intros (env & evs & H).
  assert (X0 : Exclusive (boot env)).
  { left. split; [reflexivity|]. simpl. unfold init, checkConfiguration.
    repeat match goal with
           | |- context [if ?c then _ else _] => destruct c
           | |- context [match prompt_reply env with _ => _ end] =>
               destruct (prompt_reply env)
           end;
      rewrite updateStatus_state; simpl;
      unfold initSpeechRecognition; destruct (negb (speech_supported env));
      reflexivity. }
  revert H. generalize (boot env) X0. clear X0.
  induction evs as [|ev evs IH]; simpl; intros s0 X0.
  - now intros [= <-].
  - destruct (step ev s0) as [s1|] eqn:E; [|discriminate].
    apply IH. eapply Exclusive_step; eauto.
Qed.

(** ** Speech capture (C8) *)

(** C8.  In every state the page can reach, [stopListening()] completes
    normally whether or not the recognition object's [stop()] raises, leaves
    [state.isListening] false, and changes nothing when the adapter was
    already inactive. *)
Theorem stopListening_leaves_inactive (s : Sys) (stop_raises : option Exn) :
  reachable s ->
  exists w',
    stopListening stop_raises (world s) = Normal tt w'
    /\ isListening (state w') = false
    /\ (isListening (state (world s)) = false -> w' = world s).
Proof.
  intros Rs. destruct (reachable_Inv Rs) as (I & _).
  destruct (stopListening_normal stop_raises (world s))
    as (w' & E & _ & _ & Same & Off & _).
  exists w'. split; [exact E|]. split; [|exact Same].
  destruct (isListening (state (world s))) eqn:L.
  - apply Off, I. reflexivity.
  - rewrite (Same eq_refl). exact L.
Qed.

Lemma stopListening_leaves_inactive_witness :
  reachable listening_page
  /\ isListening (state (world listening_page)) = true
  /\ exists w',
       stopListening (Some (Error (str "InvalidStateError")))
         (world listening_page) = Normal tt w'
       /\ isListening (state w') = false
       /\ (isListening (state (world listening_page)) = false ->
           w' = world listening_page).
Proof.
  assert (R : reachable listening_page)
    by (exists env_key, [MicClick None]; reflexivity).
  split; [exact R|]. split; [reflexivity|].
  exact (stopListening_leaves_inactive
           (Some (Error (str "InvalidStateError"))) R).
Defined.

(** ** Errors of the call (C9, C5, X17) *)

Lemma callAI_try_returns (text : jsstring) (stretch : M TryStep) (w : World) :
  keeps fixed stretch -> useMockAI (CONFIG w) = false ->
  returned (callAI_try text stretch w).
Proof.
  intros K U. unfold callAI_try. specialize (K w).
  destruct (stretch w) as [[v|p] w1|e w1] eqn:E; simpl; auto.
  destruct K as (C & _). simpl in C.
  unfold finally, callAI_catch. rewrite C, U. reflexivity.
Qed.

Lemma callAI_returns (text : jsstring) (w : World) : returned (callAI text w).
Proof.
  destruct (mock_mode w) eqn:Mk.
  - rewrite callAI_mock by exact Mk. reflexivity.
  - rewrite callAI_network by exact Mk. exact I.
Qed.

Lemma callAI_resume_returns (t : Task) (o : Settlement)
      (k : World -> Async JsValue) (w : World) :
  useMockAI (CONFIG w) = false -> callAI_resume t o = Some k ->
  returned (k w).
Proof.
  intros U H. unfold callAI_resume in H.
  destruct (phase t), o; inversion H; subst;
    apply callAI_try_returns; auto; frame.
Qed.

Lemma enters_catch_render (v : JsValue) (w : World) :
  enters_catch (Normal v w) = true ->
  exists e, render_assistant (marked w) v = inl e.
Proof.
  unfold enters_catch, handleSubmit_try, bind, addMessage, bind, exec. simpl.
  destruct (render_assistant (marked w) v) as [e|r]; [eauto|discriminate].
Qed.

(** C9, as the script has it.  In every state the page can reach, no event
    writes [CONFIG], and [callAI] returns normally whenever it settles, at
    its start and at every resumption of a pending call: its [throw error]
    is never executed.
    [handleSubmit]'s [catch] block is then entered only when [addMessage]
    raises, that is when the renderer refuses the reply. *)
Theorem callAI_never_raises (s : Sys) :
  reachable s ->
  (forall ev s', step ev s = Some s' -> CONFIG (world s') = CONFIG (world s))
  /\ (forall text w, returned (callAI text w))
  /\ (forall i t o k,
        nth_error (tasks s) i = Some t -> callAI_resume t o = Some k ->
        returned (k (world s)))
  /\ (forall reply,
        raised reply = false -> enters_catch reply = true ->
        exists v w e,
          reply = Normal v w /\ render_assistant (marked w) v = inl e).
Proof.
  intros Rs. destruct (reachable_Inv Rs) as (_ & I).
  split; [intros ev s' St; exact (step_CONFIG _ _ St)|].
  split; [intros; apply callAI_returns|]. split.
  - intros i t o k N K. eapply callAI_resume_returns; [|exact K].
    apply I. intros E. rewrite E in N. destruct i; discriminate.
  - intros [v w|e w] Rr Ec; [|discriminate].
    destruct (enters_catch_render _ _ Ec) as (e & E). eauto.
Qed.

Lemma callAI_never_raises_witness :
  reachable waiting_page
  /\ returned (callAI_try (str "plan my week")
                 (throw (Error (str "Failed to fetch")))
                 (world waiting_page)).
Proof.
  assert (R : reachable waiting_page)
    by (exists env_key, [Input (str "plan my week"); Send];
        vm_compute; reflexivity).
  split; [exact R|].
  destruct (callAI_never_raises R) as (_ & _ & H & _).
  apply (H 0%nat
           {| phase := AwaitFetch; userMessage := str "plan my week" |}
           (Rejected (Error (str "Failed to fetch")))).
  - vm_compute. reflexivity.
  - reflexivity.
Defined.

(** The [catch] block of [handleSubmit] is not dead.  On a page with a
    credential and a renderer that takes strings only, a success response
    whose content is [null] makes [callAI] return [null]; rendering it
    raises, and the [catch] block shows the error status and the apology. *)
Lemma handleSubmit_catch_entered :
  exists s t k reply s',
    run [Input (str "plan my week"); Send; Settle 0 (Response true)]
      (boot env_strict) = Some s
    /\ nth_error (tasks s) 0 = Some t
    /\ callAI_resume t (Body (completion JNull)) = Some k
    /\ k (world s) = Settled reply
    /\ raised reply = false
    /\ enters_catch reply = true
    /\ step (Settle 0 (Body (completion JNull))) s = Some s'
    /\ last (conversation_children (dom (world s')))
            {| isUser := true; body := InnerHTML [] |}
       = {| isUser := false; body := InnerHTML APOLOGY |}
    /\ status_textContent (dom (world s'))
       = str "Error: marked(): input parameter is undefined or null. Please check your API configuration.".
Proof.
  do 5 eexists.
  split; [vm_compute; reflexivity|]. split; [vm_compute; reflexivity|].
  split; [reflexivity|]. split; [vm_compute; reflexivity|].
  split; [reflexivity|]. split; [vm_compute; reflexivity|].
  split; [vm_compute; reflexivity|]. split; vm_compute; reflexivity.
Qed.

Lemma callAI_run (text : jsstring) (x : Exchange) (w : World) :
  mock_mode w = false ->
  exists w',
    drive (callAI text w) (settlements x)
    = Some (Normal (reply_value text x) w')
    /\ isLoading (state w') = false
    /\ conversationHistory (state w')
       = conversationHistory (state w)
         ++ user_turn text :: match delivered x with
                              | Some c => [assistant_turn c]
                              | None => []
                              end
    /\ CONFIG w' = CONFIG w
    /\ fetched w' = fetched (world_at_fetch text w).
Proof.
  intros Mk. rewrite callAI_network by exact Mk.
  destruct (world_at_fetch_spec text w) as (C & _ & H & _ & _ & F).
  assert (U : useMockAI (CONFIG (world_at_fetch text w)) = false).
  { rewrite C. unfold mock_mode in Mk. now apply orb_false_iff in Mk. }
  destruct (@exchange_run text x _ U) as (w' & D & St & C' & F' & _).
  exists w'. split; [exact D|].
  rewrite St, C', F', C. unfold reply_state.
  destruct (delivered x);
    cbn [isLoading conversationHistory set_isLoading push_history];
    rewrite H, <- ?app_assoc; auto.
Qed.

Lemma callAI_resume_fallback (t : Task) (o : Settlement)
      (k : World -> Async JsValue) (w : World) :
  useMockAI (CONFIG w) = false -> callAI_resume t o = Some k ->
  settlement_raises (phase t) o = true ->
  exists w',
    k w = Settled (Normal (JString (getMockAIResponse (userMessage t))) w')
    /\ isLoading (state w') = false
    /\ conversationHistory (state w') = conversationHistory (state w).
Proof.
  intros U K Rz. unfold callAI_resume in K. unfold settlement_raises in Rz.
  assert (F : forall stretch e,
             stretch w = Throws e w ->
             exists w',
               callAI_try (userMessage t) stretch w
               = Settled (Normal (JString (getMockAIResponse (userMessage t))) w')
               /\ isLoading (state w') = false
               /\ conversationHistory (state w') = conversationHistory (state w)).
  { intros stretch e E.
    destruct (@callAI_try_fallback (userMessage t) stretch w w e E U)
      as (w' & -> & St & _). exists w'. rewrite St. auto. }
  destruct o as [e|ok|v].
  - assert (K' : k = callAI_try (userMessage t) (throw e))
      by (destruct (phase t); congruence).
    subst k. apply (F _ e). reflexivity.
  - destruct (phase t); discriminate.
  - destruct (phase t); try discriminate; injection K as <-.
    + destruct (try_error_body_raises v w) as (e & E). apply (F _ e E).
    + destruct (read_content v) as [e|c] eqn:R; [|discriminate].
      apply (F _ e). unfold try_data, bind. rewrite R. reflexivity.
Qed.

(** X17.  With a credential and mock mode not forced, when the request
    fails by raising ([fetch] rejects, the status is not a success, the body
    does not parse, or reading [data.choices[0].message.content] raises),
    [callAI] returns the canned response for the message, which is a
    non-empty string, and the busy flag is clear once the call has settled.
    The second part says the same of a pending call resumed in any world,
    whatever other events the page handled while the call was suspended. *)
Theorem callAI_falls_back
        (text : jsstring) (x : Exchange) (w : World)
        (t : Task) (o : Settlement) (k : World -> Async JsValue)
        (w1 : World) :
  mock_mode w = false -> request_raises x = true ->
  useMockAI (CONFIG w1) = false -> callAI_resume t o = Some k ->
  settlement_raises (phase t) o = true ->
  (exists w',
     drive (callAI text w) (settlements x)
     = Some (Normal (JString (getMockAIResponse text)) w')
     /\ getMockAIResponse text <> []
     /\ isLoading (state w') = false)
  /\ (exists w',
        k w1 = Settled (Normal (JString (getMockAIResponse (userMessage t))) w')
        /\ getMockAIResponse (userMessage t) <> []
        /\ isLoading (state w') = false).
Proof.
  intros Mk Rz U K Sz. split.
  - destruct (@callAI_run text x w Mk) as (w' & D & L & _).
    exists w'. unfold reply_value in D. unfold request_raises in Rz.
    destruct (delivered x); [discriminate|].
    split; [exact D|]. split; [apply getMockAIResponse_nonempty|exact L].
  - destruct (callAI_resume_fallback t o w1 U K Sz) as (w' & E & L & _).
    exists w'. split; [exact E|].
    split; [apply getMockAIResponse_nonempty|exact L].
Qed.

Lemma callAI_falls_back_witness :
  mock_mode (init env_key) = false
  /\ request_raises (ErrorStatus (inr (JObject []))) = true
  /\ exists w',
       drive (callAI (str "plan my week") (init env_key))
         (settlements (ErrorStatus (inr (JObject []))))
       = Some (Normal (JString (getMockAIResponse (str "plan my week"))) w')
       /\ getMockAIResponse (str "plan my week") <> []
       /\ isLoading (state w') = false.
Proof.
  split; [vm_compute; reflexivity|]. split; [reflexivity|].
  destruct (@callAI_falls_back (str "plan my week")
              (ErrorStatus (inr (JObject []))) (init env_key)
              {| phase := AwaitData; userMessage := str "plan my week" |}
              (Body (JObject []))
              (callAI_try (str "plan my week") (try_data (JObject [])))
              (world waiting_page)) as (H & _);
    try (vm_compute; reflexivity).
  exact H.
Defined.

(** C5.  The failing input: a credential is configured, mock mode is not
    forced, the response is a success and its body parses, but its message
    has no content.  The body is malformed, yet nothing raises: [callAI]
    records an assistant turn whose content is [undefined] and returns
    [undefined], which is not a string, instead of the fallback's output;
    the busy flag is cleared all the same.  The empty object, as malformed,
    takes the other path: reading [data.choices[0]] raises, the [catch]
    block runs, and the call returns the canned response and records no
    assistant turn. *)
Theorem callAI_malformed_body_no_fallback :
  mock_mode (init env_key) = false
  /\ request_failed (SuccessStatus (inr completion_without_content)) = true
  /\ (exists w',
        drive (callAI (str "plan my week") (init env_key))
          (settlements (SuccessStatus (inr completion_without_content)))
        = Some (Normal JUndefined w')
        /\ Js.is_string JUndefined = false
        /\ conversationHistory (state w')
           = [user_turn (str "plan my week"); assistant_turn JUndefined]
        /\ isLoading (state w') = false)
  /\ request_failed (SuccessStatus (inr (JObject []))) = true
  /\ (exists w',
        drive (callAI (str "plan my week") (init env_key))
          (settlements (SuccessStatus (inr (JObject []))))
        = Some (Normal (JString (getMockAIResponse (str "plan my week"))) w')
        /\ conversationHistory (state w') = [user_turn (str "plan my week")]
        /\ isLoading (state w') = false).
Proof.
  split; [vm_compute; reflexivity|]. split; [reflexivity|].
  split; [|split; [reflexivity|]]; eexists;
    (split; [vm_compute; reflexivity|]); repeat split; vm_compute; reflexivity.
Qed.

(** ** The transcript over a conversation (C10, C1, C2) *)

Lemma mock_submissions (texts : list jsstring) :
  let subs := map (fun t => (t, FetchRejects (Error []))) texts in
  flat_map (submission_events true) subs
  = flat_map (fun t => [Input t; Send]) texts
  /\ flat_map (submission_turns true) subs
     = map (fun t => user_turn (trim t)) texts
  /\ forallb (fun sub => negb (blank (fst sub))) subs
     = forallb (fun t => negb (blank t)) texts.
Proof.
  induction texts as [|t texts (A & B & C)]; simpl; [auto|].
  simpl in A, B, C. rewrite A, B, C. auto.
Qed.

(** C10.  A reply of the canned responder is never appended to the
    transcript: in mock mode [callAI] returns it having appended the user
    turn only; after a request that failed by raising, [callAI] returns it
    and the transcript holds the user turn only; and so [n] accepted
    submissions in mock mode add exactly their [n] user turns, in order, to
    the transcript, which on a fresh page then has [n] turns, all of role
    [user]. *)
Theorem mock_replies_not_recorded
        (s : Sys) (texts : list jsstring)
        (w : World) (text : jsstring) (x : Exchange) :
  idle s -> mock_mode (world s) = true ->
  forallb (fun t => negb (blank t)) texts = true ->
  mock_mode w = false -> request_raises x = true ->
  (exists w',
     callAI text (world s)
     = Settled (Normal (JString (getMockAIResponse text)) w')
     /\ conversationHistory (state w')
        = conversationHistory (state (world s)) ++ [user_turn text])
  /\ (exists w',
        drive (callAI text w) (settlements x)
        = Some (Normal (JString (getMockAIResponse text)) w')
        /\ conversationHistory (state w')
           = conversationHistory (state w) ++ [user_turn text])
  /\ (exists s',
        run (flat_map (fun t => [Input t; Send]) texts) s = Some s'
        /\ conversationHistory (state (world s'))
           = conversationHistory (state (world s))
             ++ map (fun t => user_turn (trim t)) texts
        /\ (conversationHistory (state (world s)) = [] ->
            List.length (conversationHistory (state (world s')))
            = List.length texts
            /\ Forall (fun t => role t = user)
                 (conversationHistory (state (world s'))))).
Proof.
  intros I Mk NB Mw Rz. split; [|split].
  - rewrite callAI_mock by exact Mk. eexists. split; reflexivity.
  - destruct (@callAI_run text x w Mw) as (w' & D & _ & H & _).
    unfold reply_value in D. unfold request_raises in Rz.
    destruct (delivered x); [discriminate|]. eauto.
  - destruct (mock_submissions texts) as (Ev & Tu & Nb).
    rewrite <- Nb in NB.
    destruct (run_submissions _ I NB) as (s' & R & _ & _ & H).
    rewrite Mk, Ev in R. rewrite Mk, Tu in H.
    exists s'. split; [exact R|]. split; [exact H|].
    intros E. rewrite H, E. simpl. split; [apply length_map|].
    apply Forall_forall. intros t In. apply in_map_iff in In.
    destruct In as (t0 & <- & _). reflexivity.
Qed.

Lemma mock_replies_not_recorded_witness :
  idle (boot env_mock)
  /\ mock_mode (world (boot env_mock)) = true
  /\ mock_mode (init env_key) = false
  /\ exists s',
       run [Input (str "hello"); Send; Input (str " meal plan for my kid "); Send]
         (boot env_mock) = Some s'
       /\ conversationHistory (state (world s'))
          = [user_turn (str "hello"); user_turn (str "meal plan for my kid")].
Proof.
  assert (I : idle (boot env_mock)) by (split; reflexivity).
  split; [exact I|]. split; [reflexivity|]. split; [vm_compute; reflexivity|].
  destruct (@mock_replies_not_recorded (boot env_mock)
              [str "hello"; str " meal plan for my kid "]
              (init env_key) (str "hi")
              (FetchRejects (Error (str "Failed to fetch"))) I)
    as (_ & _ & s' & R & H & _);
    try (vm_compute; reflexivity).
  exists s'. split; [exact R|]. rewrite H. vm_compute. reflexivity.
Defined.

Lemma answered_turns (subs : list (jsstring * Exchange)) :
  forallb (fun sub => negb (request_raises (snd sub))) subs = true ->
  flat_map (submission_turns false) subs
  = flat_map (fun sub => [user_turn (trim (fst sub));
                          assistant_turn (reply_value (fst sub) (snd sub))])
      subs.
Proof.
  induction subs as [|[t x] subs IH]; simpl; [reflexivity|].
  intros H. apply andb_true_iff in H. destruct H as (A & H).
  rewrite (IH H). unfold submission_turns, reply_value, request_raises in *.
  simpl in *. destruct (delivered x); [reflexivity|discriminate].
Qed.

Lemma length_pairs {A B} (f g : A -> B) (l : list A) :
  List.length (flat_map (fun a => [f a; g a]) l) = 2 * List.length l.
Proof. induction l; simpl; [reflexivity|]. rewrite IHl. lia. Qed.

(** C1, as the script has it.  After [n] accepted submissions, each run to
    its end on a page that was idle, the transcript has grown by one user
    turn per submission, in the order of the submissions, each followed by
    an assistant turn exactly when the endpoint delivered the reply; a reply
    of the canned responder (mock mode, no credential, failed request) adds
    none.  When the endpoint delivered every reply the transcript has grown
    by [2n] turns, user and assistant in alternation. *)
Theorem transcript_after_submissions
        (s : Sys) (subs : list (jsstring * Exchange)) :
  idle s -> forallb (fun sub => negb (blank (fst sub))) subs = true ->
  exists s',
    run (flat_map (submission_events (mock_mode (world s))) subs) s = Some s'
    /\ idle s'
    /\ conversationHistory (state (world s'))
       = conversationHistory (state (world s))
         ++ flat_map (submission_turns (mock_mode (world s))) subs
    /\ (mock_mode (world s) = false ->
        forallb (fun sub => negb (request_raises (snd sub))) subs = true ->
        conversationHistory (state (world s'))
        = conversationHistory (state (world s))
          ++ flat_map (fun sub =>
                         [user_turn (trim (fst sub));
                          assistant_turn (reply_value (fst sub) (snd sub))])
               subs
        /\ List.length (conversationHistory (state (world s')))
           = List.length (conversationHistory (state (world s)))
             + 2 * List.length subs).
Proof.
  intros I NB. destruct (run_submissions _ I NB) as (s' & R & I' & _ & H).
  exists s'. split; [exact R|]. split; [exact I'|]. split; [exact H|].
  intros Mk Ok. rewrite Mk in H. rewrite (answered_turns _ Ok) in H.
  split; [exact H|]. rewrite H, length_app, length_pairs. reflexivity.
Qed.

Lemma transcript_after_submissions_witness :
  idle (boot env_key)
  /\ exists s',
       run [Input (str "plan my week"); Send; Settle 0 (Response true);
            Settle 0 (Body (completion (JString (str "Here is your plan."))));
            Input (str "thanks"); Send;
            Settle 0 (Rejected (Error (str "Failed to fetch")))]
         (boot env_key) = Some s'
       /\ conversationHistory (state (world s'))
          = [user_turn (str "plan my week");
             assistant_turn (JString (str "Here is your plan."));
             user_turn (str "thanks")].
Proof.
  assert (I : idle (boot env_key)) by (split; reflexivity).
  split; [exact I|].
  destruct (@transcript_after_submissions (boot env_key)
              [(str "plan my week",
                SuccessStatus
                  (inr (completion (JString (str "Here is your plan.")))));
               (str "thanks", FetchRejects (Error (str "Failed to fetch")))]
              I eq_refl)
    as (s' & R & _ & H & _).
  exists s'. split; [exact R|]. rewrite H. vm_compute. reflexivity.
Defined.

(** One accepted submission in mock mode: the page shows the user's message
    and the canned reply, the transcript holds one turn, not two. *)
Lemma transcript_after_mock_submission :
  exists s,
    run [Input (str "hello"); Send] (boot env_mock) = Some s
    /\ idle s
    /\ conversation_children (dom (world s))
       = [{| isUser := true; body := TextContent (JString (str "hello")) |};
          {| isUser := false;
             body := TextContent (JString TEMPLATE_DEFAULT) |}]
    /\ conversationHistory (state (world s)) = [user_turn (str "hello")]
    /\ List.length (conversationHistory (state (world s))) <> 2 * 1.
Proof.
  eexists. split; [vm_compute; reflexivity|].
  split; [split; reflexivity|].
  split; [vm_compute; reflexivity|]. split; [reflexivity|]. discriminate.
Qed.

Lemma request_after_submissions
      (s : Sys) (subs : list (jsstring * Exchange)) (t : jsstring) :
  idle s -> mock_mode (world s) = false ->
  forallb (fun sub => negb (blank (fst sub))) subs = true ->
  blank t = false ->
  exists s' older req,
    run (flat_map (submission_events false) subs ++ [Input t; Send]) s
    = Some s'
    /\ fetched (world s') = older ++ [req]
    /\ messages req
       = system_turn :: conversationHistory (state (world s))
         ++ flat_map (submission_turns false) subs ++ [user_turn (trim t)].
Proof.
  intros I Mk NB B.
  destruct (run_submissions _ I NB) as (s1 & R & (T1 & L1) & C & H).
  rewrite Mk in R, H. rewrite run_app, R. cbn [run step world tasks].
  set (w0 := with_dom (set_textInput t) (world s1)).
  assert (M1 : mock_mode w0 = false)
    by (unfold mock_mode in *; cbn [w0 CONFIG with_dom]; now rewrite C).
  destruct (@handleSubmit_network w0 B L1 M1) as (w1 & -> & _ & _ & _ & F).
  do 3 eexists. split; [reflexivity|]. split; [exact F|].
  cbn [messages w0 state with_dom dom set_textInput textInput_value].
  rewrite H, <- app_assoc. reflexivity.
Qed.

(** C2, as the script has it.  The request of an accepted submission
    carries the system prompt, then the whole transcript as it stands, then
    the new user turn, in that order: after [n-1] completed submissions that
    is the system prompt, the turns those submissions left in the
    transcript, and the new user turn.  For two submissions in a row whose
    first reply the endpoint delivered, the second request carries the
    system prompt, the first user turn, the first assistant turn and the
    second user turn after whatever the transcript held before; on a fresh
    page it is exactly those four. *)
Theorem request_carries_transcript
        (s : Sys) (subs : list (jsstring * Exchange))
        (t1 t2 : jsstring) (x : Exchange) (c1 : JsValue) :
  idle s -> mock_mode (world s) = false ->
  forallb (fun sub => negb (blank (fst sub))) subs = true ->
  blank t1 = false -> blank t2 = false -> delivered x = Some c1 ->
  (exists s' older req,
     run (flat_map (submission_events false) subs ++ [Input t2; Send]) s
     = Some s'
     /\ fetched (world s') = older ++ [req]
     /\ messages req
        = system_turn :: conversationHistory (state (world s))
          ++ flat_map (submission_turns false) subs ++ [user_turn (trim t2)])
  /\ (exists s2 older req,
        run (submission_events false (t1, x) ++ [Input t2; Send]) s = Some s2
        /\ fetched (world s2) = older ++ [req]
        /\ messages req
           = system_turn :: conversationHistory (state (world s))
             ++ [user_turn (trim t1); assistant_turn c1;
                 user_turn (trim t2)]).
Proof.
  intros I Mk NB B1 B2 Dl. split.
  - exact (@request_after_submissions s subs t2 I Mk NB B2).
  - assert (NB1 : forallb (fun sub => negb (blank (fst sub))) [(t1, x)] = true)
      by (simpl; now rewrite B1).
    destruct (@request_after_submissions s [(t1, x)] t2 I Mk NB1 B2)
      as (s2 & older & req & R & F & Ms).
    exists s2, older, req. cbn [flat_map] in R. rewrite app_nil_r in R.
    split; [exact R|]. split; [exact F|].
    rewrite Ms. unfold submission_turns. cbn [flat_map fst snd app].
    now rewrite Dl.
Qed.

Lemma request_carries_transcript_witness :
  idle (boot env_key)
  /\ exists s2 older req,
       run [Input (str "plan my week"); Send; Settle 0 (Response true);
            Settle 0 (Body (completion (JString (str "Here is your plan."))));
            Input (str "thanks"); Send]
         (boot env_key) = Some s2
       /\ fetched (world s2) = older ++ [req]
       /\ messages req
          = [system_turn; user_turn (str "plan my week");
             assistant_turn (JString (str "Here is your plan."));
             user_turn (str "thanks")].
Proof.
  assert (I : idle (boot env_key)) by (split; reflexivity).
  split; [exact I|].
  destruct (@request_carries_transcript (boot env_key)
              [(str "hi", FetchRejects (Error (str "Failed to fetch")))]
              (str "plan my week") (str "thanks")
              (SuccessStatus
                 (inr (completion (JString (str "Here is your plan.")))))
              (JString (str "Here is your plan.")) I)
    as (_ & s2 & older & req & R & F & Ms);
    try (vm_compute; reflexivity).
  exists s2, older, req. split; [exact R|]. split; [exact F|].
  rewrite Ms. vm_compute. reflexivity.
Defined.

(** Two submissions in a row whose first reply came from the canned
    responder, the request having failed: the page shows that reply between
    the two user messages, the second request does not carry it. *)
Lemma second_request_after_fallback :
  exists s,
    run [Input (str "hi"); Send;
         Settle 0 (Rejected (Error (str "Failed to fetch")));
         Input (str "plan my week"); Send]
      (boot env_key) = Some s
    /\ conversation_children (dom (world s))
       = [{| isUser := true; body := TextContent (JString (str "hi")) |};
          {| isUser := false;
             body := TextContent (JString TEMPLATE_DEFAULT) |};
          {| isUser := true;
             body := TextContent (JString (str "plan my week")) |}]
    /\ map messages (fetched (world s))
       = [[system_turn; user_turn (str "hi")];
          [system_turn; user_turn (str "hi"); user_turn (str "plan my week")]]
    /\ nth 1 (map messages (fetched (world s))) []
       <> [system_turn; user_turn (str "hi");
           assistant_turn (JString TEMPLATE_DEFAULT);
           user_turn (str "plan my week")].
Proof.
  eexists. split; [vm_compute; reflexivity|].
  split; [vm_compute; reflexivity|]. split; [vm_compute; reflexivity|].
  vm_compute. discriminate.
Qed.

(** ** Instances of the rejections and of the mock call *)

Lemma handleSubmit_blank_rejected_witness :
  blank (textInput_value (dom (world blank_page))) = true
  /\ exists w',
       step Send blank_page = Some {| world := w'; tasks := tasks blank_page |}
       /\ conversationHistory (state w') = []
       /\ isLoading (state w') = false
       /\ status_textContent (dom w') = VALIDATION_MESSAGE.
Proof.
  split; [reflexivity|].
  destruct (@handleSubmit_blank_rejected blank_page eq_refl)
    as (w' & _ & St & H & L & _ & _ & _ & _ & _ & Msg & _).
  exists w'. split; [exact St|]. split; [exact H|]. split; [exact L|exact Msg].
Defined.

Lemma handleSubmit_busy_rejected_witness :
  isLoading (state (world busy_page)) = true
  /\ blank (textInput_value (dom (world busy_page))) = false
  /\ step Send busy_page = Some busy_page.
Proof.
  assert (L : isLoading (state (world busy_page)) = true)
    by (vm_compute; reflexivity).
  split; [exact L|]. split; [vm_compute; reflexivity|].
  destruct (@handleSubmit_busy_rejected busy_page L)
    as (w' & _ & St & _ & _ & _ & _ & _ & _ & Same).
  rewrite St, (Same ltac:(vm_compute; reflexivity)). reflexivity.
Defined.

Lemma callAI_without_credential_witness :
  apiKey (CONFIG (init env_mock)) = []
  /\ exists w',
       callAI (str "I want meal prep for my kid") (init env_mock)
       = Settled (Normal (JString TEMPLATE_CHILD) w')
       /\ fetched w' = [].
Proof.
  split; [reflexivity|].
  destruct (@callAI_without_credential (init env_mock) eq_refl)
    as (w' & E & F & _).
  exists w'. split; [exact E|exact F].
Defined.

(* ================================================================= *)
(** * Further properties of the page *)

(** ** Relations every handler keeps *)

Lemma updateStatus_page (msg : jsstring) (w : World) :
  same_page w (updateStatus msg w)
  /\ stored_key (updateStatus msg w) = stored_key w.
Proof.
  unfold same_page, updateStatus. destruct (JsString.truthy msg); simpl.
  - match goal with |- context [if ?c then _ else _] => destruct c end;
      simpl; repeat split; reflexivity.
  - repeat split; reflexivity.
Qed.

Lemma status_timeout_frame (w : World) :
  same_page w (status_timeout w) /\ state (status_timeout w) = state w
  /\ CONFIG (status_timeout w) = CONFIG w
  /\ marked (status_timeout w) = marked w
  /\ fetched (status_timeout w) = fetched w
  /\ stored_key (status_timeout w) = stored_key w.
Proof.
  unfold same_page, status_timeout. destruct (_ && _); simpl;
    repeat split; reflexivity.
Qed.

Create HintDb handlers.

(** A relation between worlds that every elementary write of the script
    keeps is kept by every handler, and so by every event. *)
Section Handlers.

Variable R : World -> World -> Prop.
Hypothesis R_refl : forall w, R w w.
Hypothesis R_trans : forall a b c, R a b -> R b c -> R a c.
Hypothesis R_text : forall v w, R w (with_dom (set_textInput v) w).
Hypothesis R_welcome : forall w, R w (with_dom set_welcome_hidden w).
Hypothesis R_child : forall m w, R w (with_dom (append_child m) w).
Hypothesis R_mic : forall b w, R w (with_dom (set_mic_listening b) w).
Hypothesis R_listening : forall b w, R w (with_state (set_isListening b) w).
Hypothesis R_loading : forall b w, R w (with_state (set_isLoading b) w).
Hypothesis R_push : forall t w, R w (with_state (push_history t) w).
Hypothesis R_fetch :
  forall r w, R w (with_fetched (fun l => l ++ [r]) w).
Hypothesis R_timers : forall f w, R w (with_timers f w).
Hypothesis R_status : forall msg w, R w (updateStatus msg w).
Hypothesis R_timeout : forall w, R w (status_timeout w).

#[local] Hint Resolve R_refl R_text R_welcome R_child R_mic R_listening
  R_loading R_push R_fetch R_timers R_status R_timeout : handlers.

Ltac handler :=
  repeat lazymatch goal with
    | |- keeps R (bind _ _) => apply (@keeps_bind R R_trans); [|intros ?]
    | |- keeps R (try_catch _ _) =>
        apply (@keeps_try_catch R R_trans); [|intros ?]
    | |- keeps R (finally _ _) => apply (@keeps_finally R R_trans)
    | |- keeps R (exec _) => apply keeps_exec; intros ?
    | |- keeps R (ret _) => apply (@keeps_ret R R_refl)
    | |- keeps R (throw _) => apply (@keeps_throw R R_refl)
    | |- _ => progress auto with handlers
    end.

Lemma handler_addMessage (text : JsValue) (is_user : bool) :
  keeps R (addMessage text is_user).
Proof.
  unfold addMessage. handler.
  intros w. destruct is_user; simpl; [apply R_refl|].
  destruct (render_assistant (marked w) text); apply R_refl.
Qed.

Lemma handler_lift_get (r : Exn + JsValue) : keeps R (lift_get r).
Proof. destruct r; simpl; handler. Qed.

#[local] Hint Resolve handler_addMessage handler_lift_get : handlers.

Lemma handler_try_begin (msgs : list Turn) : keeps R (try_begin msgs).
Proof. unfold try_begin. handler. Qed.

Lemma handler_try_response (ok : bool) : keeps R (try_response ok).
Proof. unfold try_response. destruct (negb ok); handler. Qed.

Lemma handler_try_error_body (error : JsValue) :
  keeps R (try_error_body error).
Proof. unfold try_error_body. handler. Qed.

Lemma handler_try_data (data : JsValue) : keeps R (try_data data).
Proof. unfold try_data. handler. Qed.

Lemma handler_callAI_catch (text : jsstring) (e : Exn) :
  keeps R (callAI_catch text e).
Proof.
  intros w. unfold callAI_catch.
  destruct (negb (useMockAI (CONFIG w))); [|apply R_refl].
  revert w. change (keeps R
    (exec (updateStatus (str "API error. Using fallback mode.")) ;;
     ret (JString (getMockAIResponse text)))). handler.
Qed.

Lemma handler_callAI_finally (w : World) : R w (callAI_finally w).
Proof. unfold callAI_finally. eapply R_trans; [apply R_loading|apply R_status]. Qed.

#[local] Hint Resolve handler_try_begin handler_try_response
  handler_try_error_body handler_try_data handler_callAI_catch
  handler_callAI_finally : handlers.

Lemma handler_callAI_try (text : jsstring) (stretch : M TryStep) (w : World) :
  keeps R stretch -> R w (async_world (callAI_try text stretch w)).
Proof.
  intros H. unfold callAI_try. specialize (H w).
  destruct (stretch w) as [[v|p] w'|e w']; simpl in *.
  - eapply R_trans; [exact H|apply handler_callAI_finally].
  - exact H.
  - eapply R_trans; [exact H|].
    assert (K : keeps R (finally (callAI_catch text e) callAI_finally))
      by handler.
    apply K.
Qed.

Lemma handler_callAI (text : jsstring) (w : World) :
  R w (async_world (callAI text w)).
Proof.
  unfold callAI.
  match goal with |- context [if ?c then _ else _] => destruct c end.
  - simpl. apply R_push.
  - eapply R_trans; [apply R_push|].
    apply handler_callAI_try. handler.
Qed.

Lemma handler_callAI_resume (t : Task) (o : Settlement)
      (k : World -> Async JsValue) (w : World) :
  callAI_resume t o = Some k -> R w (async_world (k w)).
Proof.
  unfold callAI_resume. intros H.
  destruct (phase t), o; inversion H; subst; apply handler_callAI_try;
    handler.
Qed.

Lemma handler_handleSubmit_catch (e : Exn) : keeps R (handleSubmit_catch e).
Proof. unfold handleSubmit_catch. handler. Qed.

Lemma handler_handleSubmit_reply (reply : Res JsValue) :
  R (world_of reply) (world_of (handleSubmit_reply reply)).
Proof.
  unfold handleSubmit_reply, try_catch, handleSubmit_try, bind.
  destruct reply as [v w|e w]; simpl.
  - pose proof (handler_addMessage v false w) as H.
    destruct (addMessage v false w) as [[] w'|e w']; simpl in *; [exact H|].
    eapply R_trans; [exact H|apply handler_handleSubmit_catch].
  - apply handler_handleSubmit_catch.
Qed.

Lemma handler_handleSubmit (w : World) :
  R w (submission_world (handleSubmit w)).
Proof.
  unfold handleSubmit.
  destruct (negb _); [apply R_status|].
  destruct (isLoading (state w)); [apply R_refl|].
  match goal with |- context [match ?m w with _ => _ end] =>
    assert (K : keeps R m) by handler; specialize (K w);
    destruct (m w) as [[] w1|e w1] end; simpl in *; [|exact K].
  pose proof (handler_callAI (trim (textInput_value (dom w))) w1) as H.
  destruct (callAI _ w1) as [reply|t w2]; simpl in *.
  - eapply R_trans; [exact K|].
    eapply R_trans; [exact H|apply handler_handleSubmit_reply].
  - eapply R_trans; eassumption.
Qed.

Lemma handler_stopListening (r : option Exn) : keeps R (stopListening r).
Proof.
  intros w. unfold stopListening.
  destruct (recognition (state w)); [|apply R_refl].
  destruct (isListening (state w)); [|apply R_refl].
  revert w.
  change (keeps R
    (try_catch (recognition_call r) (fun _ => ret tt) ;;
     exec (with_state (set_isListening false)) ;;
     exec (with_dom (set_mic_listening false)))).
  handler. destruct r; simpl; handler.
Qed.

Lemma handler_startListening (r : option Exn) : keeps R (startListening r).
Proof.
  intros w. unfold startListening.
  destruct (recognition (state w)); [|apply R_status].
  revert w.
  match goal with |- forall w, R w (world_of (?m w)) =>
    change (keeps R m) end.
  handler. destruct r; simpl; handler.
Qed.

Lemma step_keeps (ev : Event) (s s' : Sys) :
  step ev s = Some s' -> R (world s) (world s').
Proof.
  destruct ev; simpl.
  - intros [= <-]. apply R_text.
  - pose proof (handler_handleSubmit (world s)) as H.
    destruct (handleSubmit (world s)); intros [= <-]; exact H.
  - intros [= <-]. simpl. destruct (isListening (state (world s)));
      [apply handler_stopListening|apply handler_startListening].
  - intros [= <-]. simpl. destruct (isListening (state (world s)));
      [apply handler_stopListening|apply R_refl].
  - destruct (recognition (state (world s))); intros [= <-]. simpl.
    eapply R_trans; [apply R_text|apply R_status].
  - destruct (recognition (state (world s))); intros [= <-]. simpl.
    eapply R_trans; [apply R_status|apply handler_stopListening].
  - destruct (recognition (state (world s))); intros [= <-].
    apply handler_stopListening.
  - destruct (timers (world s)); intros [= <-]. simpl.
    eapply R_trans; [apply R_timers|apply R_timeout].
  - destruct (nth_error (tasks s) i) as [t|]; [|discriminate].
    destruct (callAI_resume t o) as [k|] eqn:K; [|discriminate].
    pose proof (handler_callAI_resume t o (world s) K) as H.
    destruct (k (world s)) as [reply|t' w']; intros [= <-]; simpl in *.
    + eapply R_trans; [exact H|apply handler_handleSubmit_reply].
    + exact H.
Qed.

Lemma run_keeps (evs : list Event) (s s' : Sys) :
  run evs s = Some s' -> R (world s) (world s').
Proof.
  revert s. induction evs as [|ev evs IH]; simpl; intros s.
  - intros [= <-]. apply R_refl.
  - destruct (step ev s) as [s1|] eqn:E; [|discriminate].
    intros H. eapply R_trans; [exact (step_keeps _ _ E)|exact (IH _ H)].
Qed.

End Handlers.

(** ** What start-up installs *)

Lemma installed_refl (w : World) : installed w w.
Proof. unfold installed. auto. Qed.

Lemma installed_trans (a b c : World) :
  installed a b -> installed b c -> installed a c.
Proof. unfold installed. intuition congruence. Qed.

Lemma installed_updateStatus (msg : jsstring) (w : World) :
  installed w (updateStatus msg w).
Proof.
  destruct (updateStatus_frame msg w) as (S & C & _ & M & _).
  destruct (updateStatus_page msg w) as ((_ & _ & _ & _ & H) & K).
  unfold installed. rewrite S, C, M, H, K. auto.
Qed.

Lemma installed_status_timeout (w : World) : installed w (status_timeout w).
Proof.
  destruct (status_timeout_frame w) as ((_ & _ & _ & _ & H) & S & C & M & _ & K).
  unfold installed. rewrite S, C, M, H, K. auto.
Qed.

Lemma run_installed (evs : list Event) (s s' : Sys) :
  run evs s = Some s' -> installed (world s) (world s').
Proof.
  apply run_keeps; try (intros; unfold installed; simpl; tauto).
  - apply installed_trans.
  - apply installed_updateStatus.
  - apply installed_status_timeout.
Qed.

Lemma initSpeechRecognition_frame (env : BootEnv) (w : World) :
  CONFIG (initSpeechRecognition env w) = CONFIG w
  /\ stored_key (initSpeechRecognition env w) = stored_key w
  /\ marked (initSpeechRecognition env w) = marked w.
Proof.
  unfold initSpeechRecognition. destruct (negb (speech_supported env)); auto.
Qed.

Lemma checkConfiguration_spec (env : BootEnv) (w : World) :
  let w' := checkConfiguration env w in
  (JsString.truthy (apiKey (CONFIG w)) || useMockAI (CONFIG w) = true ->
   CONFIG w' = CONFIG w /\ stored_key w' = stored_key w)
  /\ (JsString.truthy (apiKey (CONFIG w)) || useMockAI (CONFIG w) = false ->
      match prompt_reply env with
      | Some k =>
          if JsString.truthy k && JsString.truthy (trim k)
          then CONFIG w' = set_apiKey (trim k) (CONFIG w)
               /\ stored_key w' = Some (trim k)
          else CONFIG w' = set_useMockAI true (CONFIG w)
               /\ stored_key w' = stored_key w
      | None => CONFIG w' = set_useMockAI true (CONFIG w)
                /\ stored_key w' = stored_key w
      end).
Proof.
  unfold checkConfiguration.
  destruct (JsString.truthy (apiKey (CONFIG w))) eqn:T;
    destruct (useMockAI (CONFIG w)) eqn:U; simpl;
    (split; [intros H|intros H]); try discriminate;
    try destruct (prompt_reply env) as [k|];
    try destruct (JsString.truthy k && JsString.truthy (trim k));
    rewrite updateStatus_CONFIG;
    match goal with |- context [stored_key (updateStatus ?m ?x)] =>
      destruct (updateStatus_page m x) as (_ & ->) end;
    split; reflexivity.
Qed.

Lemma init_CONFIG (env : BootEnv) :
  useMockAI (CONFIG (init env))
  = negb (JsString.truthy (apiKey (CONFIG (init env))))
  /\ apiEndpoint (CONFIG (init env))
     = str "https://api.openai.com/v1/chat/completions"
  /\ model (CONFIG (init env)) = str "gpt-4o".
Proof.
  unfold init.
  destruct (initSpeechRecognition_frame env (initial env)) as (C & _).
  destruct (checkConfiguration_spec env (initSpeechRecognition env (initial env)))
    as (Keep & Ask).
  rewrite C in Keep, Ask. cbn [initial CONFIG useMockAI apiKey] in Keep, Ask.
  rewrite orb_false_r in Keep, Ask.
  destruct (JsString.truthy
              match local_key env with
              | Some k => if JsString.truthy k then k else []
              | None => []
              end) eqn:T.
  - destruct (Keep eq_refl) as (-> & _). simpl. rewrite T. auto.
  - specialize (Ask eq_refl).
    destruct (prompt_reply env) as [k|];
      [destruct (JsString.truthy k && JsString.truthy (trim k)) eqn:P|];
      destruct Ask as (-> & _); simpl; rewrite ?T; auto.
    apply andb_true_iff in P. destruct P as (_ & ->). auto.
Qed.

Lemma reaches_reachable (env : BootEnv) (s : Sys) :
  reaches env s -> reachable s.
Proof. intros (evs & H). now exists env, evs. Qed.

Lemma reaches_installed (env : BootEnv) (s : Sys) :
  reaches env s -> installed (init env) (world s).
Proof. intros (evs & H). exact (run_installed _ _ H). Qed.

(** X1.  From the end of [init] on, whatever events follow, [CONFIG] is what
    [init] left, and in it [useMockAI] is set exactly when [apiKey] is
    empty: the test [CONFIG.useMockAI || !CONFIG.apiKey] of [callAI] is then
    decided by [useMockAI] alone. *)
Theorem mock_exactly_without_credential (env : BootEnv) (s : Sys) :
  reaches env s ->
  CONFIG (world s) = CONFIG (init env)
  /\ useMockAI (CONFIG (world s))
     = negb (JsString.truthy (apiKey (CONFIG (world s))))
  /\ mock_mode (world s) = useMockAI (CONFIG (world s)).
Proof.
  intros Rs. destruct (reaches_installed Rs) as (C & _).
  destruct (init_CONFIG env) as (U & _).
  split; [exact C|]. rewrite C. split; [exact U|].
  unfold mock_mode. rewrite C, U. apply orb_diag.
Qed.

Lemma mock_exactly_without_credential_witness :
  reaches env_key waiting_page
  /\ useMockAI (CONFIG (world waiting_page)) = false
  /\ mock_mode (world waiting_page) = useMockAI (CONFIG (world waiting_page)).
Proof.
  assert (R : reaches env_key waiting_page)
    by (exists [Input (str "plan my week"); Send]; vm_compute; reflexivity).
  split; [exact R|]. split; [vm_compute; reflexivity|].
  apply (mock_exactly_without_credential R).
Defined.

Lemma init_stored_key (env : BootEnv) :
  JsString.truthy (apiKey (CONFIG (init env))) = true ->
  stored_key (init env) = Some (apiKey (CONFIG (init env))).
Proof.
  unfold init.
  destruct (initSpeechRecognition_frame env (initial env)) as (C & K & _).
  destruct (checkConfiguration_spec env (initSpeechRecognition env (initial env)))
    as (Keep & Ask).
  rewrite C in Keep, Ask. rewrite K in Keep, Ask.
  cbn [initial CONFIG useMockAI apiKey stored_key] in Keep, Ask.
  rewrite orb_false_r in Keep, Ask.
  destruct (local_key env) as [k0|]; [destruct (JsString.truthy k0) eqn:T0|].
  - rewrite T0 in Keep. destruct (Keep eq_refl) as (-> & ->). reflexivity.
  - specialize (Ask eq_refl).
    destruct (prompt_reply env) as [k|];
      [destruct (JsString.truthy k && JsString.truthy (trim k))|];
      destruct Ask as (-> & ->); simpl; intros; try discriminate;
      reflexivity.
  - specialize (Ask eq_refl).
    destruct (prompt_reply env) as [k|];
      [destruct (JsString.truthy k && JsString.truthy (trim k))|];
      destruct Ask as (-> & ->); simpl; intros; try discriminate;
      reflexivity.
Qed.

Lemma init_with_stored_key (env : BootEnv) (k : jsstring) :
  local_key env = Some k -> JsString.truthy k = true ->
  apiKey (CONFIG (init env)) = k /\ stored_key (init env) = Some k.
Proof.
  intros L T. unfold init.
  destruct (initSpeechRecognition_frame env (initial env)) as (C & K & _).
  destruct (checkConfiguration_spec env (initSpeechRecognition env (initial env)))
    as (Keep & _).
  rewrite C, K in Keep.
  cbn [initial CONFIG useMockAI apiKey stored_key] in Keep.
  rewrite L, T, T in Keep. destruct (Keep eq_refl) as (-> & ->). auto.
Qed.

Lemma Config_eq (c c' : Config) :
  apiKey c = apiKey c' -> apiEndpoint c = apiEndpoint c' ->
  model c = model c' -> useMockAI c = useMockAI c' -> c = c'.
Proof. destruct c, c'; simpl; intros; subst; reflexivity. Qed.

(** X2.  A credential survives a reload.  When the page holds a credential,
    at any moment after [init], the store holds the same one, and a page
    that starts up from that store gets the same [CONFIG] whatever its
    prompt would answer: the prompt is not consulted, and the store is left
    as it is. *)
Theorem credential_survives_reload (env env' : BootEnv) (s : Sys) :
  reaches env s ->
  JsString.truthy (apiKey (CONFIG (world s))) = true ->
  local_key env' = stored_key (world s) ->
  stored_key (world s) = Some (apiKey (CONFIG (world s)))
  /\ CONFIG (init env') = CONFIG (world s)
  /\ stored_key (init env') = stored_key (world s).
Proof.
  intros Rs T L. destruct (reaches_installed Rs) as (C & _ & _ & _ & K).
  rewrite C, K in *. pose proof (init_stored_key env T) as S.
  rewrite S in L. destruct (init_with_stored_key env' L T) as (A & S').
  split; [exact S|]. split; [|now rewrite S', S].
  destruct (init_CONFIG env) as (U & E & M).
  destruct (init_CONFIG env') as (U' & E' & M').
  apply Config_eq; try congruence.
Qed.

Lemma credential_survives_reload_witness :
  reaches env_prompted (boot env_prompted)
  /\ apiKey (CONFIG (init env_prompted)) = str "sk-typed"
  /\ local_key env_reloaded = stored_key (init env_prompted)
  /\ CONFIG (init env_reloaded) = CONFIG (init env_prompted).
Proof.
  assert (R : reaches env_prompted (boot env_prompted))
    by (exists []; reflexivity).
  split; [exact R|]. split; [vm_compute; reflexivity|].
  split; [vm_compute; reflexivity|].
  apply (@credential_survives_reload env_prompted env_reloaded
           (boot env_prompted) R); vm_compute; reflexivity.
Defined.

Lemma checkConfiguration_frame (env : BootEnv) (w : World) :
  state (checkConfiguration env w) = state w
  /\ same_page w (checkConfiguration env w)
  /\ marked (checkConfiguration env w) = marked w
  /\ fetched (checkConfiguration env w) = fetched w.
Proof.
  unfold checkConfiguration.
  repeat match goal with
         | |- context [if ?c then _ else _] => destruct c
         | |- context [match prompt_reply env with _ => _ end] =>
             destruct (prompt_reply env)
         end;
    match goal with |- context [updateStatus ?m ?x] =>
      destruct (updateStatus_frame m x) as (S & _ & F & M & _);
      destruct (updateStatus_page m x) as (P & _)
    end; rewrite S, F, M; (split; [|split; [|split]]);
    try reflexivity; exact P.
Qed.

Lemma init_speech (env : BootEnv) :
  mic_hidden (dom (init env)) = negb (speech_supported env)
  /\ (recognition (state (init env)) = None <-> speech_supported env = false)
  /\ isListening (state (init env)) = false
  /\ mic_listening (dom (init env)) = false.
Proof.
  unfold init.
  destruct (checkConfiguration_frame env (initSpeechRecognition env (initial env)))
    as (-> & (_ & _ & _ & -> & ->) & _).
  unfold initSpeechRecognition.
  destruct (speech_supported env); simpl; repeat split; congruence.
Qed.

(** X3.  The microphone button is hidden exactly when the browser has no
    speech recognition, which is exactly when no recognition object exists,
    and that stays so whatever events follow.  On such a page the adapter
    never listens, and a click on the microphone only reports that speech
    recognition is not available. *)
Theorem microphone_hidden_without_speech (env : BootEnv) (s : Sys) :
  reaches env s ->
  mic_hidden (dom (world s)) = negb (speech_supported env)
  /\ (recognition (state (world s)) = None <-> speech_supported env = false)
  /\ (speech_supported env = false ->
      isListening (state (world s)) = false
      /\ forall raises,
           exists s',
             step (MicClick raises) s = Some s'
             /\ isListening (state (world s')) = false
             /\ status_textContent (dom (world s'))
                = str "Speech recognition not available in this browser.").
Proof.
  intros Rs. destruct (reaches_installed Rs) as (_ & _ & Rc & Mh & _).
  destruct (init_speech env) as (H & N & _).
  destruct (reachable_Inv (reaches_reachable Rs)) as (I & _).
  rewrite Mh, Rc. split; [exact H|]. split; [exact N|].
  intros U. apply N in U. rewrite <- Rc in U.
  assert (L : isListening (state (world s)) = false).
  { destruct (isListening (state (world s))); [|reflexivity].
    now destruct (I eq_refl). }
  split; [exact L|]. intros raises. eexists. split; [reflexivity|].
  cbn [world]. rewrite L. unfold startListening. rewrite U.
  cbn [exec world_of]. rewrite updateStatus_state.
  split; [exact L|]. apply (updateStatus_frame _ _).
Qed.

Lemma microphone_hidden_without_speech_witness :
  reaches env_strict (boot env_strict)
  /\ speech_supported env_strict = false
  /\ mic_hidden (dom (init env_strict)) = true
  /\ isListening (state (init env_strict)) = false.
Proof.
  assert (R : reaches env_strict (boot env_strict))
    by (exists []; reflexivity).
  split; [exact R|]. split; [reflexivity|].
  destruct (microphone_hidden_without_speech R) as (H & _ & L).
  split; [exact H|]. exact (proj1 (L eq_refl)).
Defined.

(** ** The status line *)

Lemma preserves_refl (P : World -> Prop) (w : World) : preserves P w w.
Proof. unfold preserves. auto. Qed.

Lemma preserves_trans (P : World -> Prop) (a b c : World) :
  preserves P a b -> preserves P b c -> preserves P a c.
Proof. unfold preserves. auto. Qed.

Lemma run_status_coherent (evs : list Event) (s s' : Sys) :
  run evs s = Some s' -> status_coherent (world s) ->
  status_coherent (world s').
Proof.
  apply (@run_keeps (preserves status_coherent));
    try (intros; unfold preserves, status_coherent; simpl; tauto).
  - apply preserves_trans.
  - intros msg w _. unfold status_coherent.
    destruct (updateStatus_frame msg w) as (_ & _ & _ & _ & _ & _ & T & A).
    rewrite T, A. reflexivity.
  - intros w. unfold preserves, status_coherent, status_timeout.
    destruct (_ && _); simpl; auto.
Qed.

Lemma init_status_coherent (env : BootEnv) : status_coherent (init env).
Proof.
  unfold init, checkConfiguration, status_coherent.
  repeat match goal with
         | |- context [if ?c then _ else _] => destruct c
         | |- context [match prompt_reply env with _ => _ end] =>
             destruct (prompt_reply env)
         end;
    match goal with |- context [updateStatus ?m ?x] =>
      destruct (updateStatus_frame m x) as (_ & _ & _ & _ & _ & _ & T & A)
    end; rewrite T, A; reflexivity.
Qed.

(** X5.  In every state of the page the status line carries the class
    [active] exactly when its text is not empty; a status timeout that
    fires while the adapter listens or a request is in flight leaves the
    line as it is. *)
Theorem status_class_follows_text (env : BootEnv) (s : Sys) :
  reaches env s ->
  status_active (dom (world s))
  = JsString.truthy (status_textContent (dom (world s)))
  /\ (isListening (state (world s)) || isLoading (state (world s)) = true ->
      forall s', step Timeout s = Some s' ->
                 dom (world s') = dom (world s)).
Proof.
  intros (evs & H). split.
  - exact (run_status_coherent _ _ H (init_status_coherent env)).
  - intros B s'. simpl. destruct (timers (world s)); [discriminate|].
    intros [= <-]. simpl. unfold status_timeout. simpl.
    destruct (isListening (state (world s))), (isLoading (state (world s)));
      try discriminate; reflexivity.
Qed.

Lemma status_class_follows_text_witness :
  reaches env_key waiting_page
  /\ status_textContent (dom (world waiting_page)) = str "Thinking..."
  /\ status_active (dom (world waiting_page)) = true.
Proof.
  assert (R : reaches env_key waiting_page)
    by (exists [Input (str "plan my week"); Send]; vm_compute; reflexivity).
  split; [exact R|]. split; [vm_compute; reflexivity|].
  destruct (status_class_follows_text R) as (-> & _). vm_compute. reflexivity.
Defined.

(** ** Append-only lists *)

Lemma grows_refl (w : World) : grows w w.
Proof. repeat split; exists []; now rewrite app_nil_r. Qed.

Lemma grows_trans (a b c : World) : grows a b -> grows b c -> grows a c.
Proof.
  intros ((t1 & H1) & (d1 & D1) & (r1 & F1)) ((t2 & H2) & (d2 & D2) & (r2 & F2)).
  repeat split; [exists (t1 ++ t2)|exists (d1 ++ d2)|exists (r1 ++ r2)];
    rewrite app_assoc; congruence.
Qed.

Lemma grows_same (w w' : World) :
  conversationHistory (state w') = conversationHistory (state w) ->
  conversation_children (dom w') = conversation_children (dom w) ->
  fetched w' = fetched w -> grows w w'.
Proof.
  intros H D F. repeat split; exists []; rewrite app_nil_r; assumption.
Qed.

Lemma run_grows (evs : list Event) (s s' : Sys) :
  run evs s = Some s' -> grows (world s) (world s').
Proof.
  apply run_keeps; try (intros; apply grows_same; reflexivity).
  - apply grows_trans.
  - intros m w. repeat split; [exists []|exists [m]|exists []];
      simpl; now rewrite ?app_nil_r.
  - intros t w. repeat split; [exists [t]|exists []|exists []];
      simpl; now rewrite ?app_nil_r.
  - intros r w. repeat split; [exists []|exists []|exists [r]];
      simpl; now rewrite ?app_nil_r.
  - intros msg w. destruct (updateStatus_frame msg w) as (S & _ & F & _ & D & _).
    apply grows_same; [now rewrite S|exact D|exact F].
  - intros w. destruct (status_timeout_frame w) as ((D & _) & S & _ & _ & F & _).
    apply grows_same; [now rewrite S|exact D|exact F].
Qed.

Lemma nth_error_grows {A} (l more : list A) (i : nat) (x : A) :
  nth_error l i = Some x -> nth_error (l ++ more) i = Some x.
Proof.
  intros H. rewrite nth_error_app1; [exact H|].
  apply nth_error_Some. congruence.
Qed.

(** X7.  Over any sequence of events, starting anywhere, the transcript,
    the list of messages on the page and the list of issued requests only
    grow at the end: a turn, a message or a request, once there, keeps its
    position and is never changed or removed. *)
Theorem lists_are_append_only (evs : list Event) (s s' : Sys) :
  run evs s = Some s' ->
  (forall i t,
     nth_error (conversationHistory (state (world s))) i = Some t ->
     nth_error (conversationHistory (state (world s'))) i = Some t)
  /\ (forall i m,
        nth_error (conversation_children (dom (world s))) i = Some m ->
        nth_error (conversation_children (dom (world s'))) i = Some m)
  /\ (forall i r,
        nth_error (fetched (world s)) i = Some r ->
        nth_error (fetched (world s')) i = Some r)
  /\ grows (world s) (world s').
Proof.
  intros H. pose proof (run_grows _ _ H) as G.
  destruct G as ((t & Ht) & (d & Hd) & (r & Hr)).
  rewrite Ht, Hd, Hr.
  repeat split; try (intros; now apply nth_error_grows); eauto.
Qed.

Lemma lists_are_append_only_witness :
  nth_error (conversationHistory (state (world waiting_page))) 0
  = Some (user_turn (str "plan my week"))
  /\ exists s',
       run [Input (str "thanks"); Send; Timeout;
            Settle 0 (Rejected (Error (str "Failed to fetch")))] waiting_page
       = Some s'
       /\ nth_error (conversationHistory (state (world s'))) 0
          = Some (user_turn (str "plan my week")).
Proof.
  split; [vm_compute; reflexivity|].
  destruct (run [Input (str "thanks"); Send; Timeout;
                 Settle 0 (Rejected (Error (str "Failed to fetch")))]
              waiting_page) as [s'|] eqn:H;
    [|vm_compute in H; discriminate].
  exists s'. split; [reflexivity|].
  destruct (lists_are_append_only _ _ H) as (K & _).
  apply K. vm_compute. reflexivity.
Defined.

(** ** What one event does to the conversation *)

Lemma same_page_refl (w : World) : same_page w w.
Proof. unfold same_page. auto. Qed.

Lemma same_page_trans (a b c : World) :
  same_page a b -> same_page b c -> same_page a c.
Proof. unfold same_page. intuition congruence. Qed.

Lemma callAI_finally_page (w : World) : same_page w (callAI_finally w).
Proof.
  unfold callAI_finally.
  destruct (updateStatus_page [] (with_state (set_isLoading false) w)) as (P & _).
  exact P.
Qed.

Lemma stopListening_effect (r : option Exn) (w : World) :
  exists w',
    stopListening r w = Normal tt w'
    /\ fetched w' = fetched w
    /\ conversation_children (dom w') = conversation_children (dom w)
    /\ welcome_hidden (dom w') = welcome_hidden (dom w)
    /\ textInput_value (dom w') = textInput_value (dom w)
    /\ status_textContent (dom w') = status_textContent (dom w)
    /\ ((state w' = state w /\ mic_listening (dom w') = mic_listening (dom w))
        \/ (state w' = set_isListening false (state w)
            /\ mic_listening (dom w') = false)).
Proof.
  unfold stopListening.
  destruct (recognition (state w)); [destruct (isListening (state w))|].
  - destruct r; eexists; (split; [reflexivity|]); simpl;
      repeat split; auto.
  - exists w. repeat split; auto.
  - exists w. repeat split; auto.
Qed.

Lemma startListening_effect (r : option Exn) (w : World) :
  exists w',
    startListening r w = Normal tt w'
    /\ fetched w' = fetched w
    /\ conversation_children (dom w') = conversation_children (dom w)
    /\ welcome_hidden (dom w') = welcome_hidden (dom w)
    /\ textInput_value (dom w') = textInput_value (dom w)
    /\ ((state w' = state w /\ mic_listening (dom w') = mic_listening (dom w))
        \/ (state w' = set_isListening true (state w)
            /\ mic_listening (dom w') = true)).
Proof.
  unfold startListening.
  destruct (recognition (state w)); [destruct r|];
    eexists; (split; [reflexivity|]); cbn [exec world_of];
    match goal with |- context [updateStatus ?m ?x] =>
      destruct (updateStatus_frame m x) as (S & _ & F & _ & D & T & _);
      destruct (updateStatus_page m x) as ((_ & W & _ & Mc & _) & _)
    end; rewrite S, F, D, T, W, Mc; simpl; repeat split; auto.
Qed.

Lemma world_at_call_page (text : jsstring) (w : World) :
  let w' := world_at_call text w in
  conversation_children (dom w')
  = conversation_children (dom w) ++ [user_bubble text]
  /\ welcome_hidden (dom w') = true
  /\ textInput_value (dom w') = []
  /\ mic_listening (dom w') = mic_listening (dom w)
  /\ mic_hidden (dom w') = mic_hidden (dom w).
Proof.
  unfold world_at_call.
  match goal with |- context [updateStatus ?m ?x] =>
    destruct (updateStatus_page m x) as ((D & W & T & Mc & Mh) & _) end.
  cbv zeta. rewrite D, W, T, Mc, Mh. simpl. auto.
Qed.

Lemma world_at_fetch_effect (text : jsstring) (w : World) :
  let w' := world_at_fetch text w in
  state w' = set_isLoading true (push_history (user_turn text) (state w))
  /\ fetched w' = fetched w ++ [request_for w text]
  /\ same_page w w'.
Proof.
  unfold world_at_fetch, try_begin, bind, exec, ret. simpl.
  rewrite ?updateStatus_state, ?updateStatus_CONFIG, ?updateStatus_fetched.
  simpl. split; [reflexivity|]. split; [reflexivity|].
  match goal with |- context [updateStatus ?m ?x] =>
    destruct (updateStatus_page m x) as (P & _) end.
  unfold same_page in *. simpl in *. exact P.
Qed.

(** What the rest of [handleSubmit] does once the call has settled: it
    shows at most one more message, of class [assistant], and touches
    nothing but the page. *)
Lemma handleSubmit_reply_effect (reply : Res JsValue) :
  let w := world_of reply in
  let w' := world_of (handleSubmit_reply reply) in
  view_only w w'
  /\ exists shown,
       conversation_children (dom w')
       = conversation_children (dom w) ++ shown
       /\ Forall (assistant_bubble (marked w)) shown
       /\ welcome_hidden (dom w') = true
       /\ textInput_value (dom w') = textInput_value (dom w)
       /\ mic_listening (dom w') = mic_listening (dom w)
       /\ mic_hidden (dom w') = mic_hidden (dom w).
Proof.
  cbv zeta. split; [apply view_only_handleSubmit_reply|].
  assert (Bubble : forall v r,
             render_assistant (marked (world_of reply)) v = inr r ->
             assistant_bubble (marked (world_of reply))
               {| isUser := false; body := r |}).
  { intros v r R. split; [reflexivity|]. intros N. rewrite N in R.
    simpl in R. inversion R. simpl. eauto. }
  assert (Catch : forall e w1,
             conversation_children (dom w1)
             = conversation_children (dom (world_of reply))
             /\ textInput_value (dom w1)
                = textInput_value (dom (world_of reply))
             /\ mic_listening (dom w1) = mic_listening (dom (world_of reply))
             /\ mic_hidden (dom w1) = mic_hidden (dom (world_of reply)) ->
             marked w1 = marked (world_of reply) ->
             exists shown,
               conversation_children (dom (world_of (handleSubmit_catch e w1)))
               = conversation_children (dom (world_of reply)) ++ shown
               /\ Forall (assistant_bubble (marked (world_of reply))) shown
               /\ welcome_hidden (dom (world_of (handleSubmit_catch e w1))) = true
               /\ textInput_value (dom (world_of (handleSubmit_catch e w1)))
                  = textInput_value (dom (world_of reply))
               /\ mic_listening (dom (world_of (handleSubmit_catch e w1)))
                  = mic_listening (dom (world_of reply))
               /\ mic_hidden (dom (world_of (handleSubmit_catch e w1)))
                  = mic_hidden (dom (world_of reply))).
  { intros e w1 (D & T & Mc & Mh) Mk.
    unfold handleSubmit_catch, bind, exec, addMessage, bind, exec.
    match goal with |- context [updateStatus ?m w1] =>
      set (w2 := updateStatus m w1);
      destruct (updateStatus_page m w1) as ((D2 & W2 & T2 & Mc2 & Mh2) & _);
      pose proof (updateStatus_marked m w1) as Mk2
    end. fold w2 in D2, W2, T2, Mc2, Mh2, Mk2. cbn [marked with_dom].
    rewrite Mk2, Mk.
    destruct (render_assistant (marked (world_of reply)) (JString APOLOGY))
      as [e'|r] eqn:R; cbn [world_of with_dom dom append_child set_welcome_hidden
                              conversation_children welcome_hidden
                              textInput_value mic_listening mic_hidden].
    - exists []. rewrite app_nil_r. repeat split; try congruence. constructor.
    - exists [{| isUser := false; body := r |}].
      repeat split; try congruence.
      constructor; [eapply Bubble; exact R|constructor]. }
  unfold handleSubmit_reply, try_catch, handleSubmit_try, bind.
  destruct reply as [v w|e w]; cbn [world_of] in *.
  - unfold addMessage, bind, exec. cbn [marked with_dom].
    destruct (render_assistant (marked w) v) as [e|r] eqn:R.
    + apply Catch; [|reflexivity]. simpl. auto.
    + exists [{| isUser := false; body := r |}]. simpl.
      repeat split; auto. constructor; [eapply Bubble; exact R|constructor].
  - apply Catch; [auto|reflexivity].
Qed.

(** What a call that settles has done to the world it was resumed in: it
    cleared the busy flag, appended the delivered content if there was one,
    and changed nothing else but the status line. *)
Lemma callAI_try_effect (text : jsstring) (stretch : M TryStep)
      (w : World) (reply : Res JsValue) :
  callAI_try text stretch w = Settled reply ->
  (exists e, stretch w = Throws e w)
  \/ (exists c, stretch w
                = Normal (Return c)
                    (with_state (push_history (assistant_turn c)) w)) ->
  exists delivered : option JsValue,
    state (world_of reply)
    = set_isLoading false
        match delivered with
        | Some c => push_history (assistant_turn c) (state w)
        | None => state w
        end
    /\ fetched (world_of reply) = fetched w
    /\ marked (world_of reply) = marked w
    /\ same_page w (world_of reply).
Proof.
  unfold callAI_try. intros E [(e & S)|(c & S)]; rewrite S in E;
    inversion E; subst reply; clear E.
  - exists None. unfold finally, callAI_catch.
    destruct (negb (useMockAI (CONFIG w))); cbn [bind exec ret throw world_of];
      match goal with |- context [callAI_finally ?x] =>
        destruct (callAI_finally_state x) as (A & _ & F & Mk);
        pose proof (callAI_finally_page x) as P
      end; rewrite A, F, Mk.
    + rewrite updateStatus_state, updateStatus_fetched, updateStatus_marked.
      do 3 (split; [reflexivity|]).
      eapply same_page_trans; [|exact P]. apply updateStatus_page.
    + do 3 (split; [reflexivity|]). exact P.
  - exists (Some c). unfold finally. cbn [ret world_of].
    match goal with |- context [callAI_finally ?x] =>
      destruct (callAI_finally_state x) as (A & _ & F & Mk);
      pose proof (callAI_finally_page x) as P
    end. rewrite A, F, Mk. do 3 (split; [reflexivity|]). exact P.
Qed.

Lemma callAI_resume_effect (t : Task) (o : Settlement)
      (k : World -> Async JsValue) (w : World) (reply : Res JsValue) :
  callAI_resume t o = Some k -> k w = Settled reply ->
  exists delivered : option JsValue,
    state (world_of reply)
    = set_isLoading false
        match delivered with
        | Some c => push_history (assistant_turn c) (state w)
        | None => state w
        end
    /\ fetched (world_of reply) = fetched w
    /\ marked (world_of reply) = marked w
    /\ same_page w (world_of reply).
Proof.
  unfold callAI_resume. intros K E.
  destruct (phase t), o; inversion K; subst; clear K;
    try (rewrite callAI_try_response in E; discriminate);
    eapply callAI_try_effect; try exact E.
  all: try (left; eexists; reflexivity).
  - left. apply try_error_body_raises.
  - unfold try_data, bind.
    destruct (read_content v) as [e|c]; simpl; eauto.
Qed.

Lemma callAI_resume_suspended_task (t t' : Task) (o : Settlement)
      (k : World -> Async JsValue) (w w' : World) :
  callAI_resume t o = Some k -> k w = Suspended t' w' ->
  phase t = AwaitFetch /\ phase t' <> AwaitFetch
  /\ userMessage t' = userMessage t.
Proof.
  unfold callAI_resume. intros K E.
  destruct (phase t) eqn:P, o; inversion K; subst; clear K;
    try (rewrite callAI_try_response in E; inversion E; subst; simpl;
         destruct ok; repeat split; discriminate || reflexivity);
    unfold callAI_try in E;
    try (simpl in E; discriminate).
  - destruct (try_error_body_raises v w) as (e & R). rewrite R in E.
    discriminate.
  - unfold try_data, bind in E.
    destruct (lift_get (read_content v) w) as [c w1|e w1]; simpl in E;
      discriminate.
Qed.

Lemma step_quiet (ev : Event) (s s' : Sys) :
  submits ev = false -> step ev s = Some s' ->
  tasks s' = tasks s
  /\ ((state (world s') = state (world s)
       /\ mic_listening (dom (world s')) = mic_listening (dom (world s)))
      \/ (exists b, state (world s') = set_isListening b (state (world s))
                    /\ mic_listening (dom (world s')) = b))
  /\ fetched (world s') = fetched (world s)
  /\ conversation_children (dom (world s'))
     = conversation_children (dom (world s))
  /\ welcome_hidden (dom (world s')) = welcome_hidden (dom (world s)).
Proof.
  destruct ev; try discriminate; intros _; simpl.
  - (* Input *)
    intros [= <-]. simpl. auto 10.
  - (* MicClick *)
    intros [= <-]. destruct (isListening (state (world s))).
    + destruct (stopListening_effect raises (world s))
        as (w' & -> & F & D & W & _ & _ & Sp).
      cbn [world tasks world_of]. repeat split; auto. destruct Sp; eauto.
    + destruct (startListening_effect raises (world s))
        as (w' & -> & F & D & W & _ & Sp).
      cbn [world tasks world_of]. repeat split; auto. destruct Sp; eauto.
  - (* Focus *)
    intros [= <-]. destruct (isListening (state (world s))).
    + destruct (stopListening_effect stop_raises (world s))
        as (w' & -> & F & D & W & _ & _ & Sp).
      cbn [world tasks world_of]. repeat split; auto. destruct Sp; eauto.
    + simpl. auto 10.
  - (* SpeechResult *)
    destruct (recognition (state (world s))); intros [= <-].
    match goal with |- context [updateStatus ?m ?x] =>
      destruct (updateStatus_frame m x) as (S & _ & F & _ & D & _);
      destruct (updateStatus_page m x) as ((_ & W & _ & Mc & _) & _)
    end.
    cbn [world tasks]. repeat split; auto.
  - (* SpeechError *)
    destruct (recognition (state (world s))); intros [= <-].
    match goal with |- context [stopListening ?r ?x] =>
      destruct (stopListening_effect r x) as (w' & -> & F & D & W & _ & _ & Sp)
    end.
    match goal with H : context [updateStatus ?m ?x] |- _ =>
      destruct (updateStatus_frame m x) as (S1 & _ & F1 & _ & D1 & _);
      destruct (updateStatus_page m x) as ((_ & W1 & _ & Mc1 & _) & _)
    end.
    rewrite S1, Mc1 in Sp.
    cbn [world tasks world_of]. repeat split; try congruence.
    destruct Sp; eauto.
  - (* SpeechEnd *)
    destruct (recognition (state (world s))); intros [= <-].
    destruct (stopListening_effect stop_raises (world s))
      as (w' & -> & F & D & W & _ & _ & Sp).
    cbn [world tasks world_of]. repeat split; auto. destruct Sp; eauto.
  - (* Timeout *)
    destruct (timers (world s)); intros [= <-].
    match goal with |- context [status_timeout ?x] =>
      destruct (status_timeout_frame x) as ((D & W & _ & Mc & _) & S & _ & _ & F & _)
    end.
    cbn [world tasks]. repeat split; auto.
Qed.

(** Every event is one of five transitions of the conversation. *)
Lemma step_Transition (ev : Event) (s s' : Sys) :
  step ev s = Some s' -> Transition s s'.
Proof.
  destruct (submits ev) eqn:Sb.
  2: { intros H. destruct (step_quiet _ _ Sb H) as (T & St & F & D & W).
       now apply T_quiet. }
  destruct ev; try discriminate; simpl.
  - (* Send *)
    destruct (blank (textInput_value (dom (world s)))) eqn:B.
    { rewrite (handleSubmit_blank _ B). intros [= <-].
      destruct (updateStatus_frame VALIDATION_MESSAGE (world s))
        as (S & _ & F & _ & D & _).
      destruct (updateStatus_page VALIDATION_MESSAGE (world s))
        as ((_ & W & _ & Mc & _) & _).
      apply T_quiet; simpl; auto. }
    destruct (isLoading (state (world s))) eqn:L.
    { assert (E : handleSubmit (world s) = Finished (Normal tt (world s)))
        by (unfold handleSubmit; rewrite truthy_trim, B, L; reflexivity).
      rewrite E. intros [= <-]. apply T_quiet; simpl; auto. }
    rewrite (handleSubmit_accepted _ B L).
    set (text := trim (textInput_value (dom (world s)))).
    destruct (world_at_call_page text (world s)) as (D0 & W0 & T0 & Mc0 & _).
    destruct (world_at_call_view text (world s)) as (S0 & C0 & F0 & Mk0).
    destruct (mock_mode (world s)) eqn:Mk.
    + rewrite callAI_mock
        by (unfold mock_mode in *; now rewrite C0).
      intros [= <-].
      match goal with |- context [handleSubmit_reply ?r] =>
        destruct (handleSubmit_reply_effect r)
          as ((S1 & _ & F1 & _) & shown & D1 & B1 & W1 & T1 & Mc1 & _)
      end.
      cbn [world_of with_state state fetched dom marked] in *.
      rewrite Mk0 in B1.
      apply T_answered with (text := text) (shown := shown);
        cbn [world tasks]; auto;
        rewrite ?S1, ?F1, ?D1, ?T1, ?Mc1;
        rewrite ?S0, ?F0, ?D0, ?T0, ?Mc0; rewrite <- ?app_assoc; auto.
    + rewrite callAI_network
        by (unfold mock_mode in *; now rewrite C0).
      intros [= <-].
      destruct (world_at_fetch_effect text (world_at_call text (world s)))
        as (S1 & F1 & (D1 & W1 & T1 & Mc1 & _)).
      apply T_sent with (text := text); cbn [world tasks]; auto;
        unfold request_for;
        rewrite ?S1, ?F1, ?D1, ?T1, ?Mc1, ?W1;
        rewrite ?S0, ?F0, ?D0, ?T0, ?Mc0, ?C0; auto.
  - (* Settle *)
    destruct (nth_error (tasks s) i) as [t|] eqn:N; [|discriminate].
    destruct (callAI_resume t o) as [k|] eqn:K; [|discriminate].
    destruct (k (world s)) as [reply|t' w'] eqn:E; intros [= <-].
    + destruct (callAI_resume_effect _ _ _ K E)
        as (delivered & S & F & Mk & (D & _ & T & Mc & _)).
      destruct (handleSubmit_reply_effect reply)
        as ((S1 & _ & F1 & _) & shown & D1 & B1 & W1 & T1 & Mc1 & _).
      rewrite Mk in B1.
      apply T_settled with (i := i) (t := t) (reply := delivered)
                           (shown := shown); cbn [world tasks]; auto;
        rewrite ?S1, ?F1, ?D1, ?T1, ?Mc1;
        rewrite ?S, ?F, ?D, ?T, ?Mc; auto.
    + destruct (callAI_resume_suspended_task _ _ _ K E) as (P & P' & U).
      apply T_resumed with (i := i) (t := t) (t' := t'); cbn [world tasks];
        auto.
      exact (callAI_resume_suspended _ _ _ K E).
Qed.

(** ** Invariants of the conversation *)

Lemma reaches_step (env : BootEnv) (ev : Event) (s s' : Sys) :
  reaches env s -> step ev s = Some s' -> reaches env s'.
Proof.
  intros (evs & H) E. exists (evs ++ [ev]).
  rewrite run_app, H. simpl. now rewrite E.
Qed.

(** Induction on the events that led to a state. *)
Lemma reaches_ind (env : BootEnv) (P : Sys -> Prop) :
  P (boot env) ->
  (forall ev s s', reaches env s -> P s -> step ev s = Some s' -> P s') ->
  forall s, reaches env s -> P s.
Proof.
  intros P0 Pstep s (evs & H). revert s H.
  induction evs as [|ev evs IH] using rev_ind; intros s.
  - simpl. now intros [= <-].
  - rewrite run_app. destruct (run evs (boot env)) as [s1|] eqn:E;
      [|discriminate].
    simpl. destruct (step ev s1) as [s2|] eqn:E2; [|discriminate].
    intros [= <-]. apply (Pstep ev s1 s2); auto. now exists evs.
Qed.

Lemma init_frame (env : BootEnv) :
  state (init env)
  = state (initSpeechRecognition env (initial env))
  /\ conversation_children (dom (init env)) = []
  /\ welcome_hidden (dom (init env)) = false
  /\ textInput_value (dom (init env)) = []
  /\ marked (init env) = renderer env
  /\ fetched (init env) = [].
Proof.
  unfold init.
  destruct (checkConfiguration_frame env (initSpeechRecognition env (initial env)))
    as (-> & (-> & -> & -> & _) & -> & ->).
  unfold initSpeechRecognition. destruct (negb (speech_supported env));
    simpl; auto 10.
Qed.

Lemma init_state (env : BootEnv) :
  conversationHistory (state (init env)) = []
  /\ isLoading (state (init env)) = false.
Proof.
  destruct (init_frame env) as (-> & _).
  unfold initSpeechRecognition. destruct (negb (speech_supported env));
    simpl; auto.
Qed.

(** X4.  In every state of the page the microphone button carries the class
    [listening] exactly when [state.isListening] is set: [startListening]
    and [stopListening] change the two together, and nothing else changes
    either. *)
Theorem microphone_class_follows_flag (env : BootEnv) (s : Sys) :
  reaches env s ->
  mic_listening (dom (world s)) = isListening (state (world s)).
Proof.
  revert s.
  apply (@reaches_ind env
           (fun s => mic_listening (dom (world s))
                     = isListening (state (world s)))).
  - simpl. destruct (init_speech env) as (_ & _ & -> & ->). reflexivity.
  - intros ev s0 s1 _ IH E.
    destruct (step_Transition _ _ E)
      as [_ [(S & M)|(b & S & M)] _ _ _
         | text shown _ _ _ _ _ S _ _ _ _ _ M
         | text _ _ _ _ _ S _ _ _ _ M
         | i t t' _ _ _ _ _ W
         | i t reply shown _ _ S _ _ _ _ _ M];
      rewrite ?W, ?S, ?M; try destruct reply; simpl; auto.
Qed.

Lemma microphone_class_follows_flag_witness :
  reaches env_key listening_page
  /\ isListening (state (world listening_page)) = true
  /\ mic_listening (dom (world listening_page)) = true.
Proof.
  assert (R : reaches env_key listening_page)
    by (exists [MicClick None]; reflexivity).
  split; [exact R|]. split; [reflexivity|].
  rewrite (microphone_class_follows_flag R). reflexivity.
Defined.

(** X15.  Only a submission or the settlement of a pending call touches the
    conversation.  Typing, clicks on the microphone, focus, the events of
    the recognition object and status timeouts leave the transcript, the
    busy flag, the issued requests, the messages on the page and the pending
    submissions as they are; a recognised utterance is put into the text
    field and is not submitted. *)
Theorem only_submissions_touch_conversation (ev : Event) (s s' : Sys) :
  submits ev = false -> step ev s = Some s' ->
  conversationHistory (state (world s'))
  = conversationHistory (state (world s))
  /\ isLoading (state (world s')) = isLoading (state (world s))
  /\ fetched (world s') = fetched (world s)
  /\ conversation_children (dom (world s'))
     = conversation_children (dom (world s))
  /\ tasks s' = tasks s
  /\ (forall transcript,
        ev = SpeechResult transcript ->
        textInput_value (dom (world s')) = transcript).
Proof.
  intros Sb E. destruct (step_quiet _ _ Sb E) as (T & St & F & D & _).
  assert (H : conversationHistory (state (world s'))
              = conversationHistory (state (world s))
              /\ isLoading (state (world s')) = isLoading (state (world s))).
  { destruct St as [(-> & _)|(b & -> & _)]; simpl; auto. }
  destruct H as (H & L). repeat split; auto.
  intros transcript ->. simpl in E.
  destruct (recognition (state (world s))); inversion E; subst. simpl.
  match goal with |- context [updateStatus ?m ?x] =>
    destruct (updateStatus_frame m x) as (_ & _ & _ & _ & _ & -> & _) end.
  reflexivity.
Qed.

Lemma only_submissions_touch_conversation_witness :
  submits (SpeechResult (str "dinners for two")) = false
  /\ exists s',
       step (SpeechResult (str "dinners for two")) waiting_page = Some s'
       /\ textInput_value (dom (world s')) = str "dinners for two"
       /\ tasks s' = tasks waiting_page
       /\ conversationHistory (state (world s'))
          = conversationHistory (state (world waiting_page)).
Proof.
  split; [reflexivity|].
  destruct (step (SpeechResult (str "dinners for two")) waiting_page)
    as [s'|] eqn:E; [|vm_compute in E; discriminate].
  exists s'. split; [reflexivity|].
  destruct (@only_submissions_touch_conversation
              (SpeechResult (str "dinners for two")) waiting_page s'
              eq_refl E)
    as (H & _ & _ & _ & T & I).
  split; [exact (I _ eq_refl)|]. split; [exact T|exact H].
Defined.

(** X16.  Once a message is on the page the welcome message is hidden, and
    it stays hidden. *)
Theorem welcome_hidden_once_talking (env : BootEnv) (s : Sys) :
  reaches env s ->
  conversation_children (dom (world s)) <> [] ->
  welcome_hidden (dom (world s)) = true.
Proof.
  revert s.
  apply (@reaches_ind env
           (fun s => conversation_children (dom (world s)) <> [] ->
                     welcome_hidden (dom (world s)) = true)).
  - simpl. destruct (init_frame env) as (_ & -> & _). congruence.
  - intros ev s0 s1 _ IH E.
    destruct (step_Transition _ _ E)
      as [_ _ _ D W
         | text shown _ _ _ _ _ _ _ _ _ W _ _
         | text _ _ _ _ _ _ _ _ W _ _
         | i t t' _ _ _ _ _ W
         | i t reply shown _ _ _ _ _ _ W _ _]; auto.
    + rewrite D, W. exact IH.
    + rewrite W. exact IH.
Qed.

Lemma welcome_hidden_once_talking_witness :
  reaches env_key waiting_page
  /\ conversation_children (dom (world waiting_page)) <> []
  /\ welcome_hidden (dom (world waiting_page)) = true.
Proof.
  assert (R : reaches env_key waiting_page)
    by (exists [Input (str "plan my week"); Send]; vm_compute; reflexivity).
  assert (N : conversation_children (dom (world waiting_page)) <> [])
    by (vm_compute; discriminate).
  split; [exact R|]. split; [exact N|].
  exact (welcome_hidden_once_talking R N).
Defined.

(** X6.  Submissions never overlap.  In every state the page can reach at
    most one submission is pending, and [state.isLoading] is set exactly
    while one is: a second call can never interleave its appends to the
    transcript with those of a call in flight. *)
Theorem submissions_never_overlap (s : Sys) :
  reachable s ->
  List.length (tasks s) <= 1
  /\ (isLoading (state (world s)) = true <-> tasks s <> [])
  /\ (forall s', step Send s = Some s' ->
                 List.length (tasks s') <= 1).
Proof.
  intros Rs.
  assert (X : forall s0, Exclusive s0 ->
                         List.length (tasks s0) <= 1
                         /\ (isLoading (state (world s0)) = true
                             <-> tasks s0 <> [])).
  { intros s0 [(T & L)|(t & T & L)]; rewrite T, L; simpl; split;
      try lia; split; congruence. }
  pose proof (reachable_Exclusive Rs) as E.
  destruct (X s E) as (A & B). split; [exact A|]. split; [exact B|].
  intros s' St. apply X. eapply Exclusive_step; eauto.
Qed.

Lemma submissions_never_overlap_witness :
  reachable busy_page
  /\ List.length (tasks busy_page) = 1
  /\ isLoading (state (world busy_page)) = true
  /\ List.length (tasks busy_page) <= 1.
Proof.
  assert (R : reachable busy_page)
    by (exists env_key,
          [Input (str "plan my week"); Send; Input (str "and dinners")];
        vm_compute; reflexivity).
  split; [exact R|]. split; [vm_compute; reflexivity|].
  split; [vm_compute; reflexivity|].
  exact (proj1 (submissions_never_overlap R)).
Defined.

(** ** The shape of the transcript *)

Lemma alternates_snoc_user (h : list Turn) (b : bool) (x : jsstring) :
  alternates b h = true -> alternates b (h ++ [user_turn x]) = true.
Proof.
  revert b. induction h as [|t h IH]; intros b; simpl; [reflexivity|].
  destruct (role t); try discriminate; auto.
  intros H. apply andb_true_iff in H. destruct H as (-> & H). simpl. auto.
Qed.

Lemma alternates_snoc_assistant (h : list Turn) (b : bool)
      (x : jsstring) (c : JsValue) :
  alternates b (h ++ [user_turn x]) = true ->
  alternates b ((h ++ [user_turn x]) ++ [assistant_turn c]) = true.
Proof.
  revert b. induction h as [|t h IH]; intros b; simpl; [reflexivity|].
  destruct (role t); try discriminate; auto.
  intros H. apply andb_true_iff in H. destruct H as (-> & H). simpl. auto.
Qed.

Lemma alternates_nth (h : list Turn) (b : bool) (i : nat) (t : Turn) :
  alternates b h = true -> nth_error h i = Some t ->
  role t <> system
  /\ (role t = assistant ->
      match i with
      | O => b = true
      | S j => exists u, nth_error h j = Some u /\ role u = user
      end).
Proof.
  revert b i. induction h as [|a h IH]; intros b i A N.
  - destruct i; discriminate.
  - destruct i as [|j]; simpl in N.
    + inversion N; subst a. simpl in A.
      destruct (role t); try discriminate; split; try congruence.
      intros _. now apply andb_true_iff in A.
    + simpl in A.
      assert (A' : exists b', alternates b' h = true
                              /\ (b' = true -> role a = user)).
      { destruct (role a); try discriminate.
        - exists true. auto.
        - apply andb_true_iff in A. exists false. split; [tauto|discriminate]. }
      destruct A' as (b' & A' & Hb).
      destruct (IH b' j A' N) as (Ns & Ha). split; [exact Ns|].
      intros Ra. specialize (Ha Ra). destruct j as [|k].
      * exists a. simpl. auto.
      * destruct Ha as (u & Hu & Ru). exists u. simpl. auto.
Qed.

(** The transcript alternates, and a pending submission's own user turn is
    the last turn. *)
Lemma reaches_alternates (env : BootEnv) (s : Sys) :
  reaches env s ->
  alternates false (conversationHistory (state (world s))) = true
  /\ (forall t, In t (tasks s) ->
        exists h0, conversationHistory (state (world s))
                   = h0 ++ [user_turn (userMessage t)]).
Proof.
  revert s.
  apply (@reaches_ind env
           (fun s =>
              alternates false (conversationHistory (state (world s))) = true
              /\ (forall t, In t (tasks s) ->
                    exists h0, conversationHistory (state (world s))
                               = h0 ++ [user_turn (userMessage t)]))).
  - simpl. destruct (init_state env) as (-> & _). split; [reflexivity|].
    intros t [].
  - intros ev s0 s1 Rs (A & P) E.
    pose proof (reachable_Exclusive (reaches_reachable Rs)) as X.
    destruct (step_Transition _ _ E)
      as [T St _ _ _
         | text shown _ _ L _ T S _ _ _ _ _ _
         | text _ _ L _ T S _ _ _ _ _
         | i t t' N _ _ U T W
         | i t reply shown N T S _ _ _ _ _ _].
    + assert (H : conversationHistory (state (world s1))
                  = conversationHistory (state (world s0)))
        by (destruct St as [(-> & _)|(b & -> & _)]; reflexivity).
      rewrite H, T. auto.
    + destruct X as [(T0 & _)|(t0 & _ & L')]; [|congruence].
      rewrite S, T, T0. simpl. split; [now apply alternates_snoc_user|].
      intros t [].
    + destruct X as [(T0 & _)|(t0 & _ & L')]; [|congruence].
      rewrite S, T, T0. simpl. split; [now apply alternates_snoc_user|].
      intros t [<-|[]]. simpl. eauto.
    + rewrite W. split; [exact A|].
      destruct X as [(T0 & _)|(t0 & T0 & _)];
        [rewrite T0 in N; destruct i; discriminate|].
      rewrite T0 in N, T. destruct i as [|i]; [|destruct i; discriminate].
      inversion N; subst t0. rewrite T. simpl. intros x [<-|[]].
      rewrite U. apply P. rewrite T0. now left.
    + destruct X as [(T0 & _)|(t0 & T0 & _)];
        [rewrite T0 in N; destruct i; discriminate|].
      rewrite T0 in N, T. destruct i as [|i]; [|destruct i; discriminate].
      inversion N; subst t0. rewrite T. simpl.
      split; [|intros x []]. rewrite S.
      destruct reply as [c|]; simpl; [|exact A].
      destruct (P t) as (h0 & H); [rewrite T0; now left|].
      rewrite H in *. now apply alternates_snoc_assistant.
Qed.

(** X8.  In every state of the page the transcript has user and assistant
    turns only, it does not start with an assistant turn, and every
    assistant turn comes right after a user turn.  While a submission is
    pending, the last turn of the transcript is that submission's user
    turn, so the reply that is then recorded follows the message it
    answers. *)
Theorem transcript_alternates (env : BootEnv) (s : Sys) :
  reaches env s ->
  (forall i t,
     nth_error (conversationHistory (state (world s))) i = Some t ->
     role t <> system
     /\ (role t = assistant ->
         exists j u,
           i = S j
           /\ nth_error (conversationHistory (state (world s))) j = Some u
           /\ role u = user))
  /\ (forall t, In t (tasks s) ->
        exists h0, conversationHistory (state (world s))
                   = h0 ++ [user_turn (userMessage t)]).
Proof.
  intros Rs. destruct (reaches_alternates Rs) as (A & P).
  split; [|exact P]. intros i t N.
  destruct (@alternates_nth _ _ _ _ A N) as (Ns & Ha). split; [exact Ns|].
  intros Ra. specialize (Ha Ra). destruct i as [|j]; [discriminate|].
  destruct Ha as (u & Hu & Ru). eauto.
Qed.

Lemma transcript_alternates_witness :
  reaches env_key waiting_page
  /\ exists h0,
       conversationHistory (state (world waiting_page))
       = h0 ++ [user_turn (str "plan my week")].
Proof.
  assert (R : reaches env_key waiting_page)
    by (exists [Input (str "plan my week"); Send]; vm_compute; reflexivity).
  split; [exact R|].
  destruct (transcript_alternates R) as (_ & P).
  apply (P {| phase := AwaitFetch; userMessage := str "plan my week" |}).
  vm_compute. now left.
Defined.

(** ** What is shown and what is recorded *)

Lemma trimStart_suffix (s : jsstring) :
  exists pre, s = pre ++ trimStart s.
Proof.
  induction s as [|c s (pre & IH)]; [now exists []|].
  simpl. destruct (is_white c); [|now exists []].
  exists (c :: pre). simpl. now rewrite <- IH.
Qed.

Lemma trimStart_fixed (s : jsstring) : trimStart (trimStart s) = trimStart s.
Proof.
  destruct (trimStart_head s) as [-> | (c & t & -> & W)]; [reflexivity|].
  simpl. now rewrite W.
Qed.

Lemma trim_idempotent (s : jsstring) : trim (trim s) = trim s.
Proof.
  unfold trim.
  assert (H : trimStart (trimEnd (trimStart s)) = trimEnd (trimStart s)).
  { unfold trimEnd.
    destruct (trimStart_suffix (rev (trimStart s))) as (pre & E).
    apply (f_equal (@rev N)) in E. rewrite rev_involutive, rev_app_distr in E.
    destruct (rev (trimStart (rev (trimStart s)))) as [|c x]; [reflexivity|].
    destruct (trimStart_head s) as [Z | (c' & t & Z & W)]; rewrite Z in E.
    - discriminate.
    - simpl in E. inversion E; subst c'. simpl. now rewrite W. }
  rewrite H. unfold trimEnd. rewrite rev_involutive.
  now rewrite trimStart_fixed.
Qed.

Lemma filter_assistant_bubbles (mk : Marked) (shown : list MessageDiv) :
  Forall (assistant_bubble mk) shown -> filter isUser shown = [].
Proof.
  induction 1 as [|m l (U & _) _ IH]; simpl; [reflexivity|].
  now rewrite U.
Qed.

(** The user messages on the page are the user turns of the transcript. *)
Lemma reaches_user_messages (env : BootEnv) (s : Sys) :
  reaches env s ->
  map body (filter isUser (conversation_children (dom (world s))))
  = map (fun t => TextContent (content t))
        (filter is_user_turn (conversationHistory (state (world s))))
  /\ Forall (fun t => is_user_turn t = true ->
                      exists x, t = user_turn x /\ x <> [] /\ trim x = x)
            (conversationHistory (state (world s))).
Proof.
  revert s.
  apply (@reaches_ind env
    (fun s =>
       map body (filter isUser (conversation_children (dom (world s))))
       = map (fun t => TextContent (content t))
             (filter is_user_turn (conversationHistory (state (world s))))
       /\ Forall (fun t => is_user_turn t = true ->
                           exists x, t = user_turn x /\ x <> [] /\ trim x = x)
                 (conversationHistory (state (world s))))).
  - simpl. destruct (init_state env) as (-> & _).
    destruct (init_frame env) as (_ & -> & _). simpl. auto.
  - intros ev s0 s1 Rs (M & F) E.
    assert (U : forall text,
               blank (textInput_value (dom (world s0))) = false ->
               text = trim (textInput_value (dom (world s0))) ->
               exists x, user_turn text = user_turn x /\ x <> []
                         /\ trim x = x).
    { intros text B ->. eexists. split; [reflexivity|]. split.
      - intros Z. apply trim_nil in Z. congruence.
      - apply trim_idempotent. }
    destruct (step_Transition _ _ E)
      as [_ St _ C _
         | text shown B Tx _ _ _ S _ C A _ _ _
         | text B Tx _ _ _ S _ C _ _ _
         | i t t' _ _ _ _ _ W
         | i t reply shown _ _ S _ C A _ _ _].
    + assert (H : conversationHistory (state (world s1))
                  = conversationHistory (state (world s0)))
        by (destruct St as [(-> & _)|(b & -> & _)]; reflexivity).
      rewrite H, C. auto.
    + rewrite S, C. simpl. rewrite !filter_app, !map_app. simpl.
      rewrite (filter_assistant_bubbles A), M. split; [reflexivity|].
      apply Forall_app. split; [exact F|]. constructor; [|constructor].
      intros _. now apply U.
    + rewrite S, C. simpl. rewrite !filter_app, !map_app. simpl.
      rewrite M. split; [reflexivity|].
      apply Forall_app. split; [exact F|]. constructor; [|constructor].
      intros _. now apply U.
    + rewrite W. auto.
    + rewrite S, C. rewrite filter_app, (filter_assistant_bubbles A).
      rewrite app_nil_r, M.
      destruct reply as [c|]; simpl; [|auto].
      rewrite filter_app. simpl. rewrite app_nil_r. split; [reflexivity|].
      apply Forall_app. split; [exact F|]. constructor; [|constructor].
      discriminate.
Qed.

(** X9.  In every state of the page, the user messages shown are exactly the
    user turns of the transcript, in the same order and with the same text;
    and each of them is a non-empty string with no white space at either
    end, the trimmed text of the input field at the time it was sent. *)
Theorem user_messages_match_transcript (env : BootEnv) (s : Sys) :
  reaches env s ->
  map body (filter isUser (conversation_children (dom (world s))))
  = map (fun t => TextContent (content t))
        (filter is_user_turn (conversationHistory (state (world s))))
  /\ (forall t, In t (conversationHistory (state (world s))) ->
        role t = user ->
        exists x, t = user_turn x /\ x <> [] /\ trim x = x).
Proof.
  intros Rs. destruct (reaches_user_messages Rs) as (M & F).
  split; [exact M|]. intros t I R.
  rewrite Forall_forall in F. apply (F t I).
  unfold is_user_turn. now rewrite R.
Qed.

Lemma user_messages_match_transcript_witness :
  reaches env_key waiting_page
  /\ map body
         (filter isUser (conversation_children (dom (world waiting_page))))
     = [TextContent (JString (str "plan my week"))].
Proof.
  assert (R : reaches env_key waiting_page)
    by (exists [Input (str "plan my week"); Send]; vm_compute; reflexivity).
  split; [exact R|].
  destruct (user_messages_match_transcript R) as (M & _).
  rewrite M. vm_compute. reflexivity.
Defined.

Lemma step_installed (ev : Event) (s s' : Sys) :
  step ev s = Some s' -> installed (world s) (world s').
Proof.
  intros E. apply (@run_installed [ev]). simpl. now rewrite E.
Qed.

(** How each message on the page was written. *)
Lemma reaches_bubbles (env : BootEnv) (s : Sys) :
  reaches env s ->
  Forall (fun m =>
            (isUser m = true -> exists x, body m = TextContent (JString x))
            /\ (renderer env = NoMarked -> exists v, body m = TextContent v))
         (conversation_children (dom (world s))).
Proof.
  revert s.
  apply (@reaches_ind env
    (fun s =>
       Forall (fun m =>
            (isUser m = true -> exists x, body m = TextContent (JString x))
            /\ (renderer env = NoMarked -> exists v, body m = TextContent v))
         (conversation_children (dom (world s))))).
  - simpl. destruct (init_frame env) as (_ & -> & _). constructor.
  - intros ev s0 s1 Rs F E.
    assert (Mk : marked (world s0) = renderer env).
    { destruct (reaches_installed Rs) as (_ & -> & _).
      now destruct (init_frame env) as (_ & _ & _ & _ & -> & _). }
    assert (A : forall shown,
               Forall (assistant_bubble (marked (world s0))) shown ->
               Forall (fun m =>
                 (isUser m = true ->
                  exists x, body m = TextContent (JString x))
                 /\ (renderer env = NoMarked ->
                     exists v, body m = TextContent v)) shown).
    { intros shown H. eapply Forall_impl; [|exact H].
      intros m (U & T). rewrite Mk in T. split; [congruence|exact T]. }
    assert (B : forall text,
               (isUser (user_bubble text) = true ->
                exists x, body (user_bubble text) = TextContent (JString x))
               /\ (renderer env = NoMarked ->
                   exists v, body (user_bubble text) = TextContent v))
      by (intros text; simpl; eauto).
    destruct (step_Transition _ _ E)
      as [_ _ _ C _
         | text shown _ _ _ _ _ _ _ C H _ _ _
         | text _ _ _ _ _ _ _ C _ _ _
         | i t t' _ _ _ _ _ W
         | i t reply shown _ _ _ _ C H _ _ _].
    + now rewrite C.
    + rewrite C. apply Forall_app. split; [exact F|]. constructor; auto.
    + rewrite C. apply Forall_app. split; [exact F|]. constructor; auto.
    + now rewrite W.
    + rewrite C. apply Forall_app. auto.
Qed.

(** X10.  What the user typed is never inserted as markup: in every state of
    the page, each message of class [user] was written through
    [textContent] and holds a string.  When the page has loaded no Markdown
    renderer, no message at all was written through [innerHTML]. *)
Theorem user_text_never_markup (env : BootEnv) (s : Sys) (m : MessageDiv) :
  reaches env s ->
  In m (conversation_children (dom (world s))) ->
  (isUser m = true -> exists x, body m = TextContent (JString x))
  /\ (renderer env = NoMarked -> forall html, body m <> InnerHTML html).
Proof.
  intros Rs I. pose proof (reaches_bubbles Rs) as F.
  rewrite Forall_forall in F. destruct (F m I) as (U & T).
  split; [exact U|]. intros N html. destruct (T N) as (v & ->).
  discriminate.
Qed.

Lemma user_text_never_markup_witness :
  reaches env_key waiting_page
  /\ In (user_bubble (str "plan my week"))
        (conversation_children (dom (world waiting_page)))
  /\ exists x,
       body (user_bubble (str "plan my week")) = TextContent (JString x).
Proof.
  assert (R : reaches env_key waiting_page)
    by (exists [Input (str "plan my week"); Send]; vm_compute; reflexivity).
  assert (I : In (user_bubble (str "plan my week"))
                 (conversation_children (dom (world waiting_page))))
    by (vm_compute; now left).
  split; [exact R|]. split; [exact I|].
  destruct (@user_text_never_markup _ _ _ R I) as (U & _).
  apply U. reflexivity.
Defined.

(** ** The requests *)

Lemma prefix_kept (h l : list Turn) (k : nat) (x : jsstring) (ms : list Turn) :
  ms = system_turn :: firstn (S k) h /\ nth_error h k = Some (user_turn x) ->
  ms = system_turn :: firstn (S k) (h ++ l)
  /\ nth_error (h ++ l) k = Some (user_turn x).
Proof.
  intros (-> & N).
  assert (L : k < List.length h) by (apply nth_error_Some; congruence).
  rewrite firstn_app, nth_error_app1 by exact L.
  replace (S k - List.length h) with 0 by lia.
  simpl firstn at 2. rewrite app_nil_r. auto.
Qed.

(** Every request was built from the configuration [init] left and from the
    transcript as it stood; outside mock mode there is one per user turn. *)
Lemma reaches_requests (env : BootEnv) (s : Sys) :
  reaches env s ->
  Forall (fun r =>
            r = {| url := apiEndpoint (CONFIG (init env));
                   authorization := str "Bearer " ++ apiKey (CONFIG (init env));
                   body_model := model (CONFIG (init env));
                   messages := messages r;
                   max_tokens := 2000 |}
            /\ exists k x,
                 messages r
                 = system_turn
                   :: firstn (S k) (conversationHistory (state (world s)))
                 /\ nth_error (conversationHistory (state (world s))) k
                    = Some (user_turn x))
         (fetched (world s))
  /\ List.length (fetched (world s))
     = if mock_mode (init env) then 0
       else List.length
              (filter is_user_turn (conversationHistory (state (world s)))).
Proof.
  revert s.
  apply (@reaches_ind env
    (fun s =>
      Forall (fun r =>
            r = {| url := apiEndpoint (CONFIG (init env));
                   authorization := str "Bearer " ++ apiKey (CONFIG (init env));
                   body_model := model (CONFIG (init env));
                   messages := messages r;
                   max_tokens := 2000 |}
            /\ exists k x,
                 messages r
                 = system_turn
                   :: firstn (S k) (conversationHistory (state (world s)))
                 /\ nth_error (conversationHistory (state (world s))) k
                    = Some (user_turn x))
         (fetched (world s))
      /\ List.length (fetched (world s))
         = if mock_mode (init env) then 0
           else List.length
                  (filter is_user_turn
                     (conversationHistory (state (world s)))))).
  - simpl. destruct (init_state env) as (-> & _).
    destruct (init_frame env) as (_ & _ & _ & _ & _ & ->). simpl.
    split; [constructor|]. now destruct (mock_mode (init env)).
  - intros ev s0 s1 Rs (F & N) E.
    assert (C : CONFIG (world s0) = CONFIG (init env))
      by now destruct (reaches_installed Rs) as (-> & _).
    assert (Mm : mock_mode (world s0) = mock_mode (init env))
      by (unfold mock_mode; now rewrite C).
    assert (K : forall l,
      Forall (fun r =>
            r = {| url := apiEndpoint (CONFIG (init env));
                   authorization := str "Bearer " ++ apiKey (CONFIG (init env));
                   body_model := model (CONFIG (init env));
                   messages := messages r;
                   max_tokens := 2000 |}
            /\ exists k x,
                 messages r
                 = system_turn
                   :: firstn (S k)
                        (conversationHistory (state (world s0)) ++ l)
                 /\ nth_error (conversationHistory (state (world s0)) ++ l) k
                    = Some (user_turn x))
         (fetched (world s0))).
    { intros l. eapply Forall_impl; [|exact F].
      intros r (Hr & k & x & H). split; [exact Hr|].
      exists k, x. now apply prefix_kept. }
    destruct (step_Transition _ _ E)
      as [_ St Fe _ _
         | text shown _ _ _ Mo _ S Fe _ _ _ _ _
         | text _ _ _ Mo _ S Fe _ _ _ _
         | i t t' _ _ _ _ _ W
         | i t reply shown _ _ S Fe _ _ _ _ _].
    + assert (H : conversationHistory (state (world s1))
                  = conversationHistory (state (world s0)))
        by (destruct St as [(-> & _)|(b & -> & _)]; reflexivity).
      rewrite H, Fe. auto.
    + rewrite S, Fe. simpl. split; [apply K|].
      rewrite N. rewrite <- Mm, Mo. reflexivity.
    + rewrite S, Fe. simpl. split.
      * apply Forall_app. split; [apply K|]. constructor; [|constructor].
        unfold request_for. cbn [messages]. rewrite C. split; [reflexivity|].
        exists (List.length (conversationHistory (state (world s0)))), text.
        split.
        -- f_equal. symmetry.
           refine (@firstn_all2 _ (Datatypes.S (List.length
                     (conversationHistory (state (world s0))))) _ _).
           rewrite length_app. simpl. lia.
        -- rewrite nth_error_app2, Nat.sub_diag by lia. reflexivity.
      * rewrite length_app, N, filter_app, length_app.
        rewrite <- Mm, Mo. simpl. reflexivity.
    + rewrite W. auto.
    + rewrite S, Fe. destruct reply as [c|]; simpl; [|auto].
      split; [apply K|]. rewrite N, filter_app, length_app. simpl.
      now rewrite Nat.add_0_r.
Qed.

(** X11.  Every request the page has issued went to the chat-completion
    endpoint with model gpt-4o and [max_tokens] 2000, under the header
    [Bearer] followed by the credential [init] configured, which is not
    empty; its messages are the system prompt followed by the transcript up
    to and including some user turn.  Outside mock mode the page has issued
    exactly one request per user turn of the transcript, retries and
    failures included; in mock mode it has issued none. *)
Theorem requests_follow_configuration (env : BootEnv) (s : Sys) :
  reaches env s ->
  (forall r, In r (fetched (world s)) ->
     url r = str "https://api.openai.com/v1/chat/completions"
     /\ body_model r = str "gpt-4o"
     /\ max_tokens r = 2000%Z
     /\ authorization r = str "Bearer " ++ apiKey (CONFIG (world s))
     /\ JsString.truthy (apiKey (CONFIG (world s))) = true
     /\ exists k x,
          messages r
          = system_turn
            :: firstn (S k) (conversationHistory (state (world s)))
          /\ nth_error (conversationHistory (state (world s))) k
             = Some (user_turn x))
  /\ List.length (fetched (world s))
     = if mock_mode (world s) then 0
       else List.length
              (filter is_user_turn (conversationHistory (state (world s)))).
Proof.
  intros Rs. destruct (reaches_requests Rs) as (F & N).
  assert (C : CONFIG (world s) = CONFIG (init env))
    by now destruct (reaches_installed Rs) as (-> & _).
  assert (Mm : mock_mode (world s) = mock_mode (init env))
    by (unfold mock_mode; now rewrite C).
  destruct (init_CONFIG env) as (U & Ep & Mo).
  rewrite Mm, C. split; [|exact N].
  intros r I. rewrite Forall_forall in F. destruct (F r I) as (Hr & P).
  rewrite Hr. cbn [url body_model max_tokens authorization messages].
  rewrite Ep, Mo. do 4 (split; [reflexivity|]). split; [|exact P].
  destruct (mock_mode (init env)) eqn:Me.
  - destruct (fetched (world s)); [destruct I|discriminate].
  - unfold mock_mode in Me. apply orb_false_iff in Me.
    destruct Me as (_ & Me). now apply negb_false_iff in Me.
Qed.

Lemma requests_follow_configuration_witness :
  reaches env_key waiting_page
  /\ List.length (fetched (world waiting_page)) = 1.
Proof.
  assert (R : reaches env_key waiting_page)
    by (exists [Input (str "plan my week"); Send]; vm_compute; reflexivity).
  split; [exact R|].
  destruct (requests_follow_configuration R) as (_ & N).
  rewrite N. vm_compute. reflexivity.
Defined.

(** X12.  With no credential the page is offline: whatever events follow,
    it issues no request, no submission is ever left pending and the busy
    flag is never set, so every message sent is answered in the same
    event. *)
Theorem mock_mode_is_offline (env : BootEnv) (s : Sys) :
  reaches env s ->
  JsString.truthy (apiKey (CONFIG (init env))) = false ->
  fetched (world s) = [] /\ tasks s = []
  /\ isLoading (state (world s)) = false
  /\ (forall s', step Send s = Some s' ->
        tasks s' = []
        /\ (blank (textInput_value (dom (world s))) = false ->
            exists shown,
              conversation_children (dom (world s'))
              = conversation_children (dom (world s))
                ++ user_bubble (trim (textInput_value (dom (world s))))
                :: shown)).
Proof.
  intros Rs K.
  assert (Mi : mock_mode (init env) = true)
    by (unfold mock_mode; rewrite K; apply orb_true_r).
  assert (Mm : forall s0, reaches env s0 -> mock_mode (world s0) = true).
  { intros s0 R0. destruct (reaches_installed R0) as (C & _).
    unfold mock_mode. rewrite C. exact Mi. }
  assert (T : forall s0, reaches env s0 -> tasks s0 = []).
  { apply (@reaches_ind env (fun s0 => tasks s0 = [])); [reflexivity|].
    intros ev s0 s1 R0 IH E.
    destruct (step_Transition _ _ E)
      as [T _ _ _ _
         | text shown _ _ _ _ T _ _ _ _ _ _ _
         | text _ _ _ Mo _ _ _ _ _ _ _
         | i t t' N _ _ _ _ _
         | i t reply shown N _ _ _ _ _ _ _ _];
      try congruence.
    - rewrite (Mm _ R0) in Mo. discriminate.
    - rewrite IH in N. destruct i; discriminate.
    - rewrite IH in N. destruct i; discriminate. }
  destruct (reaches_requests Rs) as (_ & N). rewrite Mi in N.
  split; [now destruct (fetched (world s))|].
  split; [now apply T|]. split.
  - destruct (reachable_Exclusive (reaches_reachable Rs))
      as [(_ & L)|(t & Ts & _)]; [exact L|].
    rewrite (T _ Rs) in Ts. discriminate.
  - intros s' E. split; [apply T; eapply reaches_step; eauto|].
    intros B. pose proof (Mm _ Rs) as Mk.
    assert (L : isLoading (state (world s)) = false).
    { destruct (reachable_Exclusive (reaches_reachable Rs))
        as [(_ & L)|(t & Ts & _)]; [exact L|].
      rewrite (T _ Rs) in Ts. discriminate. }
    simpl in E. rewrite (handleSubmit_accepted _ B L) in E.
    set (text := trim (textInput_value (dom (world s)))) in *.
    destruct (world_at_call_page text (world s)) as (D0 & _).
    destruct (world_at_call_view text (world s)) as (_ & C0 & _).
    rewrite callAI_mock in E
      by (unfold mock_mode in *; now rewrite C0).
    injection E as <-.
    match goal with |- context [handleSubmit_reply ?r] =>
      destruct (handleSubmit_reply_effect r) as (_ & shown & D1 & _)
    end.
    cbn [world_of with_state state fetched dom marked] in *.
    exists shown. cbn [world]. rewrite D1, D0, <- app_assoc. reflexivity.
Qed.

Lemma mock_mode_is_offline_witness :
  reaches env_mock blank_page
  /\ fetched (world blank_page) = [] /\ tasks blank_page = [].
Proof.
  assert (R : reaches env_mock blank_page)
    by (exists [Input [32; 9; 160]%N]; vm_compute; reflexivity).
  split; [exact R|].
  destruct (@mock_mode_is_offline env_mock blank_page R eq_refl)
    as (F & T & _).
  split; [exact F|exact T].
Defined.

(** ** The status line around a settlement *)

Lemma addMessage_status (v : JsValue) (b : bool) (w : World) :
  status_textContent (dom (world_of (addMessage v b w)))
  = status_textContent (dom w)
  /\ status_active (dom (world_of (addMessage v b w))) = status_active (dom w).
Proof.
  unfold addMessage, bind, exec. destruct b; cbn.
  - auto.
  - destruct (render_assistant (marked w) v); cbn; auto.
Qed.

Lemma callAI_try_status (text : jsstring) (stretch : M TryStep)
      (w : World) (r : Res JsValue) :
  callAI_try text stretch w = Settled r ->
  status_textContent (dom (world_of r)) = []
  /\ status_active (dom (world_of r)) = false.
Proof.
  assert (F : forall w0,
             status_textContent (dom (callAI_finally w0)) = []
             /\ status_active (dom (callAI_finally w0)) = false).
  { intros w0. unfold callAI_finally.
    destruct (updateStatus_frame [] (with_state (set_isLoading false) w0))
      as (_ & _ & _ & _ & _ & _ & T & A). auto. }
  unfold callAI_try.
  destruct (stretch w) as [[v|p] w1|e w1]; [| discriminate |];
    intros [= <-]; unfold finally.
  - cbn [ret world_of]. apply F.
  - destruct (callAI_catch text e w1) as [v w2|e' w2]; cbn [world_of];
      apply F.
Qed.

Lemma callAI_resume_status (t : Task) (o : Settlement)
      (k : World -> Async JsValue) (w : World) (r : Res JsValue) :
  callAI_resume t o = Some k -> k w = Settled r ->
  status_textContent (dom (world_of r)) = []
  /\ status_active (dom (world_of r)) = false.
Proof.
  unfold callAI_resume.
  destruct (phase t), o; intros [= <-]; apply callAI_try_status.
Qed.

Lemma handleSubmit_reply_status (reply : Res JsValue) :
  let w := world_of reply in
  let w' := world_of (handleSubmit_reply reply) in
  (status_textContent (dom w') = status_textContent (dom w)
   /\ status_active (dom w') = status_active (dom w))
  \/ (exists e,
        status_textContent (dom w')
        = str "Error: " ++ message e
          ++ str ". Please check your API configuration."
        /\ status_active (dom w') = true).
Proof.
  assert (C : forall e w0,
    status_textContent (dom (world_of (handleSubmit_catch e w0)))
    = str "Error: " ++ message e
      ++ str ". Please check your API configuration."
    /\ status_active (dom (world_of (handleSubmit_catch e w0))) = true).
  { intros e w0. unfold handleSubmit_catch, bind, exec.
    match goal with |- context [addMessage ?v ?b ?x] =>
      destruct (addMessage_status v b x) as (-> & ->)
    end.
    match goal with |- context [updateStatus ?m ?x] =>
      destruct (updateStatus_frame m x) as (_ & _ & _ & _ & _ & _ & -> & ->)
    end.
    split; reflexivity. }
  unfold handleSubmit_reply, try_catch, handleSubmit_try, bind.
  destruct reply as [v w|e w]; cbn [world_of].
  - pose proof (addMessage_status v false w) as H.
    destruct (addMessage v false w) as [u w1|e w1]; cbn [world_of] in *.
    + now left.
    + right. exists e. apply C.
  - right. exists e. apply C.
Qed.

(** X13.  What the settlement of a pending call leaves.  Either the call
    only moved on to wait for the response body, and nothing of the page
    changed; or the submission finished: the page is idle again and the
    status line is empty and inactive, unless showing the reply failed, in
    which case it holds the error notice of [handleSubmit].  So neither
    [Thinking...] nor the notice [API error. Using fallback mode.] that the
    [catch] block of [callAI] writes is on the status line once the event
    is over: the [finally] block has overwritten it. *)
Theorem settlement_clears_status (s s' : Sys) (i : nat) (o : Settlement) :
  reachable s ->
  step (Settle i o) s = Some s' ->
  (world s' = world s /\ tasks s' <> [])
  \/ (idle s'
      /\ ((status_textContent (dom (world s')) = []
           /\ status_active (dom (world s')) = false)
          \/ (exists e,
                status_textContent (dom (world s'))
                = str "Error: " ++ message e
                  ++ str ". Please check your API configuration."
                /\ status_active (dom (world s')) = true))).
Proof.
  intros Rs. pose proof (reachable_Exclusive Rs) as X. simpl.
  destruct (nth_error (tasks s) i) as [t|] eqn:N; [|discriminate].
  assert (T : tasks s = [t] /\ i = 0).
  { destruct X as [(T0 & _)|(t0 & T0 & _)]; rewrite T0 in N.
    - destruct i; discriminate.
    - destruct i as [|i]; [|destruct i; discriminate].
      inversion N; subst t0. auto. }
  destruct T as (T & ->).
  destruct (callAI_resume t o) as [k|] eqn:K; [|discriminate].
  destruct (k (world s)) as [reply|t' w'] eqn:E; intros [= <-];
    cbn [world tasks]; rewrite T; simpl.
  - right.
    destruct (callAI_resume_status _ _ _ K E) as (St & Sa).
    pose proof (callAI_resume_settled _ _ _ K E) as L.
    destruct (handleSubmit_reply_effect reply) as ((S1 & _) & _).
    cbn zeta in S1. split.
    + split; [reflexivity|]. cbn [world]. now rewrite S1.
    + destruct (handleSubmit_reply_status reply) as [(A & B)|H].
      * left. cbn zeta in A, B. now rewrite A, B.
      * right. exact H.
  - left. split; [|discriminate].
    exact (callAI_resume_suspended _ _ _ K E).
Qed.

Lemma settlement_clears_status_witness :
  exists s',
    step (Settle 0 (Rejected {| message := str "Failed to fetch" |}))
         waiting_page = Some s'
    /\ idle s'
    /\ status_textContent (dom (world s')) <> str "API error. Using fallback mode.".
Proof.
  assert (R : reachable waiting_page)
    by (exists env_key, [Input (str "plan my week"); Send];
        vm_compute; reflexivity).
  destruct (step (Settle 0 (Rejected {| message := str "Failed to fetch" |}))
                 waiting_page) as [s'|] eqn:E;
    [|vm_compute in E; discriminate].
  exists s'. split; [reflexivity|].
  destruct (settlement_clears_status _ _ R E) as [(W & T)|(I & H)].
  - exfalso. apply T. vm_compute in E. now inversion E.
  - split; [exact I|]. destruct H as [(-> & _)|(e & -> & _)]; discriminate.
Defined.

(** ** The microphone button *)

(** X14.  On a page whose browser has speech recognition, a click on the
    microphone toggles listening.  While listening, it stops: the flag and
    the button's class are cleared and the status line is left as it is,
    even if [stop()] raises.  Otherwise it starts: when [start()] returns,
    the page is listening, the status line reads [Listening... Speak now!]
    and no timeout is scheduled for it, so it stays until something else is
    written; when [start()] raises, the page is not listening and the
    status line says so. *)
Theorem microphone_toggles (env : BootEnv) (s s' : Sys) (r : option Exn) :
  reaches env s ->
  speech_supported env = true ->
  step (MicClick r) s = Some s' ->
  if isListening (state (world s)) then
    isListening (state (world s')) = false
    /\ mic_listening (dom (world s')) = false
    /\ status_textContent (dom (world s')) = status_textContent (dom (world s))
    /\ timers (world s') = timers (world s)
  else
    match r with
    | None =>
        isListening (state (world s')) = true
        /\ mic_listening (dom (world s')) = true
        /\ status_textContent (dom (world s')) = str "Listening... Speak now!"
        /\ timers (world s') = timers (world s)
    | Some _ =>
        isListening (state (world s')) = false
        /\ status_textContent (dom (world s'))
           = str "Could not start listening. Please try again."
    end.
Proof.
  intros Rs Sp E.
  destruct (reaches_installed Rs) as (_ & _ & Rc & _).
  destruct (init_speech env) as (_ & N & _).
  assert (Re : exists rec, recognition (state (world s)) = Some rec).
  { destruct (recognition (state (world s))) as [rec|]; [eauto|].
    symmetry in Rc. apply N in Rc. congruence. }
  destruct Re as (rec & Re).
  simpl in E. injection E as <-. cbn [world].
  destruct (isListening (state (world s))) eqn:L.
  - unfold stopListening. rewrite Re, L.
    destruct r as [e|]; cbn; auto.
  - unfold startListening. rewrite Re.
    destruct r as [e|]; cbn.
    + unfold updateStatus. cbn. rewrite L.
      destruct (isLoading (state (world s))); cbn; auto.
    + auto.
Qed.

Lemma microphone_toggles_witness :
  exists s',
    step (MicClick None) listening_page = Some s'
    /\ isListening (state (world listening_page)) = true
    /\ isListening (state (world s')) = false.
Proof.
  assert (R : reaches env_key listening_page)
    by (exists [MicClick None]; vm_compute; reflexivity).
  destruct (step (MicClick None) listening_page) as [s'|] eqn:E;
    [|vm_compute in E; discriminate].
  exists s'. split; [reflexivity|].
  pose proof (@microphone_toggles env_key listening_page s' None R eq_refl E)
    as H.
  assert (L : isListening (state (world listening_page)) = true)
    by (vm_compute; reflexivity).
  rewrite L in H. split; [exact L|]. exact (proj1 H).
Defined.
